(** * Duktape Ecmascript compiler (duk_js_compiler.c): a shallow embedding

    The development follows src/duk_js_compiler.c.  C [int]s are mathematical
    integers ([Z]); a value stored into a [duk_instr] (a 32-bit unsigned
    word) is reduced modulo 2^32 ([wrap32]).  The code buffer, the constant
    array and the label table are lists, read with stdpp's [!!] and updated in
    place with [<[ _ := _ ]>].  DUK_ERROR is the [Throw] outcome; a read or
    write outside the code buffer (which the C code only guards with
    DUK_ASSERT, compiled out in production builds) is the [Undef] outcome.
    Failure of the memory allocator is not modelled. *)

From Stdlib Require Import ZArith Lia Bool Btauto.
From Stdlib Require Import Floats.SpecFloat.
From stdpp Require Import base decidable option list gmap strings pretty.

Local Open Scope Z_scope.

(** ** Values *)

(** Error codes, website/api/defines.html. *)
Inductive duk_errcode : Set :=
| DUK_ERR_UNIMPLEMENTED_ERROR
| DUK_ERR_UNSUPPORTED_ERROR
| DUK_ERR_INTERNAL_ERROR
| DUK_ERR_ALLOC_ERROR
| DUK_ERR_ASSERTION_ERROR
| DUK_ERR_API_ERROR
| DUK_ERR_UNCAUGHT_ERROR
| DUK_ERR_ERROR
| DUK_ERR_EVAL_ERROR
| DUK_ERR_RANGE_ERROR
| DUK_ERR_REFERENCE_ERROR
| DUK_ERR_SYNTAX_ERROR
| DUK_ERR_TYPE_ERROR
| DUK_ERR_URI_ERROR.

#[global] Instance duk_errcode_eq_dec : EqDecision duk_errcode.
Proof. solve_decision. Defined.

#[global] Instance spec_float_eq_dec : EqDecision spec_float.
Proof. solve_decision. Defined.

(** Interned strings compare by identity, which for interned strings is
    equality of contents. *)
Definition duk_hstring : Type := string.

(** Modelled from the spec: the value system (duk_tval.h, duk_hobject.h) is
    not among the sources.  Section 6 lists "primitive containers for
    undefined/null/boolean/number/string"; numbers are IEEE-754 doubles
    (section 3), here [spec_float], which has one NaN and two signed zeros. *)
Inductive duk_primitive : Type :=
| DUK_TAG_UNDEFINED
| DUK_TAG_NULL
| DUK_TAG_BOOLEAN (b : bool)
| DUK_TAG_NUMBER (d : spec_float)
| DUK_TAG_STRING (h : duk_hstring).

#[global] Instance duk_primitive_eq_dec : EqDecision duk_primitive.
Proof. solve_decision. Defined.

(** Modelled from the spec: an object as far as the compiler driver looks at
    it: the error code that selected its prototype when DUK_ERROR created it
    (if any) and its properties ("property set/get/has/del", section 6). *)
Record duk_hobject : Type := mk_hobject {
  h_errcode : option duk_errcode;
  h_props : gmap string duk_primitive
}.

Inductive duk_tval : Type :=
| DUK_TVAL_PRIMITIVE (p : duk_primitive)
| DUK_TVAL_OBJECT (h : duk_hobject).

Definition tv_string (s : string) : duk_tval := DUK_TVAL_PRIMITIVE (DUK_TAG_STRING s).

(** Modelled from the spec: duk_js_samevalue() (duk_js_ops.c) is not among
    the sources.  Section 8, invariant 3: "SameValue" per ES5,
    "distinguishing +0 from -0 and treating NaN as equal to NaN"; on
    [spec_float] that is equality of the representation. *)
Definition duk_js_samevalue (tv1 tv2 : duk_primitive) : bool := bool_decide (tv1 = tv2).

(** ** Outcomes of a compiler function *)

Inductive outcome (A : Type) : Type :=
| Ok (a : A)          (* normal return *)
| Throw (e : duk_tval) (* DUK_ERROR / duk_throw: unwinds to the catch point *)
| Undef               (* access outside a buffer: no defined behaviour *)
| OutOfFuel.          (* the bound given to an unrolled loop was too small *)
Arguments Ok {A} a.
Arguments Throw {A} e.
Arguments Undef {A}.
Arguments OutOfFuel {A}.

Definition bind {A B : Type} (m : outcome A) (k : A -> outcome B) : outcome B :=
  match m with
  | Ok a => k a
  | Throw e => Throw e
  | Undef => Undef
  | OutOfFuel => OutOfFuel
  end.

Declare Scope outcome_scope.
Delimit Scope outcome_scope with outcome.
Notation "'let*' p ':=' m 'in' k" := (bind m (fun p => k))
  (at level 10, p pattern, m at level 100, k at level 200) : outcome_scope.
Local Open Scope outcome_scope.

(** DUK_ERROR(thr, code, msg): an Error instance of the given kind whose
    message is [msg], thrown. *)
Definition duk_error_object (code : duk_errcode) (msg : string) : duk_tval :=
  DUK_TVAL_OBJECT
    (mk_hobject (Some code) (<["message" := DUK_TAG_STRING msg]> empty)).

Definition DUK_ERROR {A : Type} (code : duk_errcode) (msg : string) : outcome A :=
  Throw (duk_error_object code msg).

(** The kind of a thrown value, when it is an error object. *)
Definition error_kind (v : duk_tval) : option duk_errcode :=
  match v with
  | DUK_TVAL_OBJECT h => h_errcode h
  | DUK_TVAL_PRIMITIVE _ => None
  end.

Definition throws_kind {A : Type} (m : outcome A) (code : duk_errcode) : Prop :=
  exists e, m = Throw e /\ error_kind e = Some code.

(** ** Bytecode words *)

Definition duk_instr : Type := Z.

Definition wrap32 (x : Z) : duk_instr := x mod 2 ^ 32.

(** Modelled from the spec: the encoding macros of duk_js_bytecode.h, which
    is not among the sources.  Section 4.1: "Each instruction is a 32-bit
    word decomposed as either OP(6) A(8) B(9) C(9) or OP(6) A(8) BC(18) or
    OP(6) ABC(26)", fields in that order from the low bits; "BC is an 18-bit
    unsigned register/constant index"; "ABC is a signed offset (with bias)
    for jumps", the bias being half the 26-bit range. *)
Definition DUK_ENC_OP_ABC (op abc : Z) : Z := Z.lor (Z.shiftl abc 6) op.
Definition DUK_ENC_OP_A_BC (op a bc : Z) : Z :=
  Z.lor (Z.lor (Z.shiftl bc 14) (Z.shiftl a 6)) op.
Definition DUK_ENC_OP_A_B_C (op a b c : Z) : Z :=
  Z.lor (Z.lor (Z.lor (Z.shiftl c 23) (Z.shiftl b 14)) (Z.shiftl a 6)) op.

Definition DUK_DEC_OP (x : duk_instr) : Z := Z.land x 0x3f.
Definition DUK_DEC_A (x : duk_instr) : Z := Z.land (Z.shiftr x 6) 0xff.
Definition DUK_DEC_B (x : duk_instr) : Z := Z.land (Z.shiftr x 14) 0x1ff.
Definition DUK_DEC_C (x : duk_instr) : Z := Z.land (Z.shiftr x 23) 0x1ff.
Definition DUK_DEC_BC (x : duk_instr) : Z := Z.land (Z.shiftr x 14) 0x3ffff.
Definition DUK_DEC_ABC (x : duk_instr) : Z := Z.land (Z.shiftr x 6) 0x3ffffff.

Definition DUK_BC_A_MAX : Z := 0xff.
Definition DUK_BC_B_MAX : Z := 0x1ff.
Definition DUK_BC_C_MAX : Z := 0x1ff.
Definition DUK_BC_BC_MIN : Z := 0.
Definition DUK_BC_BC_MAX : Z := 0x3ffff.
Definition DUK_BC_ABC_MAX : Z := 0x3ffffff.
Definition DUK_BC_JUMP_BIAS : Z := 2 ^ 25.
Definition DUK_BC_LDINT_BIAS : Z := 2 ^ 17.
Definition DUK_BC_LDINTX_SHIFT : Z := 18.

(** "if highest bit of a register number is set, it refers to a constant
    instead" (duk_js_compiler.c, line 25); register numbers are 32-bit. *)
Definition DUK__CONST_MARKER : Z := 2 ^ 31.

Definition DUK__GETCONST_MAX_CONSTS_CHECK : Z := 256.
Definition DUK__MAX_CONSTS : Z := DUK_BC_BC_MAX + 1.
Definition DUK__MAX_FUNCS : Z := DUK_BC_BC_MAX + 1.
Definition DUK__MAX_TEMPS : Z := DUK_BC_BC_MAX + 1.

(** [x & flag] used as a C truth value. *)
Definition has_flag (x flag : Z) : bool := negb (Z.land x flag =? 0).

(** ** Tokens

    "The token table is ordered by the DUK_TOK_XXX defines": a token's number
    is its position in [duk__token_lbp]. *)

Definition DUK_TOK_EOF : Z := 0.
Definition DUK_TOK_IDENTIFIER : Z := 3.
Definition DUK_TOK_BREAK : Z := 4.
Definition DUK_TOK_CONTINUE : Z := 7.
Definition DUK_TOK_FUNCTION : Z := 15.
Definition DUK_TOK_IN : Z := 17.
Definition DUK_TOK_RETURN : Z := 20.
Definition DUK_TOK_RCURLY : Z := 52.
Definition DUK_TOK_LPAREN : Z := 55.
Definition DUK_TOK_RPAREN : Z := 56.
Definition DUK_TOK_SEMICOLON : Z := 58.
Definition DUK_TOK_COMMA : Z := 59.
Definition DUK_TOK_INCREMENT : Z := 73.
Definition DUK_TOK_DECREMENT : Z := 74.
Definition DUK_TOK_NUMBER : Z := 99.
Definition DUK_TOK_STRING : Z := 100.
Definition DUK_TOK_MAXVAL : Z := 101.

Definition DUK__BP_INVALID : Z := 0.
Definition DUK__BP_EOF : Z := 2.
Definition DUK__BP_CLOSING : Z := 4.
Definition DUK__BP_FOR_EXPR : Z := DUK__BP_CLOSING.
Definition DUK__BP_COMMA : Z := 6.
Definition DUK__BP_ASSIGNMENT : Z := 8.
Definition DUK__BP_CONDITIONAL : Z := 10.
Definition DUK__BP_LOR : Z := 12.
Definition DUK__BP_LAND : Z := 14.
Definition DUK__BP_BOR : Z := 16.
Definition DUK__BP_BXOR : Z := 18.
Definition DUK__BP_BAND : Z := 20.
Definition DUK__BP_EQUALITY : Z := 22.
Definition DUK__BP_RELATIONAL : Z := 24.
Definition DUK__BP_SHIFT : Z := 26.
Definition DUK__BP_ADDITIVE : Z := 28.
Definition DUK__BP_MULTIPLICATIVE : Z := 30.
Definition DUK__BP_POSTFIX : Z := 32.
Definition DUK__BP_CALL : Z := 34.
Definition DUK__BP_MEMBER : Z := 36.

Definition DUK__TOKEN_LBP_BP_MASK : Z := 0x1f.
Definition DUK__TOKEN_LBP_FLAG_NO_REGEXP : Z := Z.shiftl 1 5.
Definition DUK__TOKEN_LBP_FLAG_TERMINATES : Z := Z.shiftl 1 6.

Definition DUK__TOKEN_LBP_GET_BP (x : Z) : Z := Z.land x DUK__TOKEN_LBP_BP_MASK * 2.
Definition DUK__MK_LBP (bp : Z) : Z := Z.shiftr bp 1.
Definition DUK__MK_LBP_FLAGS (bp flags : Z) : Z := Z.lor (Z.shiftr bp 1) flags.

Definition duk__token_lbp : list Z :=
  let inv := DUK__MK_LBP DUK__BP_INVALID in
  let inv_nr := DUK__MK_LBP_FLAGS DUK__BP_INVALID DUK__TOKEN_LBP_FLAG_NO_REGEXP in
  let clo_nr := DUK__MK_LBP_FLAGS DUK__BP_CLOSING DUK__TOKEN_LBP_FLAG_NO_REGEXP in
  let rel := DUK__MK_LBP DUK__BP_RELATIONAL in
  let eq := DUK__MK_LBP DUK__BP_EQUALITY in
  let asg := DUK__MK_LBP DUK__BP_ASSIGNMENT in
  [ DUK__MK_LBP DUK__BP_EOF  (* EOF *);
    inv (* LINETERM *); inv (* COMMENT *); inv_nr (* IDENTIFIER *);
    inv (* BREAK *); inv (* CASE *); inv (* CATCH *); inv (* CONTINUE *);
    inv (* DEBUGGER *); inv (* DEFAULT *); inv (* DELETE *); inv (* DO *);
    inv (* ELSE *); inv (* FINALLY *); inv (* FOR *); inv (* FUNCTION *);
    inv (* IF *); rel (* IN *); rel (* INSTANCEOF *); inv (* NEW *);
    inv (* RETURN *); inv (* SWITCH *); inv_nr (* THIS *); inv (* THROW *);
    inv (* TRY *); inv (* TYPEOF *); inv (* VAR *); inv (* VOID *);
    inv (* WHILE *); inv (* WITH *); inv (* CLASS *); inv (* CONST *);
    inv (* ENUM *); inv (* EXPORT *); inv (* EXTENDS *); inv (* IMPORT *);
    inv (* SUPER *); inv_nr (* NULL *); inv_nr (* TRUE *); inv_nr (* FALSE *);
    inv (* GET *); inv (* SET *); inv (* IMPLEMENTS *); inv (* INTERFACE *);
    inv (* LET *); inv (* PACKAGE *); inv (* PRIVATE *); inv (* PROTECTED *);
    inv (* PUBLIC *); inv (* STATIC *); inv (* YIELD *); inv (* LCURLY *);
    inv_nr (* RCURLY *); DUK__MK_LBP DUK__BP_MEMBER (* LBRACKET *);
    clo_nr (* RBRACKET *); DUK__MK_LBP DUK__BP_CALL (* LPAREN *);
    clo_nr (* RPAREN *); DUK__MK_LBP DUK__BP_MEMBER (* PERIOD *);
    inv (* SEMICOLON *); DUK__MK_LBP DUK__BP_COMMA (* COMMA *);
    rel (* LT *); rel (* GT *); rel (* LE *); rel (* GE *);
    eq (* EQ *); eq (* NEQ *); eq (* SEQ *); eq (* SNEQ *);
    DUK__MK_LBP DUK__BP_ADDITIVE (* ADD *); DUK__MK_LBP DUK__BP_ADDITIVE (* SUB *);
    DUK__MK_LBP DUK__BP_MULTIPLICATIVE (* MUL *);
    DUK__MK_LBP DUK__BP_MULTIPLICATIVE (* DIV *);
    DUK__MK_LBP DUK__BP_MULTIPLICATIVE (* MOD *);
    DUK__MK_LBP DUK__BP_POSTFIX (* INCREMENT *);
    DUK__MK_LBP DUK__BP_POSTFIX (* DECREMENT *);
    DUK__MK_LBP DUK__BP_SHIFT (* ALSHIFT *); DUK__MK_LBP DUK__BP_SHIFT (* ARSHIFT *);
    DUK__MK_LBP DUK__BP_SHIFT (* RSHIFT *); DUK__MK_LBP DUK__BP_BAND (* BAND *);
    DUK__MK_LBP DUK__BP_BOR (* BOR *); DUK__MK_LBP DUK__BP_BXOR (* BXOR *);
    inv (* LNOT *); inv (* BNOT *); DUK__MK_LBP DUK__BP_LAND (* LAND *);
    DUK__MK_LBP DUK__BP_LOR (* LOR *); DUK__MK_LBP DUK__BP_CONDITIONAL (* QUESTION *);
    inv (* COLON *); asg (* EQUALSIGN *); asg (* ADD_EQ *); asg (* SUB_EQ *);
    asg (* MUL_EQ *); asg (* DIV_EQ *); asg (* MOD_EQ *); asg (* ALSHIFT_EQ *);
    asg (* ARSHIFT_EQ *); asg (* RSHIFT_EQ *); asg (* BAND_EQ *); asg (* BOR_EQ *);
    asg (* BXOR_EQ *); inv_nr (* NUMBER *); inv_nr (* STRING *); inv_nr (* REGEXP *) ].

(** ** Compiler state *)

(** duk_token: the fields the compiler reads. *)
Record duk_token : Type := mk_token {
  t : Z;
  t_nores : Z;
  str1 : option duk_hstring;
  num : spec_float;
  start_offset : Z;
  start_line : Z;
  lineterm : bool;
  allow_auto_semi : bool
}.

Record duk_lexer_point : Type := mk_lexer_point {
  offset : Z;
  line : Z
}.

(** duk_lexer_ctx: the input and the position the window is filled from. *)
Record duk_lexer_ctx : Type := mk_lexer_ctx {
  input : string;
  lex_point : duk_lexer_point
}.

Definition DUK_LEXER_GETPOINT (lex : duk_lexer_ctx) : duk_lexer_point := lex_point lex.
Definition DUK_LEXER_SETPOINT (lex : duk_lexer_ctx) (pt : duk_lexer_point) : duk_lexer_ctx :=
  mk_lexer_ctx (input lex) pt.

Record duk_compiler_instr : Type := mk_instr {
  ins : duk_instr;
  instr_line : Z
}.

Record duk_labelinfo : Type := mk_labelinfo {
  li_flags : Z;
  label_id : Z;
  h_label : duk_hstring;
  li_catch_depth : Z;
  pc_label : Z
}.

(** An entry of the variable map: a register number or [null]. *)
Inductive varmap_value : Type :=
| VarReg (reg : Z)
| VarNull.

(** The function template built by duk__convert_to_func_template(): the
    'data' buffer (constants, inner functions, bytecode), the frame sizes,
    the flags set from the function state and the _varmap, _formals and name
    properties.  The _pc2line and fileName properties are left out. *)
#[local] Unset Elimination Schemes.
Inductive duk_hcompiledfunction : Type := mk_hcompiledfunction {
  tmpl_consts : list duk_primitive;
  tmpl_funcs : list duk_hcompiledfunction;
  tmpl_bytecode : list duk_instr;
  tmpl_nregs : Z;
  tmpl_nargs : Z;
  tmpl_newenv : bool;
  tmpl_createargs : bool;
  tmpl_namebinding : bool;
  tmpl_strict : bool;
  tmpl_varmap : option (gmap string varmap_value);
  tmpl_formals : list duk_hstring;
  tmpl_name : option duk_hstring
}.
#[local] Set Elimination Schemes.

(** duk_compiler_func.  [h_decls] holds the (name, type) pairs the source
    keeps at indices 2k, 2k+1 of one array; [h_funcs] the (template, lexer
    offset, line) triples kept at 3k, 3k+1, 3k+2. *)
Record duk_compiler_func : Type := mk_func {
  h_name : option duk_hstring;
  h_code : list duk_compiler_instr;
  h_consts : list duk_primitive;
  h_funcs : list (duk_hcompiledfunction * Z * Z);
  h_decls : list (duk_hstring * Z);
  h_labelinfos : list duk_labelinfo;
  h_argnames : list duk_hstring;
  h_varmap : gmap string varmap_value;
  is_function : bool;
  is_eval : bool;
  is_global : bool;
  is_setget : bool;
  is_decl : bool;
  is_strict : bool;
  is_arguments_shadowed : bool;
  needs_shuffle : bool;
  in_directive_prologue : bool;
  in_scanning : bool;
  may_direct_eval : bool;
  id_access_arguments : bool;
  id_access_slow : bool;
  reject_regexp_in_adv : bool;
  allow_in : bool;
  temp_first : Z;
  temp_next : Z;
  temp_max : Z;
  shuffle1 : Z;
  shuffle2 : Z;
  shuffle3 : Z;
  stmt_next : Z;
  label_next : Z;
  fnum_next : Z;
  catch_depth : Z;
  reg_stmt_value : Z
}.

Record duk_compiler_ctx : Type := mk_ctx {
  curr_func : duk_compiler_func;
  curr_token : duk_token;
  prev_token : duk_token;
  lex : duk_lexer_ctx;
  recursion_depth : Z;
  recursion_limit : Z
}.

(** Field updates ([f->x = v] in the source). *)
Definition set_t v tok :=
  mk_token v (t_nores tok) (str1 tok) (num tok) (start_offset tok) (start_line tok)
    (lineterm tok) (allow_auto_semi tok).
Definition set_h_name v f :=
    mk_func v (h_code f) (h_consts f) (h_funcs f) (h_decls f) (h_labelinfos f)
    (h_argnames f) (h_varmap f) (is_function f) (is_eval f) (is_global f) (is_setget f)
    (is_decl f) (is_strict f) (is_arguments_shadowed f) (needs_shuffle f)
    (in_directive_prologue f) (in_scanning f) (may_direct_eval f) (id_access_arguments
    f) (id_access_slow f) (reject_regexp_in_adv f) (allow_in f) (temp_first f)
    (temp_next f) (temp_max f) (shuffle1 f) (shuffle2 f) (shuffle3 f) (stmt_next f)
    (label_next f) (fnum_next f) (catch_depth f) (reg_stmt_value f).
Definition set_h_code v f :=
    mk_func (h_name f) v (h_consts f) (h_funcs f) (h_decls f) (h_labelinfos f)
    (h_argnames f) (h_varmap f) (is_function f) (is_eval f) (is_global f) (is_setget f)
    (is_decl f) (is_strict f) (is_arguments_shadowed f) (needs_shuffle f)
    (in_directive_prologue f) (in_scanning f) (may_direct_eval f) (id_access_arguments
    f) (id_access_slow f) (reject_regexp_in_adv f) (allow_in f) (temp_first f)
    (temp_next f) (temp_max f) (shuffle1 f) (shuffle2 f) (shuffle3 f) (stmt_next f)
    (label_next f) (fnum_next f) (catch_depth f) (reg_stmt_value f).
Definition set_h_consts v f :=
    mk_func (h_name f) (h_code f) v (h_funcs f) (h_decls f) (h_labelinfos f) (h_argnames
    f) (h_varmap f) (is_function f) (is_eval f) (is_global f) (is_setget f) (is_decl f)
    (is_strict f) (is_arguments_shadowed f) (needs_shuffle f) (in_directive_prologue f)
    (in_scanning f) (may_direct_eval f) (id_access_arguments f) (id_access_slow f)
    (reject_regexp_in_adv f) (allow_in f) (temp_first f) (temp_next f) (temp_max f)
    (shuffle1 f) (shuffle2 f) (shuffle3 f) (stmt_next f) (label_next f) (fnum_next f)
    (catch_depth f) (reg_stmt_value f).
Definition set_h_funcs v f :=
    mk_func (h_name f) (h_code f) (h_consts f) v (h_decls f) (h_labelinfos f)
    (h_argnames f) (h_varmap f) (is_function f) (is_eval f) (is_global f) (is_setget f)
    (is_decl f) (is_strict f) (is_arguments_shadowed f) (needs_shuffle f)
    (in_directive_prologue f) (in_scanning f) (may_direct_eval f) (id_access_arguments
    f) (id_access_slow f) (reject_regexp_in_adv f) (allow_in f) (temp_first f)
    (temp_next f) (temp_max f) (shuffle1 f) (shuffle2 f) (shuffle3 f) (stmt_next f)
    (label_next f) (fnum_next f) (catch_depth f) (reg_stmt_value f).
Definition set_h_decls v f :=
    mk_func (h_name f) (h_code f) (h_consts f) (h_funcs f) v (h_labelinfos f)
    (h_argnames f) (h_varmap f) (is_function f) (is_eval f) (is_global f) (is_setget f)
    (is_decl f) (is_strict f) (is_arguments_shadowed f) (needs_shuffle f)
    (in_directive_prologue f) (in_scanning f) (may_direct_eval f) (id_access_arguments
    f) (id_access_slow f) (reject_regexp_in_adv f) (allow_in f) (temp_first f)
    (temp_next f) (temp_max f) (shuffle1 f) (shuffle2 f) (shuffle3 f) (stmt_next f)
    (label_next f) (fnum_next f) (catch_depth f) (reg_stmt_value f).
Definition set_h_labelinfos v f :=
    mk_func (h_name f) (h_code f) (h_consts f) (h_funcs f) (h_decls f) v (h_argnames f)
    (h_varmap f) (is_function f) (is_eval f) (is_global f) (is_setget f) (is_decl f)
    (is_strict f) (is_arguments_shadowed f) (needs_shuffle f) (in_directive_prologue f)
    (in_scanning f) (may_direct_eval f) (id_access_arguments f) (id_access_slow f)
    (reject_regexp_in_adv f) (allow_in f) (temp_first f) (temp_next f) (temp_max f)
    (shuffle1 f) (shuffle2 f) (shuffle3 f) (stmt_next f) (label_next f) (fnum_next f)
    (catch_depth f) (reg_stmt_value f).
Definition set_h_argnames v f :=
    mk_func (h_name f) (h_code f) (h_consts f) (h_funcs f) (h_decls f) (h_labelinfos f)
    v (h_varmap f) (is_function f) (is_eval f) (is_global f) (is_setget f) (is_decl f)
    (is_strict f) (is_arguments_shadowed f) (needs_shuffle f) (in_directive_prologue f)
    (in_scanning f) (may_direct_eval f) (id_access_arguments f) (id_access_slow f)
    (reject_regexp_in_adv f) (allow_in f) (temp_first f) (temp_next f) (temp_max f)
    (shuffle1 f) (shuffle2 f) (shuffle3 f) (stmt_next f) (label_next f) (fnum_next f)
    (catch_depth f) (reg_stmt_value f).
Definition set_h_varmap v f :=
    mk_func (h_name f) (h_code f) (h_consts f) (h_funcs f) (h_decls f) (h_labelinfos f)
    (h_argnames f) v (is_function f) (is_eval f) (is_global f) (is_setget f) (is_decl f)
    (is_strict f) (is_arguments_shadowed f) (needs_shuffle f) (in_directive_prologue f)
    (in_scanning f) (may_direct_eval f) (id_access_arguments f) (id_access_slow f)
    (reject_regexp_in_adv f) (allow_in f) (temp_first f) (temp_next f) (temp_max f)
    (shuffle1 f) (shuffle2 f) (shuffle3 f) (stmt_next f) (label_next f) (fnum_next f)
    (catch_depth f) (reg_stmt_value f).
Definition set_is_function v f :=
    mk_func (h_name f) (h_code f) (h_consts f) (h_funcs f) (h_decls f) (h_labelinfos f)
    (h_argnames f) (h_varmap f) v (is_eval f) (is_global f) (is_setget f) (is_decl f)
    (is_strict f) (is_arguments_shadowed f) (needs_shuffle f) (in_directive_prologue f)
    (in_scanning f) (may_direct_eval f) (id_access_arguments f) (id_access_slow f)
    (reject_regexp_in_adv f) (allow_in f) (temp_first f) (temp_next f) (temp_max f)
    (shuffle1 f) (shuffle2 f) (shuffle3 f) (stmt_next f) (label_next f) (fnum_next f)
    (catch_depth f) (reg_stmt_value f).
Definition set_is_eval v f :=
    mk_func (h_name f) (h_code f) (h_consts f) (h_funcs f) (h_decls f) (h_labelinfos f)
    (h_argnames f) (h_varmap f) (is_function f) v (is_global f) (is_setget f) (is_decl
    f) (is_strict f) (is_arguments_shadowed f) (needs_shuffle f) (in_directive_prologue
    f) (in_scanning f) (may_direct_eval f) (id_access_arguments f) (id_access_slow f)
    (reject_regexp_in_adv f) (allow_in f) (temp_first f) (temp_next f) (temp_max f)
    (shuffle1 f) (shuffle2 f) (shuffle3 f) (stmt_next f) (label_next f) (fnum_next f)
    (catch_depth f) (reg_stmt_value f).
Definition set_is_global v f :=
    mk_func (h_name f) (h_code f) (h_consts f) (h_funcs f) (h_decls f) (h_labelinfos f)
    (h_argnames f) (h_varmap f) (is_function f) (is_eval f) v (is_setget f) (is_decl f)
    (is_strict f) (is_arguments_shadowed f) (needs_shuffle f) (in_directive_prologue f)
    (in_scanning f) (may_direct_eval f) (id_access_arguments f) (id_access_slow f)
    (reject_regexp_in_adv f) (allow_in f) (temp_first f) (temp_next f) (temp_max f)
    (shuffle1 f) (shuffle2 f) (shuffle3 f) (stmt_next f) (label_next f) (fnum_next f)
    (catch_depth f) (reg_stmt_value f).
Definition set_is_setget v f :=
    mk_func (h_name f) (h_code f) (h_consts f) (h_funcs f) (h_decls f) (h_labelinfos f)
    (h_argnames f) (h_varmap f) (is_function f) (is_eval f) (is_global f) v (is_decl f)
    (is_strict f) (is_arguments_shadowed f) (needs_shuffle f) (in_directive_prologue f)
    (in_scanning f) (may_direct_eval f) (id_access_arguments f) (id_access_slow f)
    (reject_regexp_in_adv f) (allow_in f) (temp_first f) (temp_next f) (temp_max f)
    (shuffle1 f) (shuffle2 f) (shuffle3 f) (stmt_next f) (label_next f) (fnum_next f)
    (catch_depth f) (reg_stmt_value f).
Definition set_is_decl v f :=
    mk_func (h_name f) (h_code f) (h_consts f) (h_funcs f) (h_decls f) (h_labelinfos f)
    (h_argnames f) (h_varmap f) (is_function f) (is_eval f) (is_global f) (is_setget f)
    v (is_strict f) (is_arguments_shadowed f) (needs_shuffle f) (in_directive_prologue
    f) (in_scanning f) (may_direct_eval f) (id_access_arguments f) (id_access_slow f)
    (reject_regexp_in_adv f) (allow_in f) (temp_first f) (temp_next f) (temp_max f)
    (shuffle1 f) (shuffle2 f) (shuffle3 f) (stmt_next f) (label_next f) (fnum_next f)
    (catch_depth f) (reg_stmt_value f).
Definition set_is_strict v f :=
    mk_func (h_name f) (h_code f) (h_consts f) (h_funcs f) (h_decls f) (h_labelinfos f)
    (h_argnames f) (h_varmap f) (is_function f) (is_eval f) (is_global f) (is_setget f)
    (is_decl f) v (is_arguments_shadowed f) (needs_shuffle f) (in_directive_prologue f)
    (in_scanning f) (may_direct_eval f) (id_access_arguments f) (id_access_slow f)
    (reject_regexp_in_adv f) (allow_in f) (temp_first f) (temp_next f) (temp_max f)
    (shuffle1 f) (shuffle2 f) (shuffle3 f) (stmt_next f) (label_next f) (fnum_next f)
    (catch_depth f) (reg_stmt_value f).
Definition set_is_arguments_shadowed v f :=
    mk_func (h_name f) (h_code f) (h_consts f) (h_funcs f) (h_decls f) (h_labelinfos f)
    (h_argnames f) (h_varmap f) (is_function f) (is_eval f) (is_global f) (is_setget f)
    (is_decl f) (is_strict f) v (needs_shuffle f) (in_directive_prologue f) (in_scanning
    f) (may_direct_eval f) (id_access_arguments f) (id_access_slow f)
    (reject_regexp_in_adv f) (allow_in f) (temp_first f) (temp_next f) (temp_max f)
    (shuffle1 f) (shuffle2 f) (shuffle3 f) (stmt_next f) (label_next f) (fnum_next f)
    (catch_depth f) (reg_stmt_value f).
Definition set_needs_shuffle v f :=
    mk_func (h_name f) (h_code f) (h_consts f) (h_funcs f) (h_decls f) (h_labelinfos f)
    (h_argnames f) (h_varmap f) (is_function f) (is_eval f) (is_global f) (is_setget f)
    (is_decl f) (is_strict f) (is_arguments_shadowed f) v (in_directive_prologue f)
    (in_scanning f) (may_direct_eval f) (id_access_arguments f) (id_access_slow f)
    (reject_regexp_in_adv f) (allow_in f) (temp_first f) (temp_next f) (temp_max f)
    (shuffle1 f) (shuffle2 f) (shuffle3 f) (stmt_next f) (label_next f) (fnum_next f)
    (catch_depth f) (reg_stmt_value f).
Definition set_in_directive_prologue v f :=
    mk_func (h_name f) (h_code f) (h_consts f) (h_funcs f) (h_decls f) (h_labelinfos f)
    (h_argnames f) (h_varmap f) (is_function f) (is_eval f) (is_global f) (is_setget f)
    (is_decl f) (is_strict f) (is_arguments_shadowed f) (needs_shuffle f) v (in_scanning
    f) (may_direct_eval f) (id_access_arguments f) (id_access_slow f)
    (reject_regexp_in_adv f) (allow_in f) (temp_first f) (temp_next f) (temp_max f)
    (shuffle1 f) (shuffle2 f) (shuffle3 f) (stmt_next f) (label_next f) (fnum_next f)
    (catch_depth f) (reg_stmt_value f).
Definition set_in_scanning v f :=
    mk_func (h_name f) (h_code f) (h_consts f) (h_funcs f) (h_decls f) (h_labelinfos f)
    (h_argnames f) (h_varmap f) (is_function f) (is_eval f) (is_global f) (is_setget f)
    (is_decl f) (is_strict f) (is_arguments_shadowed f) (needs_shuffle f)
    (in_directive_prologue f) v (may_direct_eval f) (id_access_arguments f)
    (id_access_slow f) (reject_regexp_in_adv f) (allow_in f) (temp_first f) (temp_next
    f) (temp_max f) (shuffle1 f) (shuffle2 f) (shuffle3 f) (stmt_next f) (label_next f)
    (fnum_next f) (catch_depth f) (reg_stmt_value f).
Definition set_may_direct_eval v f :=
    mk_func (h_name f) (h_code f) (h_consts f) (h_funcs f) (h_decls f) (h_labelinfos f)
    (h_argnames f) (h_varmap f) (is_function f) (is_eval f) (is_global f) (is_setget f)
    (is_decl f) (is_strict f) (is_arguments_shadowed f) (needs_shuffle f)
    (in_directive_prologue f) (in_scanning f) v (id_access_arguments f) (id_access_slow
    f) (reject_regexp_in_adv f) (allow_in f) (temp_first f) (temp_next f) (temp_max f)
    (shuffle1 f) (shuffle2 f) (shuffle3 f) (stmt_next f) (label_next f) (fnum_next f)
    (catch_depth f) (reg_stmt_value f).
Definition set_id_access_arguments v f :=
    mk_func (h_name f) (h_code f) (h_consts f) (h_funcs f) (h_decls f) (h_labelinfos f)
    (h_argnames f) (h_varmap f) (is_function f) (is_eval f) (is_global f) (is_setget f)
    (is_decl f) (is_strict f) (is_arguments_shadowed f) (needs_shuffle f)
    (in_directive_prologue f) (in_scanning f) (may_direct_eval f) v (id_access_slow f)
    (reject_regexp_in_adv f) (allow_in f) (temp_first f) (temp_next f) (temp_max f)
    (shuffle1 f) (shuffle2 f) (shuffle3 f) (stmt_next f) (label_next f) (fnum_next f)
    (catch_depth f) (reg_stmt_value f).
Definition set_id_access_slow v f :=
    mk_func (h_name f) (h_code f) (h_consts f) (h_funcs f) (h_decls f) (h_labelinfos f)
    (h_argnames f) (h_varmap f) (is_function f) (is_eval f) (is_global f) (is_setget f)
    (is_decl f) (is_strict f) (is_arguments_shadowed f) (needs_shuffle f)
    (in_directive_prologue f) (in_scanning f) (may_direct_eval f) (id_access_arguments
    f) v (reject_regexp_in_adv f) (allow_in f) (temp_first f) (temp_next f) (temp_max f)
    (shuffle1 f) (shuffle2 f) (shuffle3 f) (stmt_next f) (label_next f) (fnum_next f)
    (catch_depth f) (reg_stmt_value f).
Definition set_reject_regexp_in_adv v f :=
    mk_func (h_name f) (h_code f) (h_consts f) (h_funcs f) (h_decls f) (h_labelinfos f)
    (h_argnames f) (h_varmap f) (is_function f) (is_eval f) (is_global f) (is_setget f)
    (is_decl f) (is_strict f) (is_arguments_shadowed f) (needs_shuffle f)
    (in_directive_prologue f) (in_scanning f) (may_direct_eval f) (id_access_arguments
    f) (id_access_slow f) v (allow_in f) (temp_first f) (temp_next f) (temp_max f)
    (shuffle1 f) (shuffle2 f) (shuffle3 f) (stmt_next f) (label_next f) (fnum_next f)
    (catch_depth f) (reg_stmt_value f).
Definition set_allow_in v f :=
    mk_func (h_name f) (h_code f) (h_consts f) (h_funcs f) (h_decls f) (h_labelinfos f)
    (h_argnames f) (h_varmap f) (is_function f) (is_eval f) (is_global f) (is_setget f)
    (is_decl f) (is_strict f) (is_arguments_shadowed f) (needs_shuffle f)
    (in_directive_prologue f) (in_scanning f) (may_direct_eval f) (id_access_arguments
    f) (id_access_slow f) (reject_regexp_in_adv f) v (temp_first f) (temp_next f)
    (temp_max f) (shuffle1 f) (shuffle2 f) (shuffle3 f) (stmt_next f) (label_next f)
    (fnum_next f) (catch_depth f) (reg_stmt_value f).
Definition set_temp_first v f :=
    mk_func (h_name f) (h_code f) (h_consts f) (h_funcs f) (h_decls f) (h_labelinfos f)
    (h_argnames f) (h_varmap f) (is_function f) (is_eval f) (is_global f) (is_setget f)
    (is_decl f) (is_strict f) (is_arguments_shadowed f) (needs_shuffle f)
    (in_directive_prologue f) (in_scanning f) (may_direct_eval f) (id_access_arguments
    f) (id_access_slow f) (reject_regexp_in_adv f) (allow_in f) v (temp_next f)
    (temp_max f) (shuffle1 f) (shuffle2 f) (shuffle3 f) (stmt_next f) (label_next f)
    (fnum_next f) (catch_depth f) (reg_stmt_value f).
Definition set_temp_next v f :=
    mk_func (h_name f) (h_code f) (h_consts f) (h_funcs f) (h_decls f) (h_labelinfos f)
    (h_argnames f) (h_varmap f) (is_function f) (is_eval f) (is_global f) (is_setget f)
    (is_decl f) (is_strict f) (is_arguments_shadowed f) (needs_shuffle f)
    (in_directive_prologue f) (in_scanning f) (may_direct_eval f) (id_access_arguments
    f) (id_access_slow f) (reject_regexp_in_adv f) (allow_in f) (temp_first f) v
    (temp_max f) (shuffle1 f) (shuffle2 f) (shuffle3 f) (stmt_next f) (label_next f)
    (fnum_next f) (catch_depth f) (reg_stmt_value f).
Definition set_temp_max v f :=
    mk_func (h_name f) (h_code f) (h_consts f) (h_funcs f) (h_decls f) (h_labelinfos f)
    (h_argnames f) (h_varmap f) (is_function f) (is_eval f) (is_global f) (is_setget f)
    (is_decl f) (is_strict f) (is_arguments_shadowed f) (needs_shuffle f)
    (in_directive_prologue f) (in_scanning f) (may_direct_eval f) (id_access_arguments
    f) (id_access_slow f) (reject_regexp_in_adv f) (allow_in f) (temp_first f)
    (temp_next f) v (shuffle1 f) (shuffle2 f) (shuffle3 f) (stmt_next f) (label_next f)
    (fnum_next f) (catch_depth f) (reg_stmt_value f).
Definition set_shuffle1 v f :=
    mk_func (h_name f) (h_code f) (h_consts f) (h_funcs f) (h_decls f) (h_labelinfos f)
    (h_argnames f) (h_varmap f) (is_function f) (is_eval f) (is_global f) (is_setget f)
    (is_decl f) (is_strict f) (is_arguments_shadowed f) (needs_shuffle f)
    (in_directive_prologue f) (in_scanning f) (may_direct_eval f) (id_access_arguments
    f) (id_access_slow f) (reject_regexp_in_adv f) (allow_in f) (temp_first f)
    (temp_next f) (temp_max f) v (shuffle2 f) (shuffle3 f) (stmt_next f) (label_next f)
    (fnum_next f) (catch_depth f) (reg_stmt_value f).
Definition set_shuffle2 v f :=
    mk_func (h_name f) (h_code f) (h_consts f) (h_funcs f) (h_decls f) (h_labelinfos f)
    (h_argnames f) (h_varmap f) (is_function f) (is_eval f) (is_global f) (is_setget f)
    (is_decl f) (is_strict f) (is_arguments_shadowed f) (needs_shuffle f)
    (in_directive_prologue f) (in_scanning f) (may_direct_eval f) (id_access_arguments
    f) (id_access_slow f) (reject_regexp_in_adv f) (allow_in f) (temp_first f)
    (temp_next f) (temp_max f) (shuffle1 f) v (shuffle3 f) (stmt_next f) (label_next f)
    (fnum_next f) (catch_depth f) (reg_stmt_value f).
Definition set_shuffle3 v f :=
    mk_func (h_name f) (h_code f) (h_consts f) (h_funcs f) (h_decls f) (h_labelinfos f)
    (h_argnames f) (h_varmap f) (is_function f) (is_eval f) (is_global f) (is_setget f)
    (is_decl f) (is_strict f) (is_arguments_shadowed f) (needs_shuffle f)
    (in_directive_prologue f) (in_scanning f) (may_direct_eval f) (id_access_arguments
    f) (id_access_slow f) (reject_regexp_in_adv f) (allow_in f) (temp_first f)
    (temp_next f) (temp_max f) (shuffle1 f) (shuffle2 f) v (stmt_next f) (label_next f)
    (fnum_next f) (catch_depth f) (reg_stmt_value f).
Definition set_stmt_next v f :=
    mk_func (h_name f) (h_code f) (h_consts f) (h_funcs f) (h_decls f) (h_labelinfos f)
    (h_argnames f) (h_varmap f) (is_function f) (is_eval f) (is_global f) (is_setget f)
    (is_decl f) (is_strict f) (is_arguments_shadowed f) (needs_shuffle f)
    (in_directive_prologue f) (in_scanning f) (may_direct_eval f) (id_access_arguments
    f) (id_access_slow f) (reject_regexp_in_adv f) (allow_in f) (temp_first f)
    (temp_next f) (temp_max f) (shuffle1 f) (shuffle2 f) (shuffle3 f) v (label_next f)
    (fnum_next f) (catch_depth f) (reg_stmt_value f).
Definition set_label_next v f :=
    mk_func (h_name f) (h_code f) (h_consts f) (h_funcs f) (h_decls f) (h_labelinfos f)
    (h_argnames f) (h_varmap f) (is_function f) (is_eval f) (is_global f) (is_setget f)
    (is_decl f) (is_strict f) (is_arguments_shadowed f) (needs_shuffle f)
    (in_directive_prologue f) (in_scanning f) (may_direct_eval f) (id_access_arguments
    f) (id_access_slow f) (reject_regexp_in_adv f) (allow_in f) (temp_first f)
    (temp_next f) (temp_max f) (shuffle1 f) (shuffle2 f) (shuffle3 f) (stmt_next f) v
    (fnum_next f) (catch_depth f) (reg_stmt_value f).
Definition set_fnum_next v f :=
    mk_func (h_name f) (h_code f) (h_consts f) (h_funcs f) (h_decls f) (h_labelinfos f)
    (h_argnames f) (h_varmap f) (is_function f) (is_eval f) (is_global f) (is_setget f)
    (is_decl f) (is_strict f) (is_arguments_shadowed f) (needs_shuffle f)
    (in_directive_prologue f) (in_scanning f) (may_direct_eval f) (id_access_arguments
    f) (id_access_slow f) (reject_regexp_in_adv f) (allow_in f) (temp_first f)
    (temp_next f) (temp_max f) (shuffle1 f) (shuffle2 f) (shuffle3 f) (stmt_next f)
    (label_next f) v (catch_depth f) (reg_stmt_value f).
Definition set_catch_depth v f :=
    mk_func (h_name f) (h_code f) (h_consts f) (h_funcs f) (h_decls f) (h_labelinfos f)
    (h_argnames f) (h_varmap f) (is_function f) (is_eval f) (is_global f) (is_setget f)
    (is_decl f) (is_strict f) (is_arguments_shadowed f) (needs_shuffle f)
    (in_directive_prologue f) (in_scanning f) (may_direct_eval f) (id_access_arguments
    f) (id_access_slow f) (reject_regexp_in_adv f) (allow_in f) (temp_first f)
    (temp_next f) (temp_max f) (shuffle1 f) (shuffle2 f) (shuffle3 f) (stmt_next f)
    (label_next f) (fnum_next f) v (reg_stmt_value f).
Definition set_reg_stmt_value v f :=
    mk_func (h_name f) (h_code f) (h_consts f) (h_funcs f) (h_decls f) (h_labelinfos f)
    (h_argnames f) (h_varmap f) (is_function f) (is_eval f) (is_global f) (is_setget f)
    (is_decl f) (is_strict f) (is_arguments_shadowed f) (needs_shuffle f)
    (in_directive_prologue f) (in_scanning f) (may_direct_eval f) (id_access_arguments
    f) (id_access_slow f) (reject_regexp_in_adv f) (allow_in f) (temp_first f)
    (temp_next f) (temp_max f) (shuffle1 f) (shuffle2 f) (shuffle3 f) (stmt_next f)
    (label_next f) (fnum_next f) (catch_depth f) v.
Definition set_curr_func v c :=
    mk_ctx v (curr_token c) (prev_token c) (lex c) (recursion_depth c) (recursion_limit
    c).
Definition set_curr_token v c :=
    mk_ctx (curr_func c) v (prev_token c) (lex c) (recursion_depth c) (recursion_limit
    c).
Definition set_prev_token v c :=
    mk_ctx (curr_func c) (curr_token c) v (lex c) (recursion_depth c) (recursion_limit
    c).
Definition set_lex v c :=
    mk_ctx (curr_func c) (curr_token c) (prev_token c) v (recursion_depth c)
    (recursion_limit c).
Definition set_recursion_depth v c :=
    mk_ctx (curr_func c) (curr_token c) (prev_token c) (lex c) v (recursion_limit c).
Definition set_recursion_limit v c :=
    mk_ctx (curr_func c) (curr_token c) (prev_token c) (lex c) (recursion_depth c) v.

(** [comp_ctx->curr_func.x = v]. *)
Definition upd_func (g : duk_compiler_func -> duk_compiler_func)
    (comp_ctx : duk_compiler_ctx) : duk_compiler_ctx :=
  set_curr_func (g (curr_func comp_ctx)) comp_ctx.

(** ** Constants of the missing headers

    Opcode numbers, flag bits and limits come from duk_js_bytecode.h,
    duk_js_compiler.h and duk_hobject.h, which are not among the sources and
    whose values the specification does not give.  They are parameters of
    the development; what the proofs need of them is [bytecode_wf]. *)
Class duk_js_bytecode : Type := {
  DUK_OP_LDREG : Z;
  DUK_OP_STREG : Z;
  DUK_OP_LDCONST : Z;
  DUK_OP_LDINT : Z;
  DUK_OP_LDINTX : Z;
  DUK_OP_MPUTOBJ : Z;
  DUK_OP_MPUTARR : Z;
  DUK_OP_NEW : Z;
  DUK_OP_CSREG : Z;
  DUK_OP_CSVAR : Z;
  DUK_OP_CSPROP : Z;
  DUK_OP_CLOSURE : Z;
  DUK_OP_DECLVAR : Z;
  DUK_OP_JUMP : Z;
  DUK_OP_RETURN : Z;
  DUK_OP_CALL : Z;
  DUK_OP_CALLI : Z;
  DUK_OP_LABEL : Z;
  DUK_OP_ENDLABEL : Z;
  DUK_OP_BREAK : Z;
  DUK_OP_CONTINUE : Z;
  DUK_OP_EXTRA : Z;
  DUK_OP_INVALID : Z;
  DUK_EXTRAOP_INITGET : Z;
  DUK_EXTRAOP_INITSET : Z;
  DUK_EXTRAOP_LDUNDEF : Z;
  DUK_BC_CALL_FLAG_TAILCALL : Z;
  DUK_BC_RETURN_FLAG_FAST : Z;
  DUK_BC_RETURN_FLAG_HAVE_RETVAL : Z;
  DUK_BC_DECLVAR_FLAG_UNDEF_VALUE : Z;
  DUK_BC_DECLVAR_FLAG_FUNC_DECL : Z;
  DUK_PROPDESC_FLAG_WRITABLE : Z;
  DUK_PROPDESC_FLAG_ENUMERABLE : Z;
  DUK_PROPDESC_FLAG_CONFIGURABLE : Z;
  DUK_DECL_TYPE_VAR : Z;
  DUK_DECL_TYPE_FUNC : Z;
  DUK_LABEL_FLAG_ALLOW_BREAK : Z;
  DUK_LABEL_FLAG_ALLOW_CONTINUE : Z;
  DUK_COMPILER_PEEPHOLE_MAXITER : Z;
  DUK_COMPILER_RECURSION_LIMIT : Z;
  DUK_JS_COMPILE_FLAG_EVAL : Z;
  DUK_JS_COMPILE_FLAG_STRICT : Z;
  DUK_JS_COMPILE_FLAG_FUNCEXPR : Z;
  (* whether DUK_USE_FUNC_NONSTD_CALLER_PROPERTY is defined *)
  DUK_USE_FUNC_NONSTD_CALLER_PROPERTY : bool
}.

(** An opcode fits the 6-bit OP field. *)
Definition is_opcode (op : Z) : Prop := 0 <= op < 64.

(** The facts about the constants that the proofs use: the opcodes involved
    fit the OP field, RETURN is none of the opcodes the emitter turns into an
    indirect variant, JUMP and RETURN differ, and the RETURN and CALL flags
    are distinct non-zero bit masks of slot A. *)
Record bytecode_wf `{duk_js_bytecode} : Prop := {
  wf_op_jump : is_opcode DUK_OP_JUMP;
  wf_op_return : is_opcode DUK_OP_RETURN;
  wf_op_break : is_opcode DUK_OP_BREAK;
  wf_op_continue : is_opcode DUK_OP_CONTINUE;
  wf_return_not_jump : DUK_OP_RETURN <> DUK_OP_JUMP;
  wf_return_direct :
    DUK_OP_RETURN <> DUK_OP_CALL /\ DUK_OP_RETURN <> DUK_OP_NEW /\
    DUK_OP_RETURN <> DUK_OP_MPUTOBJ /\ DUK_OP_RETURN <> DUK_OP_MPUTARR /\
    DUK_OP_RETURN <> DUK_OP_EXTRA;
  wf_return_flags :
    0 < DUK_BC_RETURN_FLAG_FAST <= 0xff /\
    0 < DUK_BC_RETURN_FLAG_HAVE_RETVAL <= 0xff /\
    Z.lor DUK_BC_RETURN_FLAG_HAVE_RETVAL DUK_BC_RETURN_FLAG_FAST <= 0xff /\
    Z.land DUK_BC_RETURN_FLAG_HAVE_RETVAL DUK_BC_RETURN_FLAG_FAST = 0;
  wf_tailcall_flag : 0 < DUK_BC_CALL_FLAG_TAILCALL <= 0xff
}.

(** Code emission flags, passed in the 'opcode' field. *)
Definition DUK__EMIT_FLAG_NO_SHUFFLE_A : Z := Z.shiftl 1 8.
Definition DUK__EMIT_FLAG_NO_SHUFFLE_B : Z := Z.shiftl 1 9.
Definition DUK__EMIT_FLAG_NO_SHUFFLE_C : Z := Z.shiftl 1 10.
Definition DUK__EMIT_FLAG_A_IS_SOURCE : Z := Z.shiftl 1 11.
Definition DUK__EMIT_FLAG_B_IS_TARGET : Z := Z.shiftl 1 12.
Definition DUK__EMIT_FLAG_C_IS_TARGET : Z := Z.shiftl 1 13.

Definition DUK__EXPR_RBP_MASK : Z := 0xff.
Definition DUK__EXPR_FLAG_REJECT_IN : Z := Z.shiftl 1 8.
Definition DUK__EXPR_FLAG_ALLOW_EMPTY : Z := Z.shiftl 1 9.

Definition error_outofregs {A : Type} : outcome A :=
  DUK_ERROR DUK_ERR_RANGE_ERROR "out of regs".

(** A buffer cell by C index: defined inside the buffer only. *)
Definition buf_get {A : Type} (buf : list A) (i : Z) : option A :=
  if i <? 0 then None else buf !! Z.to_nat i.

Section Emit.
Context `{duk_js_bytecode}.

(** *** Code emission helpers *)

Definition duk__get_current_pc (comp_ctx : duk_compiler_ctx) : Z :=
  Z.of_nat (length (h_code (curr_func comp_ctx))).

Definition duk__get_instr_ptr (comp_ctx : duk_compiler_ctx) (pc : Z)
    : outcome duk_compiler_instr :=
  match buf_get (h_code (curr_func comp_ctx)) pc with
  | Some instr => Ok instr
  | None => Undef
  end.

Definition duk__emit (comp_ctx : duk_compiler_ctx) (ins : Z) : duk_compiler_ctx :=
  let line := start_line (curr_token comp_ctx) in
  let instr := mk_instr (wrap32 ins) line in
  upd_func (fun f => set_h_code (h_code f ++ [instr]) f) comp_ctx.

Definition duk__emit_a_bc (comp_ctx : duk_compiler_ctx) (op_flags a bc : Z)
    : outcome duk_compiler_ctx :=
  let bc := Z.land bc (Z.lnot DUK__CONST_MARKER) in
  if negb (bc <=? DUK_BC_BC_MAX) then error_outofregs
  else if a <=? DUK_BC_A_MAX then
    Ok (duk__emit comp_ctx (DUK_ENC_OP_A_BC (Z.land op_flags 0xff) a bc))
  else if has_flag op_flags DUK__EMIT_FLAG_NO_SHUFFLE_A then error_outofregs
  else if a <=? DUK_BC_BC_MAX then
    let comp_ctx := upd_func (set_needs_shuffle true) comp_ctx in
    let tmp := shuffle1 (curr_func comp_ctx) in
    let ins := DUK_ENC_OP_A_BC (Z.land op_flags 0xff) tmp bc in
    if has_flag op_flags DUK__EMIT_FLAG_A_IS_SOURCE then
      let comp_ctx := duk__emit comp_ctx (DUK_ENC_OP_A_BC DUK_OP_LDREG tmp a) in
      Ok (duk__emit comp_ctx ins)
    else
      let comp_ctx := duk__emit comp_ctx ins in
      Ok (duk__emit comp_ctx (DUK_ENC_OP_A_BC DUK_OP_STREG tmp a))
  else error_outofregs.

Definition duk__emit_abc (comp_ctx : duk_compiler_ctx) (op abc : Z) : duk_compiler_ctx :=
  duk__emit comp_ctx (DUK_ENC_OP_ABC op abc).

Definition duk__emit_extraop_bc (comp_ctx : duk_compiler_ctx) (extraop bc : Z)
    : outcome duk_compiler_ctx :=
  duk__emit_a_bc comp_ctx DUK_OP_EXTRA extraop bc.

Definition duk__emit_loadint (comp_ctx : duk_compiler_ctx) (reg val : Z)
    : outcome duk_compiler_ctx :=
  if (DUK_BC_BC_MIN - DUK_BC_LDINT_BIAS <=? val) &&
     (val <=? DUK_BC_BC_MAX - DUK_BC_LDINT_BIAS) then
    duk__emit_a_bc comp_ctx DUK_OP_LDINT reg (val + DUK_BC_LDINT_BIAS)
  else
    let hi := Z.shiftr val DUK_BC_LDINTX_SHIFT in
    let lo := Z.land val (Z.shiftl 1 DUK_BC_LDINTX_SHIFT - 1) in
    let* comp_ctx := duk__emit_a_bc comp_ctx DUK_OP_LDINT reg (hi + DUK_BC_LDINT_BIAS) in
    duk__emit_a_bc comp_ctx DUK_OP_LDINTX reg lo.

(** Slot A of duk__emit_a_b_c(): the context, [op_flags], [a] and [a_out]
    after the slot has been handled. *)
Definition duk__emit_slot_a (comp_ctx : duk_compiler_ctx) (op_flags a : Z)
    : outcome (duk_compiler_ctx * Z * Z * Z) :=
  if a <=? DUK_BC_A_MAX then Ok (comp_ctx, op_flags, a, 0)
  else if has_flag op_flags DUK__EMIT_FLAG_NO_SHUFFLE_A then error_outofregs
  else if a <=? DUK_BC_BC_MAX then
    let comp_ctx := upd_func (set_needs_shuffle true) comp_ctx in
    let tmp := shuffle1 (curr_func comp_ctx) in
    if has_flag op_flags DUK__EMIT_FLAG_A_IS_SOURCE then
      Ok (duk__emit comp_ctx (DUK_ENC_OP_A_BC DUK_OP_LDREG tmp a), op_flags, tmp, 0)
    else
      let op := Z.land op_flags 0xff in
      if (op =? DUK_OP_CSVAR) || (op =? DUK_OP_CSREG) || (op =? DUK_OP_CSPROP) then
        let* comp_ctx := duk__emit_loadint comp_ctx tmp a in
        Ok (comp_ctx, op_flags + 1, tmp, 0)
      else Ok (comp_ctx, op_flags, tmp, a)
  else error_outofregs.

(** Slot B: the context, [op_flags], [ins], [b] and [b_out] afterwards. *)
Definition duk__emit_slot_b (comp_ctx : duk_compiler_ctx) (op_flags ins b : Z)
    : outcome (duk_compiler_ctx * Z * Z * Z * Z) :=
  if has_flag b DUK__CONST_MARKER then
    let b := Z.land b (Z.lnot DUK__CONST_MARKER) in
    if b <=? 0xff then
      Ok (comp_ctx, op_flags, Z.lor ins (DUK_ENC_OP_A_B_C 0 0 0x100 0), b, 0)
    else if b <=? DUK_BC_BC_MAX then
      let comp_ctx := upd_func (set_needs_shuffle true) comp_ctx in
      let tmp := shuffle2 (curr_func comp_ctx) in
      Ok (duk__emit comp_ctx (DUK_ENC_OP_A_BC DUK_OP_LDCONST tmp b), op_flags, ins, tmp, 0)
    else error_outofregs
  else if b <=? 0xff then Ok (comp_ctx, op_flags, ins, b, 0)
  else if has_flag op_flags DUK__EMIT_FLAG_NO_SHUFFLE_B then
    if b >? DUK_BC_B_MAX then error_outofregs
    else Ok (comp_ctx, op_flags, ins, b, 0)
  else if b <=? DUK_BC_BC_MAX then
    let comp_ctx := upd_func (set_needs_shuffle true) comp_ctx in
    let tmp := shuffle2 (curr_func comp_ctx) in
    if has_flag op_flags DUK__EMIT_FLAG_B_IS_TARGET then
      Ok (comp_ctx, op_flags, ins, tmp, b)
    else
      let op := Z.land op_flags 0xff in
      if (op =? DUK_OP_CALL) || (op =? DUK_OP_NEW) ||
         (op =? DUK_OP_MPUTOBJ) || (op =? DUK_OP_MPUTARR) then
        let* comp_ctx := duk__emit_loadint comp_ctx tmp b in
        Ok (comp_ctx, op_flags + 1, ins, tmp, 0)
      else
        Ok (duk__emit comp_ctx (DUK_ENC_OP_A_BC DUK_OP_LDREG tmp b), op_flags, ins, tmp, 0)
  else error_outofregs.

(** Slot C: the context, [a] (bumped to the indirect extra-op), [ins], [c]
    and [c_out] afterwards. *)
Definition duk__emit_slot_c (comp_ctx : duk_compiler_ctx) (op_flags ins a c : Z)
    : outcome (duk_compiler_ctx * Z * Z * Z * Z) :=
  if has_flag c DUK__CONST_MARKER then
    let c := Z.land c (Z.lnot DUK__CONST_MARKER) in
    if c <=? 0xff then
      Ok (comp_ctx, a, Z.lor ins (DUK_ENC_OP_A_B_C 0 0 0 0x100), c, 0)
    else if c <=? DUK_BC_BC_MAX then
      let comp_ctx := upd_func (set_needs_shuffle true) comp_ctx in
      let tmp := shuffle3 (curr_func comp_ctx) in
      Ok (duk__emit comp_ctx (DUK_ENC_OP_A_BC DUK_OP_LDCONST tmp c), a, ins, tmp, 0)
    else error_outofregs
  else if c <=? 0xff then Ok (comp_ctx, a, ins, c, 0)
  else if has_flag op_flags DUK__EMIT_FLAG_NO_SHUFFLE_C then
    if c >? DUK_BC_C_MAX then error_outofregs
    else Ok (comp_ctx, a, ins, c, 0)
  else if c <=? DUK_BC_BC_MAX then
    let comp_ctx := upd_func (set_needs_shuffle true) comp_ctx in
    let tmp := shuffle3 (curr_func comp_ctx) in
    if has_flag op_flags DUK__EMIT_FLAG_C_IS_TARGET then
      Ok (comp_ctx, a, ins, tmp, c)
    else
      let op := Z.land op_flags 0xff in
      if (op =? DUK_OP_EXTRA) &&
         ((a =? DUK_EXTRAOP_INITGET) || (a =? DUK_EXTRAOP_INITSET)) then
        let* comp_ctx := duk__emit_loadint comp_ctx tmp c in
        Ok (comp_ctx, a + 1, ins, tmp, 0)
      else
        Ok (duk__emit comp_ctx (DUK_ENC_OP_A_BC DUK_OP_LDREG tmp c), a, ins, tmp, 0)
  else error_outofregs.

Definition duk__emit_a_b_c (comp_ctx : duk_compiler_ctx) (op_flags a b c : Z)
    : outcome duk_compiler_ctx :=
  let ins := 0 in
  let* (comp_ctx, op_flags, a, a_out) := duk__emit_slot_a comp_ctx op_flags a in
  let* (comp_ctx, op_flags, ins, b, b_out) := duk__emit_slot_b comp_ctx op_flags ins b in
  let* (comp_ctx, a, ins, c, c_out) := duk__emit_slot_c comp_ctx op_flags ins a c in
  (* Main operation *)
  let ins := Z.lor ins (DUK_ENC_OP_A_B_C (Z.land op_flags 0xff) a b c) in
  let comp_ctx := duk__emit comp_ctx ins in
  (* Output shuffling *)
  if negb (a_out =? 0) then
    Ok (duk__emit comp_ctx (DUK_ENC_OP_A_BC DUK_OP_STREG a a_out))
  else if negb (b_out =? 0) then
    Ok (duk__emit comp_ctx (DUK_ENC_OP_A_BC DUK_OP_STREG b b_out))
  else if negb (c_out =? 0) then
    Ok (duk__emit comp_ctx (DUK_ENC_OP_A_BC DUK_OP_STREG c c_out))
  else Ok comp_ctx.

Definition duk__emit_a_b (comp_ctx : duk_compiler_ctx) (op_flags a b : Z)
    : outcome duk_compiler_ctx :=
  duk__emit_a_b_c comp_ctx op_flags a b 0.

Definition duk__emit_jump (comp_ctx : duk_compiler_ctx) (target_pc : Z) : duk_compiler_ctx :=
  let curr_pc := Z.of_nat (length (h_code (curr_func comp_ctx))) in
  let offset := target_pc - curr_pc - 1 in
  duk__emit_abc comp_ctx DUK_OP_JUMP (offset + DUK_BC_JUMP_BIAS).

Definition duk__emit_jump_empty (comp_ctx : duk_compiler_ctx) : Z * duk_compiler_ctx :=
  let ret := duk__get_current_pc comp_ctx in
  (ret, duk__emit_abc comp_ctx DUK_OP_JUMP 0).

Definition duk__patch_jump (comp_ctx : duk_compiler_ctx) (jump_pc target_pc : Z)
    : outcome duk_compiler_ctx :=
  if jump_pc <? 0 then Ok comp_ctx
  else
    let* instr := duk__get_instr_ptr comp_ctx jump_pc in
    let offset := target_pc - jump_pc - 1 in
    let instr' := mk_instr (wrap32 (DUK_ENC_OP_ABC DUK_OP_JUMP (offset + DUK_BC_JUMP_BIAS)))
                           (instr_line instr) in
    Ok (upd_func (fun f => set_h_code (<[Z.to_nat jump_pc := instr']> (h_code f)) f) comp_ctx).

Definition duk__patch_jump_here (comp_ctx : duk_compiler_ctx) (jump_pc : Z)
    : outcome duk_compiler_ctx :=
  duk__patch_jump comp_ctx jump_pc (duk__get_current_pc comp_ctx).

Definition duk__emit_invalid (comp_ctx : duk_compiler_ctx) : duk_compiler_ctx :=
  duk__emit_abc comp_ctx DUK_OP_INVALID 0.

End Emit.

Section Compiler.
Context `{duk_js_bytecode}.

(** *** Peephole optimizer for finished bytecode *)

(** The PC a JUMP at [pc] transfers to. *)
Definition jump_target (pc : Z) (ins : duk_instr) : Z :=
  pc + 1 + DUK_DEC_ABC ins - DUK_BC_JUMP_BIAS.

(** Body of the inner loop at index [i]: the code after the step and whether
    [count_opt] was incremented. *)
Definition duk__peephole_step (bc : list duk_compiler_instr) (i : nat)
    : outcome (list duk_compiler_instr * Z) :=
  match bc !! i with
  | None => Undef
  | Some instr =>
    let w := ins instr in
    if negb (DUK_DEC_OP w =? DUK_OP_JUMP) then Ok (bc, 0)
    else
      let target_pc1 := Z.of_nat i + 1 + DUK_DEC_ABC w - DUK_BC_JUMP_BIAS in
      match buf_get bc target_pc1 with
      | None => Undef
      | Some instr1 =>
        let w1 := ins instr1 in
        if negb (DUK_DEC_OP w1 =? DUK_OP_JUMP) then Ok (bc, 0)
        else
          let target_pc2 := target_pc1 + 1 + DUK_DEC_ABC w1 - DUK_BC_JUMP_BIAS in
          let w' :=
            wrap32 (DUK_ENC_OP_ABC DUK_OP_JUMP
                      (target_pc2 - (Z.of_nat i + 1) + DUK_BC_JUMP_BIAS)) in
          Ok (<[i := mk_instr w' (instr_line instr)]> bc, 1)
      end
  end.

(** [for (i = ...; i < n; i++)]: [k] is the number of indices left. *)
Fixpoint duk__peephole_inner (k : nat) (i : nat) (bc : list duk_compiler_instr)
    (count_opt : Z) : outcome (list duk_compiler_instr * Z) :=
  match k with
  | O => Ok (bc, count_opt)
  | S k' =>
    let* (bc', d) := duk__peephole_step bc i in
    duk__peephole_inner k' (S i) bc' (count_opt + d)
  end.

Definition duk__peephole_pass (bc : list duk_compiler_instr)
    : outcome (list duk_compiler_instr * Z) :=
  duk__peephole_inner (length bc) 0 bc 0.

(** [for (iter = ...; iter < DUK_COMPILER_PEEPHOLE_MAXITER; iter++)] with
    [iters] iterations left; the boolean tells whether the loop was left
    through [if (count_opt == 0) break]. *)
Fixpoint duk__peephole_outer (iters : nat) (bc : list duk_compiler_instr)
    : outcome (list duk_compiler_instr * bool) :=
  match iters with
  | O => Ok (bc, false)
  | S iters' =>
    let* (bc', count_opt) := duk__peephole_pass bc in
    if count_opt =? 0 then Ok (bc', true)
    else duk__peephole_outer iters' bc'
  end.

Definition duk__peephole_optimize_bytecode (comp_ctx : duk_compiler_ctx)
    : outcome duk_compiler_ctx :=
  let* (bc, _) := duk__peephole_outer (Z.to_nat DUK_COMPILER_PEEPHOLE_MAXITER)
                    (h_code (curr_func comp_ctx)) in
  Ok (upd_func (set_h_code bc) comp_ctx).

(** *** Intermediate value helpers *)

Definition duk__alloctemps (comp_ctx : duk_compiler_ctx) (num : Z)
    : outcome (Z * duk_compiler_ctx) :=
  let res := temp_next (curr_func comp_ctx) in
  let comp_ctx := upd_func (fun f => set_temp_next (temp_next f + num) f) comp_ctx in
  if temp_next (curr_func comp_ctx) >? DUK__MAX_TEMPS then
    DUK_ERROR DUK_ERR_INTERNAL_ERROR "out of temps"
  else
    let comp_ctx :=
      if temp_next (curr_func comp_ctx) >? temp_max (curr_func comp_ctx)
      then upd_func (fun f => set_temp_max (temp_next f) f) comp_ctx
      else comp_ctx in
    Ok (res, comp_ctx).

Definition duk__alloctemp (comp_ctx : duk_compiler_ctx) : outcome (Z * duk_compiler_ctx) :=
  duk__alloctemps comp_ctx 1.

Definition duk__settemp_checkmax (comp_ctx : duk_compiler_ctx) (temp_next : Z)
    : duk_compiler_ctx :=
  let comp_ctx := upd_func (set_temp_next temp_next) comp_ctx in
  if temp_next >? temp_max (curr_func comp_ctx)
  then upd_func (set_temp_max temp_next) comp_ctx
  else comp_ctx.

(** The scan [for (i = 0; i < n_check; i++)] of duk__getconst(), from index
    [i] with [k] indices left: the index of the first entry that is
    SameValue to [tv1]. *)
Fixpoint duk__getconst_scan (tv1 : duk_primitive) (consts : list duk_primitive)
    (k : nat) (i : nat) : option nat :=
  match k with
  | O => None
  | S k' =>
    match consts !! i with
    | Some tv2 =>
      if duk_js_samevalue tv1 tv2 then Some i
      else duk__getconst_scan tv1 consts k' (S i)
    | None => None
    end
  end.

(** duk__getconst(): [tv1] is the value at the value stack top.
    duk_put_prop_index() at index [n], the length of the array, appends. *)
Definition duk__getconst (comp_ctx : duk_compiler_ctx) (tv1 : duk_primitive)
    : outcome (Z * duk_compiler_ctx) :=
  let f := curr_func comp_ctx in
  let n := Z.of_nat (length (h_consts f)) in
  let n_check :=
    if n >? DUK__GETCONST_MAX_CONSTS_CHECK then DUK__GETCONST_MAX_CONSTS_CHECK else n in
  match duk__getconst_scan tv1 (h_consts f) (Z.to_nat n_check) 0 with
  | Some i => Ok (Z.lor (Z.of_nat i) DUK__CONST_MARKER, comp_ctx)
  | None =>
    if n >=? DUK__MAX_CONSTS then DUK_ERROR DUK_ERR_INTERNAL_ERROR "out of consts"
    else
      Ok (Z.lor n DUK__CONST_MARKER,
          upd_func (fun f => set_h_consts (h_consts f ++ [tv1]) f) comp_ctx)
  end.

(** *** Label handling *)

(** The loop of duk__lookup_active_label(): [li] is the pointer as an index
    into the label table ([li > li_start] is [li > 0]); the result is the
    index of the matching entry, if any. *)
Fixpoint duk__lookup_active_label_loop (infos : list duk_labelinfo)
    (h : duk_hstring) (is_break : bool) (li : nat) : outcome (option nat) :=
  match li with
  | O => Ok None
  | S li' =>
    match infos !! li' with
    | None => Undef
    | Some info =>
      if negb (String.eqb (h_label info) h) then
        duk__lookup_active_label_loop infos h is_break li'
      else if is_break then Ok (Some li')
      else if has_flag (li_flags info) DUK_LABEL_FLAG_ALLOW_CONTINUE then Ok (Some li')
      else if negb (String.eqb h EmptyString) then
        DUK_ERROR DUK_ERR_SYNTAX_ERROR "continue label matches an invalid statement type"
      else duk__lookup_active_label_loop infos h is_break li'
    end
  end.

(** Returns (out_label_id, out_label_catch_depth, out_label_pc,
    out_is_closest). *)
Definition duk__lookup_active_label (comp_ctx : duk_compiler_ctx) (h : duk_hstring)
    (is_break : bool) : outcome (Z * Z * Z * bool) :=
  let infos := h_labelinfos (curr_func comp_ctx) in
  let li_end := length infos in
  let* found := duk__lookup_active_label_loop infos h is_break li_end in
  match found with
  | None => DUK_ERROR DUK_ERR_SYNTAX_ERROR "cannot resolve label"
  | Some li =>
    match infos !! li with
    | None => Undef
    | Some info =>
      Ok (label_id info, li_catch_depth info, pc_label info,
          bool_decide (li = (li_end - 1)%nat))
    end
  end.

(** *** Expression parsing: left binding power *)

Definition duk__expr_lbp (comp_ctx : duk_compiler_ctx) : outcome Z :=
  let tok := t (curr_token comp_ctx) in
  if (tok =? DUK_TOK_IN) && negb (allow_in (curr_func comp_ctx)) then Ok 0
  else if ((tok =? DUK_TOK_DECREMENT) || (tok =? DUK_TOK_INCREMENT)) &&
          lineterm (curr_token comp_ctx) then Ok 0
  else
    match buf_get duk__token_lbp tok with
    | Some x => Ok (DUK__TOKEN_LBP_GET_BP x)
    | None => Undef
    end.

(** *** Lexing *)

(** The lexer (duk_lexer.c) is a collaborator of the compiler: it fills a
    token from the lexer state, the strictness and the "regexp allowed"
    bit, or throws. *)
Variable duk_lexer_parse_js_input_element :
  duk_lexer_ctx -> bool -> bool -> outcome (duk_lexer_ctx * duk_token).

(** [expect < 0]: any token. *)
Definition duk__advance_helper (comp_ctx : duk_compiler_ctx) (expect : Z)
    : outcome duk_compiler_ctx :=
  match buf_get duk__token_lbp (t (curr_token comp_ctx)) with
  | None => Undef
  | Some lbp =>
    let regexp := negb (has_flag lbp DUK__TOKEN_LBP_FLAG_NO_REGEXP) in
    let '(comp_ctx, regexp) :=
      if reject_regexp_in_adv (curr_func comp_ctx)
      then (upd_func (set_reject_regexp_in_adv false) comp_ctx, false)
      else (comp_ctx, regexp) in
    if (expect >=? 0) && negb (t (curr_token comp_ctx) =? expect) then
      DUK_ERROR DUK_ERR_SYNTAX_ERROR "parse error"
    else
      let comp_ctx := set_prev_token (curr_token comp_ctx) comp_ctx in
      let* (lex', tok) :=
        duk_lexer_parse_js_input_element (lex comp_ctx)
          (is_strict (curr_func comp_ctx)) regexp in
      Ok (set_curr_token tok (set_lex lex' comp_ctx))
  end.

Definition duk__advance_expect (comp_ctx : duk_compiler_ctx) (expect : Z)
    : outcome duk_compiler_ctx :=
  duk__advance_helper comp_ctx expect.

Definition duk__advance (comp_ctx : duk_compiler_ctx) : outcome duk_compiler_ctx :=
  duk__advance_helper comp_ctx (-1).

(** *** Misc helpers *)

Definition duk__recursion_increase (comp_ctx : duk_compiler_ctx)
    : outcome duk_compiler_ctx :=
  if recursion_depth comp_ctx >=? recursion_limit comp_ctx then
    DUK_ERROR DUK_ERR_RANGE_ERROR "compiler recursion limit"
  else Ok (set_recursion_depth (recursion_depth comp_ctx + 1) comp_ctx).

Definition duk__recursion_decrease (comp_ctx : duk_compiler_ctx) : duk_compiler_ctx :=
  set_recursion_depth (recursion_depth comp_ctx - 1) comp_ctx.

(** Modelled from the spec: the string flags DUK_HSTRING_HAS_EVAL_OR_ARGUMENTS
    and DUK_HSTRING_HAS_STRICT_RESERVED_WORD (duk_hstring.h, set when a
    string is interned) are not among the sources.  Section 4.6, step 1:
    "Strict mode also rejects eval/arguments as formal names and any
    strict-reserved word"; the strict-mode reserved words are those of
    ES5 7.6.1.2, which the token table lists from IMPLEMENTS to YIELD. *)
Definition DUK_HSTRING_HAS_EVAL_OR_ARGUMENTS (h : duk_hstring) : bool :=
  String.eqb h "eval" || String.eqb h "arguments".

Definition strict_reserved_words : list string :=
  ["implements"; "interface"; "let"; "package"; "private"; "protected";
   "public"; "static"; "yield"].

Definition DUK_HSTRING_HAS_STRICT_RESERVED_WORD (h : duk_hstring) : bool :=
  existsb (String.eqb h) strict_reserved_words.

Definition duk__hstring_is_eval_or_arguments (comp_ctx : duk_compiler_ctx)
    (h : duk_hstring) : bool :=
  DUK_HSTRING_HAS_EVAL_OR_ARGUMENTS h.

(** *** Expression parsing *)

(** The null and left denotation handlers and the top-level expression
    entry point used by the statement parsers are the bulk of the expression
    parser; the statement-level functions below only rely on their
    signature: a context in, a context (and a register or constant) out. *)
Variable duk__expr_nud : duk_compiler_ctx -> outcome duk_compiler_ctx.
Variable duk__expr_led : duk_compiler_ctx -> outcome duk_compiler_ctx.
Variable duk__exprtop_toregconst :
  duk_compiler_ctx -> Z -> outcome (Z * duk_compiler_ctx).

(** [while (rbp < duk__expr_lbp(comp_ctx)) { advance; led; copy }] of
    duk__expr(), unrolled at most [fuel] times. *)
Fixpoint duk__expr_led_loop (fuel : nat) (comp_ctx : duk_compiler_ctx) (rbp : Z)
    : outcome duk_compiler_ctx :=
  let* lbp := duk__expr_lbp comp_ctx in
  if rbp <? lbp then
    match fuel with
    | O => OutOfFuel
    | S fuel' =>
      let* comp_ctx := duk__advance comp_ctx in
      let* comp_ctx := duk__expr_led comp_ctx in
      duk__expr_led_loop fuel' comp_ctx rbp
    end
  else Ok comp_ctx.

(** *** Statement parsing *)

Definition duk__parse_break_or_continue_stmt (comp_ctx : duk_compiler_ctx)
    : outcome duk_compiler_ctx :=
  let is_break := t (curr_token comp_ctx) =? DUK_TOK_BREAK in
  let* comp_ctx := duk__advance comp_ctx in
  let* (label_id, label_catch_depth, label_pc, label_is_closest, comp_ctx) :=
    if (t (curr_token comp_ctx) =? DUK_TOK_SEMICOLON) ||
       lineterm (curr_token comp_ctx) ||
       allow_auto_semi (curr_token comp_ctx) then
      let* (id, cd, pc, closest) := duk__lookup_active_label comp_ctx EmptyString is_break in
      Ok (id, cd, pc, closest, comp_ctx)
    else if t (curr_token comp_ctx) =? DUK_TOK_IDENTIFIER then
      match str1 (curr_token comp_ctx) with
      | None => Undef
      | Some h =>
        let* (id, cd, pc, closest) := duk__lookup_active_label comp_ctx h is_break in
        let* comp_ctx := duk__advance comp_ctx in
        Ok (id, cd, pc, closest, comp_ctx)
      end
    else DUK_ERROR DUK_ERR_SYNTAX_ERROR "invalid break/continue label" in
  if (label_catch_depth =? catch_depth (curr_func comp_ctx)) && label_is_closest then
    Ok (duk__emit_jump comp_ctx (label_pc + (if is_break then 1 else 2)))
  else
    Ok (duk__emit_abc comp_ctx
          (if is_break then DUK_OP_BREAK else DUK_OP_CONTINUE) label_id).

Definition duk__parse_return_stmt (comp_ctx : duk_compiler_ctx)
    : outcome duk_compiler_ctx :=
  let* comp_ctx := duk__advance comp_ctx in
  if negb (is_function (curr_func comp_ctx)) then
    DUK_ERROR DUK_ERR_SYNTAX_ERROR "invalid return"
  else
    let ret_flags := 0 in
    (* [inl c]: the 'return' inside the tail call check; [inr]: fall through *)
    let* r :=
      if (t (curr_token comp_ctx) =? DUK_TOK_SEMICOLON) ||
         lineterm (curr_token comp_ctx) ||
         allow_auto_semi (curr_token comp_ctx) then
        Ok (inr (comp_ctx, 0, ret_flags))
      else
        let pc_before_expr := duk__get_current_pc comp_ctx in
        let* (reg_val, comp_ctx) := duk__exprtop_toregconst comp_ctx DUK__BP_FOR_EXPR in
        let pc_after_expr := duk__get_current_pc comp_ctx in
        let fallthrough := Ok (inr (comp_ctx, reg_val, DUK_BC_RETURN_FLAG_HAVE_RETVAL)) in
        if negb DUK_USE_FUNC_NONSTD_CALLER_PROPERTY &&
           (catch_depth (curr_func comp_ctx) =? 0) &&
           (pc_after_expr >? pc_before_expr) then
          let* instr := duk__get_instr_ptr comp_ctx (pc_after_expr - 1) in
          let op := DUK_DEC_OP (ins instr) in
          if (op =? DUK_OP_CALL) || (op =? DUK_OP_CALLI) then
            let instr' :=
              mk_instr
                (wrap32 (Z.lor (ins instr)
                           (DUK_ENC_OP_A_B_C 0 DUK_BC_CALL_FLAG_TAILCALL 0 0)))
                (instr_line instr) in
            Ok (inl (upd_func
                       (fun f => set_h_code
                                   (<[Z.to_nat (pc_after_expr - 1) := instr']> (h_code f)) f)
                       comp_ctx))
          else fallthrough
        else fallthrough in
    match r with
    | inl comp_ctx => Ok comp_ctx
    | inr (comp_ctx, reg_val, ret_flags) =>
      let ret_flags :=
        if catch_depth (curr_func comp_ctx) =? 0
        then Z.lor ret_flags DUK_BC_RETURN_FLAG_FAST
        else ret_flags in
      duk__emit_a_b comp_ctx DUK_OP_RETURN ret_flags reg_val
    end.

(** *** Function prologue (pass 2 entry) *)

Definition error_argname {A : Type} : outcome A :=
  DUK_ERROR DUK_ERR_SYNTAX_ERROR "invalid arg name".

(** duk_has_prop() / duk_put_prop() on the variable map. *)
Definition varmap_has (comp_ctx : duk_compiler_ctx) (name : duk_hstring) : bool :=
  bool_decide (is_Some (h_varmap (curr_func comp_ctx) !! name)).

Definition varmap_put (name : duk_hstring) (v : varmap_value)
    (comp_ctx : duk_compiler_ctx) : duk_compiler_ctx :=
  upd_func (fun f => set_h_varmap (<[name := v]> (h_varmap f)) f) comp_ctx.

(** duk_to_int() of a variable map entry ([null] coerces to 0). *)
Definition varmap_to_int (v : option varmap_value) : Z :=
  match v with
  | Some (VarReg r) => r
  | _ => 0
  end.

(** [for (i = 0; i < num_args; i++)] over the formal argument names, from
    index [i] on. *)
Fixpoint duk__prologue_formals (comp_ctx : duk_compiler_ctx)
    (argnames : list duk_hstring) (i : Z) : outcome duk_compiler_ctx :=
  match argnames with
  | [] => Ok comp_ctx
  | h_name :: rest =>
    if is_strict (curr_func comp_ctx) &&
       duk__hstring_is_eval_or_arguments comp_ctx h_name then error_argname
    else if is_strict (curr_func comp_ctx) && varmap_has comp_ctx h_name then
      error_argname
    else if is_strict (curr_func comp_ctx) &&
            DUK_HSTRING_HAS_STRICT_RESERVED_WORD h_name then error_argname
    else
      duk__prologue_formals (varmap_put h_name (VarReg i) comp_ctx) rest (i + 1)
  end.

(** [for (i = 0; i < num_decls; i += 2)], function declarations. *)
Fixpoint duk__prologue_func_decls (comp_ctx : duk_compiler_ctx)
    (decls : list (duk_hstring * Z)) (configurable_bindings : bool)
    : outcome duk_compiler_ctx :=
  match decls with
  | [] => Ok comp_ctx
  | (name, decl_type) :: rest =>
    let fnum := Z.shiftr decl_type 8 in
    let decl_type := Z.land decl_type 0xff in
    if negb (decl_type =? DUK_DECL_TYPE_FUNC) then
      duk__prologue_func_decls comp_ctx rest configurable_bindings
    else
      let* comp_ctx :=
        if is_function (curr_func comp_ctx) then
          if varmap_has comp_ctx name then
            let reg_bind := varmap_to_int (h_varmap (curr_func comp_ctx) !! name) in
            let* comp_ctx := duk__emit_a_bc comp_ctx DUK_OP_CLOSURE reg_bind fnum in
            Ok (varmap_put name (VarReg reg_bind) comp_ctx)
          else
            let* (reg_bind, comp_ctx) := duk__alloctemp comp_ctx in
            let* comp_ctx := duk__emit_a_bc comp_ctx DUK_OP_CLOSURE reg_bind fnum in
            Ok (varmap_put name (VarReg reg_bind) comp_ctx)
        else
          let* (reg_temp, comp_ctx) := duk__alloctemp comp_ctx in
          let* (reg_name, comp_ctx) := duk__getconst comp_ctx (DUK_TAG_STRING name) in
          let* comp_ctx := duk__emit_a_bc comp_ctx DUK_OP_CLOSURE reg_temp fnum in
          let declvar_flags :=
            Z.lor (Z.lor DUK_PROPDESC_FLAG_WRITABLE DUK_PROPDESC_FLAG_ENUMERABLE)
                  DUK_BC_DECLVAR_FLAG_FUNC_DECL in
          let declvar_flags :=
            if configurable_bindings
            then Z.lor declvar_flags DUK_PROPDESC_FLAG_CONFIGURABLE
            else declvar_flags in
          let* comp_ctx :=
            duk__emit_a_b_c comp_ctx DUK_OP_DECLVAR declvar_flags reg_name reg_temp in
          let comp_ctx := upd_func (set_temp_next reg_temp) comp_ctx in
          Ok (varmap_put name VarNull comp_ctx) in
      duk__prologue_func_decls comp_ctx rest configurable_bindings
  end.

(** [for (i = 0; i < num_decls; i += 2)], variable declarations. *)
Fixpoint duk__prologue_var_decls (comp_ctx : duk_compiler_ctx)
    (decls : list (duk_hstring * Z)) (configurable_bindings : bool)
    : outcome duk_compiler_ctx :=
  match decls with
  | [] => Ok comp_ctx
  | (h_name, decl_type) :: rest =>
    let decl_type := Z.land decl_type 0xff in
    if negb (decl_type =? DUK_DECL_TYPE_VAR) then
      duk__prologue_var_decls comp_ctx rest configurable_bindings
    else if varmap_has comp_ctx h_name then
      duk__prologue_var_decls comp_ctx rest configurable_bindings
    else if String.eqb h_name "arguments" &&
            negb (is_arguments_shadowed (curr_func comp_ctx)) then
      duk__prologue_var_decls comp_ctx rest configurable_bindings
    else
      let* comp_ctx :=
        if is_function (curr_func comp_ctx) then
          let* (reg_bind, comp_ctx) := duk__alloctemp comp_ctx in
          Ok (varmap_put h_name (VarReg reg_bind) comp_ctx)
        else
          let* (reg_name, comp_ctx) := duk__getconst comp_ctx (DUK_TAG_STRING h_name) in
          let declvar_flags :=
            Z.lor (Z.lor DUK_PROPDESC_FLAG_WRITABLE DUK_PROPDESC_FLAG_ENUMERABLE)
                  DUK_BC_DECLVAR_FLAG_UNDEF_VALUE in
          let declvar_flags :=
            if configurable_bindings
            then Z.lor declvar_flags DUK_PROPDESC_FLAG_CONFIGURABLE
            else declvar_flags in
          let* comp_ctx :=
            duk__emit_a_b_c comp_ctx DUK_OP_DECLVAR declvar_flags reg_name 0 in
          Ok (varmap_put h_name VarNull comp_ctx) in
      duk__prologue_var_decls comp_ctx rest configurable_bindings
  end.

(** [want_stmt_value_reg] is [out_stmt_value_reg != NULL]; the first
    component of the result is [*out_stmt_value_reg] when it was written. *)
Definition duk__init_varmap_and_prologue_for_pass2 (comp_ctx : duk_compiler_ctx)
    (want_stmt_value_reg : bool) : outcome (option Z * duk_compiler_ctx) :=
  let configurable_bindings := is_eval (curr_func comp_ctx) in
  let argnames := h_argnames (curr_func comp_ctx) in
  let num_args := Z.of_nat (length argnames) in
  let* comp_ctx := duk__prologue_formals comp_ctx argnames 0 in
  let comp_ctx := duk__settemp_checkmax comp_ctx num_args in
  let* (out_stmt_value_reg, comp_ctx) :=
    if want_stmt_value_reg then
      let* (r, comp_ctx) := duk__alloctemp comp_ctx in Ok (Some r, comp_ctx)
    else Ok (None, comp_ctx) in
  let* comp_ctx :=
    if needs_shuffle (curr_func comp_ctx) then
      let* (shuffle_base, comp_ctx) := duk__alloctemps comp_ctx 3 in
      Ok (upd_func (fun f => set_shuffle3 (shuffle_base + 2)
                               (set_shuffle2 (shuffle_base + 1)
                                  (set_shuffle1 shuffle_base f))) comp_ctx)
    else Ok comp_ctx in
  if temp_next (curr_func comp_ctx) >? 0x100 then error_outofregs
  else
    let decls := h_decls (curr_func comp_ctx) in
    let* comp_ctx := duk__prologue_func_decls comp_ctx decls configurable_bindings in
    let comp_ctx :=
      if varmap_has comp_ctx "arguments"
      then upd_func (set_is_arguments_shadowed true) comp_ctx
      else comp_ctx in
    let* comp_ctx := duk__prologue_var_decls comp_ctx decls configurable_bindings in
    Ok (out_stmt_value_reg, comp_ctx).

(** *** Function body: two passes *)

Definition duk__reset_func_for_pass2 (comp_ctx : duk_compiler_ctx) : duk_compiler_ctx :=
  upd_func (fun func =>
              set_h_labelinfos []
                (set_fnum_next 0 (set_h_consts [] (set_h_code [] func)))) comp_ctx.

(** The statement parser, duk__parse_stmt() with its [allow_source_elem]
    argument, and below it the statement and expression parsers. *)
Variable duk__parse_stmt : duk_compiler_ctx -> bool -> outcome duk_compiler_ctx.

(** [for (;;)] of duk__parse_stmts(): statements until the closing token,
    unrolled at most [fuel] times. *)
Fixpoint duk__parse_stmts_loop (fuel : nat) (comp_ctx : duk_compiler_ctx)
    (allow_source_elem expect_eof : bool) : outcome duk_compiler_ctx :=
  if (if expect_eof
      then t (curr_token comp_ctx) =? DUK_TOK_EOF
      else t (curr_token comp_ctx) =? DUK_TOK_RCURLY)
  then Ok comp_ctx
  else
    match fuel with
    | O => OutOfFuel
    | S fuel' =>
      let* comp_ctx := duk__parse_stmt comp_ctx allow_source_elem in
      duk__parse_stmts_loop fuel' comp_ctx allow_source_elem expect_eof
    end.

Definition duk__parse_stmts (fuel : nat) (comp_ctx : duk_compiler_ctx)
    (allow_source_elem expect_eof : bool) : outcome duk_compiler_ctx :=
  let* comp_ctx := duk__parse_stmts_loop fuel comp_ctx allow_source_elem expect_eof in
  duk__advance comp_ctx.

(** DUK_HSTRING_HAS_RESERVED_WORD (duk_hstring.h): reserved in non-strict
    code; only consulted for the function name check. *)
Variable DUK_HSTRING_HAS_RESERVED_WORD : duk_hstring -> bool.

Definition error_funcname {A : Type} : outcome A :=
  DUK_ERROR DUK_ERR_SYNTAX_ERROR "invalid function name".

(** The part of duk__parse_func_body() up to and including the rewind of
    the lexer after pass 1; returns [reg_stmt_value] as well. *)
Definition duk__parse_func_body_pass1 (fuel : nat) (comp_ctx : duk_compiler_ctx)
    (expect_eof implicit_return_value : bool) : outcome (Z * duk_compiler_ctx) :=
  let* comp_ctx := duk__recursion_increase comp_ctx in
  let lex_pt := DUK_LEXER_GETPOINT (lex comp_ctx) in
  let* (reg_stmt_value, comp_ctx) :=
    if implicit_return_value then duk__alloctemp comp_ctx else Ok (-1, comp_ctx) in
  let comp_ctx :=
    upd_func (fun func =>
                set_reg_stmt_value reg_stmt_value
                  (set_id_access_slow false
                     (set_id_access_arguments false
                        (set_may_direct_eval false
                           (set_in_scanning true
                              (set_in_directive_prologue true func)))))) comp_ctx in
  let comp_ctx := set_curr_token (set_t 0 (curr_token comp_ctx)) comp_ctx in
  let* comp_ctx := duk__advance comp_ctx in
  let* comp_ctx := duk__parse_stmts fuel comp_ctx true expect_eof in
  let comp_ctx := set_lex (DUK_LEXER_SETPOINT (lex comp_ctx) lex_pt) comp_ctx in
  let comp_ctx := set_curr_token (set_t 0 (curr_token comp_ctx)) comp_ctx in
  let* comp_ctx := duk__advance comp_ctx in
  Ok (reg_stmt_value, comp_ctx).

(** The final RETURN and the peephole pass. *)
Definition duk__parse_func_body_finish (comp_ctx : duk_compiler_ctx)
    (reg_stmt_value : Z) : outcome duk_compiler_ctx :=
  let* comp_ctx :=
    if reg_stmt_value >=? 0 then
      duk__emit_a_b comp_ctx DUK_OP_RETURN
        (Z.lor DUK_BC_RETURN_FLAG_HAVE_RETVAL DUK_BC_RETURN_FLAG_FAST) reg_stmt_value
    else
      duk__emit_a_b comp_ctx DUK_OP_RETURN DUK_BC_RETURN_FLAG_FAST 0 in
  let* comp_ctx := duk__peephole_optimize_bytecode comp_ctx in
  Ok (duk__recursion_decrease comp_ctx).

(** Pass 2: reset, prologue, name check, body, final RETURN, peephole. *)
Definition duk__parse_func_body_pass2 (fuel : nat) (comp_ctx : duk_compiler_ctx)
    (reg_stmt_value : Z) (expect_eof implicit_return_value : bool)
    : outcome duk_compiler_ctx :=
  let comp_ctx := duk__reset_func_for_pass2 comp_ctx in
  let comp_ctx :=
    upd_func (fun func => set_in_scanning false (set_in_directive_prologue true func))
      comp_ctx in
  let* (out_reg, comp_ctx) :=
    duk__init_varmap_and_prologue_for_pass2 comp_ctx implicit_return_value in
  let reg_stmt_value := match out_reg with Some r => r | None => reg_stmt_value end in
  let temp_first := temp_next (curr_func comp_ctx) in
  let comp_ctx :=
    upd_func (fun func =>
                set_id_access_slow false
                  (set_id_access_arguments false
                     (set_label_next 0
                        (set_stmt_next 0
                           (set_temp_next temp_first
                              (set_temp_first temp_first
                                 (set_reg_stmt_value reg_stmt_value func)))))))
      comp_ctx in
  let func := curr_func comp_ctx in
  let bad_name :=
    match h_name func with
    | Some name =>
      is_function func && negb (is_setget func) &&
      (if is_strict func then
         duk__hstring_is_eval_or_arguments comp_ctx name ||
         DUK_HSTRING_HAS_STRICT_RESERVED_WORD name
       else
         DUK_HSTRING_HAS_RESERVED_WORD name &&
         negb (DUK_HSTRING_HAS_STRICT_RESERVED_WORD name))
    | None => false
    end in
  if bad_name then error_funcname
  else
    let* comp_ctx :=
      if implicit_return_value
      then duk__emit_extraop_bc comp_ctx DUK_EXTRAOP_LDUNDEF 0
      else Ok comp_ctx in
    let* comp_ctx := duk__parse_stmts fuel comp_ctx true expect_eof in
    duk__parse_func_body_finish comp_ctx reg_stmt_value.

Definition duk__parse_func_body (fuel : nat) (comp_ctx : duk_compiler_ctx)
    (expect_eof implicit_return_value : bool) : outcome duk_compiler_ctx :=
  let* (reg_stmt_value, comp_ctx) :=
    duk__parse_func_body_pass1 fuel comp_ctx expect_eof implicit_return_value in
  duk__parse_func_body_pass2 fuel comp_ctx reg_stmt_value expect_eof
    implicit_return_value.

(** *** Function template *)

(** duk__cleanup_varmap(): entries that are not register numbers are
    removed. *)
Definition duk__cleanup_varmap (varmap : gmap string varmap_value)
    : gmap string varmap_value :=
  omap (fun v => match v with VarReg r => Some (VarReg r) | VarNull => None end) varmap.

Definition duk__convert_to_func_template (comp_ctx : duk_compiler_ctx)
    : duk_hcompiledfunction :=
  let func := curr_func comp_ctx in
  let funcs := map (fun e => fst (fst e)) (h_funcs func) in
  let funcs_count := Z.of_nat (length funcs) in
  let varmap :=
    if id_access_slow func || may_direct_eval func || (funcs_count >? 0) then
      let cleaned := duk__cleanup_varmap (h_varmap func) in
      if Z.of_nat (size cleaned) >? 0 then Some cleaned else None
    else None in
  {| tmpl_consts := h_consts func;
     tmpl_funcs := funcs;
     tmpl_bytecode := map ins (h_code func);
     tmpl_nregs := temp_max func;
     tmpl_nargs := Z.of_nat (length (h_argnames func));
     tmpl_newenv := is_function func || (is_eval func && is_strict func);
     tmpl_createargs :=
       is_function func && negb (is_arguments_shadowed func) &&
       (id_access_arguments func || may_direct_eval func);
     tmpl_namebinding :=
       is_function func && negb (is_decl func) && bool_decide (is_Some (h_name func));
     tmpl_strict := is_strict func;
     tmpl_varmap := varmap;
     tmpl_formals := h_argnames func;
     tmpl_name := h_name func |}.

(** *** Function-like expressions *)

(** Number-to-string conversion of the value system (duk_to_string() on a
    number). *)
Variable duk_js_tostring_number : spec_float -> string.

Definition duk_to_string (p : duk_primitive) : string :=
  match p with
  | DUK_TAG_UNDEFINED => "undefined"
  | DUK_TAG_NULL => "null"
  | DUK_TAG_BOOLEAN true => "true"
  | DUK_TAG_BOOLEAN false => "false"
  | DUK_TAG_NUMBER d => duk_js_tostring_number d
  | DUK_TAG_STRING h => h
  end.

(** [for (;;)] of duk__parse_func_formals(), unrolled at most [fuel]
    times. *)
Fixpoint duk__parse_func_formals_loop (fuel : nat) (comp_ctx : duk_compiler_ctx)
    (first : bool) : outcome duk_compiler_ctx :=
  if t (curr_token comp_ctx) =? DUK_TOK_RPAREN then Ok comp_ctx
  else
    match fuel with
    | O => OutOfFuel
    | S fuel' =>
      let* comp_ctx :=
        if first then Ok comp_ctx else duk__advance_expect comp_ctx DUK_TOK_COMMA in
      if negb (t (curr_token comp_ctx) =? DUK_TOK_IDENTIFIER) then
        DUK_ERROR DUK_ERR_SYNTAX_ERROR "expected identifier"
      else
        match str1 (curr_token comp_ctx) with
        | None => Undef
        | Some name =>
          let comp_ctx :=
            upd_func (fun f => set_h_argnames (h_argnames f ++ [name]) f) comp_ctx in
          let* comp_ctx := duk__advance comp_ctx in
          duk__parse_func_formals_loop fuel' comp_ctx false
        end
    end.

Definition duk__parse_func_formals (fuel : nat) (comp_ctx : duk_compiler_ctx)
    : outcome duk_compiler_ctx :=
  duk__parse_func_formals_loop fuel comp_ctx true.

(** Returns the function template it pushes on the value stack. *)
Definition duk__parse_func_like_raw (fuel : nat) (comp_ctx : duk_compiler_ctx)
    (is_decl is_setget : bool) : outcome (duk_hcompiledfunction * duk_compiler_ctx) :=
  let tok := curr_token comp_ctx in
  let* comp_ctx :=
    if is_setget then
      let* name :=
        if (t_nores tok =? DUK_TOK_IDENTIFIER) || (t tok =? DUK_TOK_STRING) then
          match str1 tok with Some h => Ok h | None => Undef end
        else if t tok =? DUK_TOK_NUMBER then Ok (duk_js_tostring_number (num tok))
        else DUK_ERROR DUK_ERR_SYNTAX_ERROR "invalid getter/setter name" in
      duk__advance (upd_func (set_h_name (Some name)) comp_ctx)
    else if t_nores tok =? DUK_TOK_IDENTIFIER then
      match str1 tok with
      | Some h => duk__advance (upd_func (set_h_name (Some h)) comp_ctx)
      | None => Undef
      end
    else if is_decl then DUK_ERROR DUK_ERR_SYNTAX_ERROR "function name required"
    else Ok comp_ctx in
  let* comp_ctx := duk__advance_expect comp_ctx DUK_TOK_LPAREN in
  let* comp_ctx := duk__parse_func_formals fuel comp_ctx in
  let* comp_ctx := duk__advance comp_ctx in
  let* comp_ctx := duk__parse_func_body fuel comp_ctx false false in
  Ok (duk__convert_to_func_template comp_ctx, comp_ctx).

(** duk__init_func_valstack_slots(): the function state zeroed, with fresh
    empty buffers, arrays and variable map. *)
Definition duk__init_func_valstack_slots : duk_compiler_func :=
  mk_func None [] [] [] [] [] [] empty
    false false false false false false false false false false false false false
    false false 0 0 0 0 0 0 0 0 0 0 0.

(** The function state duk__parse_func_like_fnum() switches to for an inner
    function: zeroed, strictness inherited from the parent. *)
Definition duk__inner_func_state (old_func : duk_compiler_func)
    (is_decl is_setget : bool) : duk_compiler_func :=
  set_is_decl is_decl
    (set_is_setget is_setget
       (set_is_global false
          (set_is_eval false
             (set_is_function true
                (set_is_strict (is_strict old_func)
                   duk__init_func_valstack_slots))))).

(** Returns the function number.  DUK_ASSERT in the source: the funcs array
    holds [fnum_next] entries when an inner function is registered, so the
    three duk_put_prop_index() calls append one (template, offset, line)
    entry. *)
Definition duk__parse_func_like_fnum (fuel : nat) (comp_ctx : duk_compiler_ctx)
    (is_decl is_setget : bool) : outcome (Z * duk_compiler_ctx) :=
  if negb (in_scanning (curr_func comp_ctx)) then
    let fnum := fnum_next (curr_func comp_ctx) in
    let comp_ctx := upd_func (set_fnum_next (fnum + 1)) comp_ctx in
    let entry := buf_get (h_funcs (curr_func comp_ctx)) fnum in
    let lex_pt :=
      match entry with
      | Some (_, off, ln) => mk_lexer_point off ln
      | None => mk_lexer_point 0 0
      end in
    let comp_ctx := set_lex (DUK_LEXER_SETPOINT (lex comp_ctx) lex_pt) comp_ctx in
    let comp_ctx := set_curr_token (set_t 0 (curr_token comp_ctx)) comp_ctx in
    let* comp_ctx := duk__advance comp_ctx in
    let* comp_ctx := duk__advance_expect comp_ctx DUK_TOK_RCURLY in
    Ok (fnum, comp_ctx)
  else
    let old_func := curr_func comp_ctx in
    let comp_ctx :=
      set_curr_func (duk__inner_func_state old_func is_decl is_setget) comp_ctx in
    let* (tmpl, comp_ctx) := duk__parse_func_like_raw fuel comp_ctx is_decl is_setget in
    let fnum := fnum_next old_func in
    let old_func := set_fnum_next (fnum + 1) old_func in
    if fnum >=? DUK__MAX_FUNCS then DUK_ERROR DUK_ERR_INTERNAL_ERROR "out of funcs"
    else
      let entry :=
        (tmpl, start_offset (prev_token comp_ctx), start_line (prev_token comp_ctx)) in
      let old_func := set_h_funcs (h_funcs old_func ++ [entry]) old_func in
      Ok (fnum, set_curr_func old_func comp_ctx).

(** *** Top-level driver *)

Definition zero_token : duk_token :=
  mk_token 0 0 None (S754_zero false) 0 0 false false.

(** duk__js_compile_raw(): [sourcecode] and [flags] are what the caller
    left on the value stack and in [comp_stk]. *)
Definition duk__js_compile_raw (fuel : nat) (sourcecode : string) (flags : Z)
    : outcome duk_hcompiledfunction :=
  let is_eval := has_flag flags DUK_JS_COMPILE_FLAG_EVAL in
  let is_strict := has_flag flags DUK_JS_COMPILE_FLAG_STRICT in
  let is_funcexpr := has_flag flags DUK_JS_COMPILE_FLAG_FUNCEXPR in
  let lex := DUK_LEXER_SETPOINT (mk_lexer_ctx sourcecode (mk_lexer_point 0 0))
               (mk_lexer_point 0 1) in
  let func := duk__init_func_valstack_slots in
  let func :=
    if is_funcexpr then func
    else set_h_name (Some (if is_eval then "eval" else "global")) func in
  let func := set_is_decl false (set_is_setget false (set_is_strict is_strict func)) in
  let comp_ctx :=
    mk_ctx func zero_token zero_token lex 0 DUK_COMPILER_RECURSION_LIMIT in
  if is_funcexpr then
    let comp_ctx :=
      upd_func (fun f => set_is_global false (set_is_eval false (set_is_function true f)))
        comp_ctx in
    let* comp_ctx := duk__advance comp_ctx in
    let* comp_ctx := duk__advance_expect comp_ctx DUK_TOK_FUNCTION in
    let* (_, comp_ctx) := duk__parse_func_like_raw fuel comp_ctx false false in
    Ok (duk__convert_to_func_template comp_ctx)
  else
    let comp_ctx :=
      upd_func (fun f => set_is_global (negb is_eval)
                           (set_is_eval is_eval (set_is_function false f)))
        comp_ctx in
    let* comp_ctx := duk__parse_func_body fuel comp_ctx true true in
    Ok (duk__convert_to_func_template comp_ctx).

(** The error branch of duk_js_compile(): [err] is the value the protected
    call left on the stack top, [line_no] the [curr_token.start_line] found
    in [comp_stk] after the call. *)
Definition duk__js_compile_add_line (err : duk_tval) (line_no : Z) : duk_tval :=
  match err with
  | DUK_TVAL_OBJECT h =>
    match h_props h !! "message" with
    | Some msg =>
      let suffix := String.append " (line " (String.append (pretty line_no) ")") in
      let msg' := DUK_TAG_STRING (String.append (duk_to_string msg) suffix) in
      DUK_TVAL_OBJECT (mk_hobject (h_errcode h) (<["message" := msg']> (h_props h)))
    | None => err
    end
  | DUK_TVAL_PRIMITIVE _ => err
  end.

(** duk_js_compile().  The outcome type does not record the compiler
    context at the time of a throw; [comp_stk] is the context as the
    protected call left it in the caller's [comp_stk.comp_ctx_alloc]. *)
Definition duk_js_compile (fuel : nat) (sourcecode : string) (flags : Z)
    (comp_stk : duk_compiler_ctx) : outcome duk_hcompiledfunction :=
  match duk__js_compile_raw fuel sourcecode flags with
  | Throw err =>
    Throw (duk__js_compile_add_line err (start_line (curr_token comp_stk)))
  | r => r
  end.

End Compiler.

(** ** Properties of bytecode, stated on decoded instructions *)

Section BytecodeProperties.
Context `{duk_js_bytecode}.

Definition is_jump (bc : list duk_compiler_instr) (pc : Z) : Prop :=
  exists instr, buf_get bc pc = Some instr /\ DUK_DEC_OP (ins instr) = DUK_OP_JUMP.

(** The instruction at [pc1] is a JUMP whose target holds a JUMP. *)
Definition jump_to_jump_at (bc : list duk_compiler_instr) (pc1 : nat) : Prop :=
  exists instr, bc !! pc1 = Some instr /\ DUK_DEC_OP (ins instr) = DUK_OP_JUMP /\
                is_jump bc (jump_target (Z.of_nat pc1) (ins instr)).

(** "Every JUMP's signed offset lies within the bytecode bounds". *)
Definition jumps_in_bounds (bc : list duk_compiler_instr) : Prop :=
  forall (pc : nat) instr,
    bc !! pc = Some instr -> DUK_DEC_OP (ins instr) = DUK_OP_JUMP ->
    0 <= jump_target (Z.of_nat pc) (ins instr) < Z.of_nat (length bc).

(** "no JUMP targets another JUMP". *)
Definition no_jump_to_jump (bc : list duk_compiler_instr) : Prop :=
  forall pc1 : nat, ~ jump_to_jump_at bc pc1.

(** Section 4.7 in relational form.  One instruction of one pass: "For every
    JUMP pc1 -> t1, if the instruction at t1 is also a JUMP pc -> t2, rewrite
    the original to jump directly to t2"; the last component counts the
    rewrite. *)
Inductive peephole_rewrite (bc : list duk_compiler_instr) (pc1 : nat)
    : list duk_compiler_instr -> Z -> Prop :=
| rewrite_jump_chain instr1 instr_t1 instr' t1 t2 :
    bc !! pc1 = Some instr1 ->
    DUK_DEC_OP (ins instr1) = DUK_OP_JUMP ->
    t1 = jump_target (Z.of_nat pc1) (ins instr1) ->
    buf_get bc t1 = Some instr_t1 ->
    DUK_DEC_OP (ins instr_t1) = DUK_OP_JUMP ->
    t2 = jump_target t1 (ins instr_t1) ->
    DUK_DEC_OP (ins instr') = DUK_OP_JUMP ->
    jump_target (Z.of_nat pc1) (ins instr') = t2 ->
    instr_line instr' = instr_line instr1 ->
    peephole_rewrite bc pc1 (<[pc1 := instr']> bc) 1
| rewrite_nothing :
    ~ jump_to_jump_at bc pc1 ->
    peephole_rewrite bc pc1 bc 0.

(** One pass over the instructions from [pc1] to the end, in order. *)
Inductive peephole_pass_spec
    : nat -> list duk_compiler_instr -> list duk_compiler_instr -> Z -> Prop :=
| pass_end bc pc1 :
    pc1 = length bc -> peephole_pass_spec pc1 bc bc 0
| pass_next bc pc1 bc1 d bc2 c :
    (pc1 < length bc)%nat ->
    peephole_rewrite bc pc1 bc1 d ->
    peephole_pass_spec (S pc1) bc1 bc2 c ->
    peephole_pass_spec pc1 bc bc2 (d + c).

(** "Iterate up to a bounded number of passes [...].  Stop when a pass makes
    no changes or the iteration cap is hit": [cap] passes are left. *)
Inductive peephole_spec
    : nat -> list duk_compiler_instr -> list duk_compiler_instr -> Prop :=
| peephole_cap_hit bc :
    peephole_spec 0 bc bc
| peephole_no_changes cap bc bc' :
    peephole_pass_spec 0 bc bc' 0 ->
    peephole_spec (S cap) bc bc'
| peephole_another_pass cap bc bc1 c bc2 :
    peephole_pass_spec 0 bc bc1 c -> c <> 0 ->
    peephole_spec cap bc1 bc2 ->
    peephole_spec (S cap) bc bc2.

(** What the bounded scan of duk__getconst() maintains: an entry inside
    the scan window is SameValue to no later entry. *)
Definition consts_window_unique (consts : list duk_primitive) : Prop :=
  forall (i j : nat) x y,
    (i < j)%nat -> Z.of_nat i < DUK__GETCONST_MAX_CONSTS_CHECK ->
    consts !! i = Some x -> consts !! j = Some y ->
    duk_js_samevalue x y = false.

(** The last instruction of a non-empty code array. *)
Definition last_instr (bc : list duk_instr) : option duk_instr := last bc.

(** A register or constant operand the emitter can encode: a register
    index, or a constant index with the constant marker, up to BC_MAX. *)
Definition valid_regconst (x : Z) : Prop :=
  0 <= x <= DUK_BC_BC_MAX \/
  (DUK__CONST_MARKER <= x <= DUK__CONST_MARKER + DUK_BC_BC_MAX).

End BytecodeProperties.

(** Formal argument names the strict-mode prologue rejects (section 4.6,
    step 1): a duplicate, [eval] or [arguments], a strict-mode reserved
    word. *)
Definition bad_strict_formals (argnames : list duk_hstring) : Prop :=
  ~ NoDup argnames \/
  exists name, name ∈ argnames /\
    (name = "eval" \/ name = "arguments" \/ name ∈ strict_reserved_words).

(** How a break or continue statement names its label, once the keyword is
    consumed ([comp_ctx]): no label when a semicolon follows or will be
    inserted, the label being the empty string; otherwise an identifier,
    consumed by a further advance.  [comp_ctx2] is the context when the
    jump is emitted. *)
Inductive label_reference
    (advance : duk_compiler_ctx -> outcome duk_compiler_ctx)
    (comp_ctx : duk_compiler_ctx)
    : duk_hstring -> duk_compiler_ctx -> Prop :=
| label_omitted :
    (t (curr_token comp_ctx) =? DUK_TOK_SEMICOLON) ||
    lineterm (curr_token comp_ctx) || allow_auto_semi (curr_token comp_ctx) = true ->
    label_reference advance comp_ctx EmptyString comp_ctx
| label_given h comp_ctx2 :
    (t (curr_token comp_ctx) =? DUK_TOK_SEMICOLON) ||
    lineterm (curr_token comp_ctx) || allow_auto_semi (curr_token comp_ctx) = false ->
    t (curr_token comp_ctx) = DUK_TOK_IDENTIFIER ->
    str1 (curr_token comp_ctx) = Some h ->
    advance comp_ctx = Ok comp_ctx2 ->
    label_reference advance comp_ctx h comp_ctx2.

(** Executable check of [jumps_in_bounds]: the instructions [l] start at
    [pc] in a code array of [n] instructions. *)
Fixpoint jumps_in_bounds_from `{duk_js_bytecode} (n pc : Z)
    (l : list duk_compiler_instr) : bool :=
  match l with
  | [] => true
  | instr :: rest =>
    (if DUK_DEC_OP (ins instr) =? DUK_OP_JUMP
     then (0 <=? jump_target pc (ins instr)) && (jump_target pc (ins instr) <? n)
     else true) && jumps_in_bounds_from n (pc + 1) rest
  end.

Definition jumps_in_boundsb `{duk_js_bytecode} (bc : list duk_compiler_instr) : bool :=
  jumps_in_bounds_from (Z.of_nat (length bc)) 0 bc.

(** ** Further helpers of the compiler *)

Section Helpers.
Context `{duk_js_bytecode}.

(** *** Extended opcodes *)

(** [extraop_flags & ~0xff] transfers the emission flags. *)
Definition duk__emit_extraop_b_c (comp_ctx : duk_compiler_ctx) (extraop_flags b c : Z)
    : outcome duk_compiler_ctx :=
  duk__emit_a_b_c comp_ctx
    (Z.lor DUK_OP_EXTRA (Z.land extraop_flags (Z.lnot 0xff)))
    (Z.land extraop_flags 0xff) b c.

Definition duk__emit_extraop_b (comp_ctx : duk_compiler_ctx) (extraop_flags b : Z)
    : outcome duk_compiler_ctx :=
  duk__emit_a_b_c comp_ctx
    (Z.lor DUK_OP_EXTRA (Z.land extraop_flags (Z.lnot 0xff)))
    (Z.land extraop_flags 0xff) b 0.

Definition duk__emit_extraop_only (comp_ctx : duk_compiler_ctx) (extraop_flags : Z)
    : outcome duk_compiler_ctx :=
  duk__emit_a_b_c comp_ctx
    (Z.lor DUK_OP_EXTRA (Z.land extraop_flags (Z.lnot 0xff)))
    (Z.land extraop_flags 0xff) 0 0.

(** *** Jumps inserted into emitted code *)

(** duk_hbuffer_insert_bytes() at instruction index [jump_pc]; an index
    outside the buffer is left to that function, which is not among the
    sources. *)
Definition duk__insert_jump_entry (comp_ctx : duk_compiler_ctx) (jump_pc : Z)
    : outcome duk_compiler_ctx :=
  let line := start_line (curr_token comp_ctx) in
  let instr := mk_instr (wrap32 (DUK_ENC_OP_ABC DUK_OP_JUMP 0)) line in
  if (0 <=? jump_pc) && (jump_pc <=? duk__get_current_pc comp_ctx) then
    Ok (upd_func
          (fun f => set_h_code (take (Z.to_nat jump_pc) (h_code f) ++
                                instr :: drop (Z.to_nat jump_pc) (h_code f)) f)
          comp_ctx)
  else Undef.

(** *** Label handling *)

(** [while (li > li_start)] of duk__add_label(): the duplicate check, [li]
    being the pointer as an index into the label table. *)
Fixpoint duk__add_label_loop (infos : list duk_labelinfo) (h : duk_hstring)
    (li : nat) : outcome unit :=
  match li with
  | O => Ok tt
  | S li' =>
    match infos !! li' with
    | None => Undef
    | Some info =>
      if String.eqb (h_label info) h && negb (String.eqb h EmptyString) then
        DUK_ERROR DUK_ERR_SYNTAX_ERROR "duplicate (non-empty) label"
      else duk__add_label_loop infos h li'
    end
  end.

(** The label names array only keeps the label strings reachable; strings
    are values here, so the label table alone is the state. *)
Definition duk__add_label (comp_ctx : duk_compiler_ctx) (h : duk_hstring)
    (pc_label label_id : Z) : outcome duk_compiler_ctx :=
  let infos := h_labelinfos (curr_func comp_ctx) in
  let* _ := duk__add_label_loop infos h (length infos) in
  let li := mk_labelinfo 0 label_id h (catch_depth (curr_func comp_ctx)) pc_label in
  Ok (upd_func (fun f => set_h_labelinfos (h_labelinfos f ++ [li]) f) comp_ctx).

Definition set_li_flags (flags : Z) (info : duk_labelinfo) : duk_labelinfo :=
  mk_labelinfo flags (label_id info) (h_label info) (li_catch_depth info) (pc_label info).

(** [while (li > li_start)] of duk__update_label_flags(). *)
Fixpoint duk__update_label_flags_loop (infos : list duk_labelinfo)
    (id flags : Z) (li : nat) : outcome (list duk_labelinfo) :=
  match li with
  | O => Ok infos
  | S li' =>
    match infos !! li' with
    | None => Undef
    | Some info =>
      if negb (label_id info =? id) then Ok infos
      else duk__update_label_flags_loop (<[li' := set_li_flags flags info]> infos)
             id flags li'
    end
  end.

Definition duk__update_label_flags (comp_ctx : duk_compiler_ctx) (id flags : Z)
    : outcome duk_compiler_ctx :=
  let infos := h_labelinfos (curr_func comp_ctx) in
  let* infos := duk__update_label_flags_loop infos id flags (length infos) in
  Ok (upd_func (set_h_labelinfos infos) comp_ctx).

(** duk_hbuffer_resize() to [len] entries: the callers shrink the table;
    what growing it fills in is left to that function, which is not among
    the sources. *)
Definition duk__reset_labels_to_length (comp_ctx : duk_compiler_ctx) (len : Z)
    : outcome duk_compiler_ctx :=
  let infos := h_labelinfos (curr_func comp_ctx) in
  if (0 <=? len) && (len <=? Z.of_nat (length infos)) then
    Ok (upd_func (set_h_labelinfos (take (Z.to_nat len) infos)) comp_ctx)
  else Undef.

(** Returns the label id of the site. *)
Definition duk__stmt_label_site (comp_ctx : duk_compiler_ctx) (id : Z)
    : Z * duk_compiler_ctx :=
  if id >=? 0 then (id, comp_ctx)
  else
    let id := label_next (curr_func comp_ctx) in
    let comp_ctx := upd_func (fun f => set_label_next (label_next f + 1) f) comp_ctx in
    let comp_ctx := duk__emit_abc comp_ctx DUK_OP_LABEL id in
    let comp_ctx := duk__emit_invalid comp_ctx in
    let comp_ctx := duk__emit_invalid comp_ctx in
    (id, comp_ctx).

(** *** Operands and effects of the emitters *)

(** An operand duk__emit_a_b_c() encodes without shuffling: a register up to
    0xff, or a constant up to 0xff carrying the constant marker. *)
Definition direct_operand (x : Z) : Prop :=
  0 <= x <= 0xff \/ DUK__CONST_MARKER <= x <= DUK__CONST_MARKER + 0xff.

(** The 9-bit B or C field of a direct operand: bit 8 tells a constant. *)
Definition operand_field (x : Z) : Z :=
  if has_flag x DUK__CONST_MARKER then 0x100 + (x - DUK__CONST_MARKER) else x.

(** [comp_ctx'] is [comp_ctx] with instructions appended to the code and
    possibly the needs_shuffle flag changed; nothing else differs. *)
Definition only_emits (comp_ctx comp_ctx' : duk_compiler_ctx) : Prop :=
  exists suffix ns,
    comp_ctx' =
    upd_func (fun f => set_needs_shuffle ns (set_h_code (h_code f ++ suffix) f)) comp_ctx.

(** An emitter's outcome: it returned and only emitted, or it threw the
    RangeError of the 'error_outofregs' label. *)
Definition emits_or_fails {A : Type} (comp_ctx : duk_compiler_ctx)
    (ctx_of : A -> duk_compiler_ctx) (m : outcome A) : Prop :=
  match m with
  | Ok x => only_emits comp_ctx (ctx_of x)
  | Throw e => e = duk_error_object DUK_ERR_RANGE_ERROR "out of regs"
  | Undef => False
  | OutOfFuel => False
  end.

(** *** Where a chain of jumps lands *)

(** Executing from [pc] passes through JUMP instructions only until it
    reaches the instruction at [r], which is not a JUMP. *)
Inductive lands_at (bc : list duk_compiler_instr) : Z -> Z -> Prop :=
| lands_here pc instr :
    buf_get bc pc = Some instr ->
    DUK_DEC_OP (ins instr) <> DUK_OP_JUMP ->
    lands_at bc pc pc
| lands_jump pc instr r :
    buf_get bc pc = Some instr ->
    DUK_DEC_OP (ins instr) = DUK_OP_JUMP ->
    lands_at bc (jump_target pc (ins instr)) r ->
    lands_at bc pc r.

(** The same, followed for at most [fuel] jumps. *)
Fixpoint follow_jumps (fuel : nat) (bc : list duk_compiler_instr) (pc : Z) : option Z :=
  match buf_get bc pc with
  | None => None
  | Some instr =>
    if DUK_DEC_OP (ins instr) =? DUK_OP_JUMP then
      match fuel with
      | O => None
      | S fuel' => follow_jumps fuel' bc (jump_target pc (ins instr))
      end
    else Some pc
  end.

End Helpers.

(** ** A concrete configuration

    One assignment of the header constants that satisfies [bytecode_wf],
    and stand-ins for the lexer and the parsers that are parameters of the
    development, used to run the definitions on concrete inputs. *)
Definition duk_bytecode_sample : duk_js_bytecode := {|
  DUK_OP_LDREG := 0; DUK_OP_STREG := 1; DUK_OP_LDCONST := 2; DUK_OP_LDINT := 3;
  DUK_OP_LDINTX := 4; DUK_OP_MPUTOBJ := 5; DUK_OP_MPUTARR := 7; DUK_OP_NEW := 9;
  DUK_OP_CSREG := 12; DUK_OP_CSVAR := 18; DUK_OP_CSPROP := 24; DUK_OP_CLOSURE := 20;
  DUK_OP_DECLVAR := 16; DUK_OP_JUMP := 50; DUK_OP_RETURN := 51; DUK_OP_CALL := 52;
  DUK_OP_CALLI := 53; DUK_OP_LABEL := 54; DUK_OP_ENDLABEL := 55; DUK_OP_BREAK := 56;
  DUK_OP_CONTINUE := 57; DUK_OP_EXTRA := 62; DUK_OP_INVALID := 63;
  DUK_EXTRAOP_INITGET := 10; DUK_EXTRAOP_INITSET := 12; DUK_EXTRAOP_LDUNDEF := 2;
  DUK_BC_CALL_FLAG_TAILCALL := 1;
  DUK_BC_RETURN_FLAG_FAST := 1; DUK_BC_RETURN_FLAG_HAVE_RETVAL := 2;
  DUK_BC_DECLVAR_FLAG_UNDEF_VALUE := 16; DUK_BC_DECLVAR_FLAG_FUNC_DECL := 32;
  DUK_PROPDESC_FLAG_WRITABLE := 1; DUK_PROPDESC_FLAG_ENUMERABLE := 2;
  DUK_PROPDESC_FLAG_CONFIGURABLE := 4;
  DUK_DECL_TYPE_VAR := 0; DUK_DECL_TYPE_FUNC := 1;
  DUK_LABEL_FLAG_ALLOW_BREAK := 1; DUK_LABEL_FLAG_ALLOW_CONTINUE := 2;
  DUK_COMPILER_PEEPHOLE_MAXITER := 3;
  DUK_COMPILER_RECURSION_LIMIT := 2500;
  DUK_JS_COMPILE_FLAG_EVAL := 1; DUK_JS_COMPILE_FLAG_STRICT := 2;
  DUK_JS_COMPILE_FLAG_FUNCEXPR := 4;
  DUK_USE_FUNC_NONSTD_CALLER_PROPERTY := false
|}.

Section Sample.
#[local] Existing Instance duk_bytecode_sample.

(** A function state in pass 2, nothing emitted yet; a token on line 1. *)
Definition sample_func : duk_compiler_func :=
  set_is_function true duk__init_func_valstack_slots.

Definition sample_token (tok : Z) : duk_token :=
  mk_token tok tok None (S754_zero false) 0 1 false false.

Definition sample_ctx : duk_compiler_ctx :=
  mk_ctx sample_func (sample_token DUK_TOK_EOF) (sample_token DUK_TOK_EOF)
    (mk_lexer_ctx EmptyString (mk_lexer_point 0 1)) 0 DUK_COMPILER_RECURSION_LIMIT.

Definition sample_ctx_with_code (bc : list duk_compiler_instr) : duk_compiler_ctx :=
  upd_func (set_h_code bc) sample_ctx.

(** A lexer for one-character tokens: punctuators [( ) { } ; ,], [+] for
    the increment operator, any other character an identifier of that name;
    a string literal in single quotes; [EOF] at the end of the input. *)
Definition sample_lexer (lex : duk_lexer_ctx) (strict regexp : bool)
    : outcome (duk_lexer_ctx * duk_token) :=
  let off := offset (lex_point lex) in
  let ln := line (lex_point lex) in
  let tok (tk : Z) (s : option duk_hstring) :=
    mk_token tk tk s (S754_zero false) off ln false false in
  let next_at (o : Z) := mk_lexer_ctx (input lex) (mk_lexer_point o ln) in
  let next := next_at (off + 1) in
  match String.get (Z.to_nat off) (input lex) with
  | None => Ok (lex, tok DUK_TOK_EOF None)
  | Some ch =>
    let s := String ch EmptyString in
    if String.eqb s "(" then Ok (next, tok DUK_TOK_LPAREN None)
    else if String.eqb s ")" then Ok (next, tok DUK_TOK_RPAREN None)
    else if String.eqb s "}" then Ok (next, tok DUK_TOK_RCURLY None)
    else if String.eqb s ";" then Ok (next, tok DUK_TOK_SEMICOLON None)
    else if String.eqb s "," then Ok (next, tok DUK_TOK_COMMA None)
    else if String.eqb s "+" then Ok (next, tok DUK_TOK_INCREMENT None)
    else if String.eqb s "'" then
      match String.index (S (Z.to_nat off)) "'" (input lex) with
      | Some close =>
        let body := String.substring (S (Z.to_nat off)) (close - S (Z.to_nat off))
                      (input lex) in
        Ok (next_at (Z.of_nat close + 1), tok DUK_TOK_STRING (Some body))
      | None => DUK_ERROR DUK_ERR_SYNTAX_ERROR "eof or line terminator in string literal"
      end
    else Ok (next, tok DUK_TOK_IDENTIFIER (Some s))
  end.

(** A statement parser for the empty statement [;] and for a directive:
    a string literal statement, which makes the function strict when it is
    'use strict' in the directive prologue. *)
Definition sample_parse_stmt (comp_ctx : duk_compiler_ctx) (allow_source_elem : bool)
    : outcome duk_compiler_ctx :=
  if t (curr_token comp_ctx) =? DUK_TOK_SEMICOLON then
    duk__advance sample_lexer (upd_func (set_in_directive_prologue false) comp_ctx)
  else if t (curr_token comp_ctx) =? DUK_TOK_STRING then
    let directive :=
      in_directive_prologue (curr_func comp_ctx) &&
      bool_decide (str1 (curr_token comp_ctx) = Some "use strict") in
    let comp_ctx :=
      if directive then upd_func (set_is_strict true) comp_ctx else comp_ctx in
    let* comp_ctx := duk__advance sample_lexer comp_ctx in
    duk__advance_expect sample_lexer comp_ctx DUK_TOK_SEMICOLON
  else DUK_ERROR DUK_ERR_SYNTAX_ERROR "unexpected token".

(** A left denotation handler that accepts nothing. *)
Definition sample_expr_led (comp_ctx : duk_compiler_ctx) : outcome duk_compiler_ctx :=
  DUK_ERROR DUK_ERR_SYNTAX_ERROR "unexpected token to duk__expr_led()".

(** An expression parser for one identifier: [f] stands for a call
    expression and ends with a CALL into a fresh temporary; any other
    identifier is a variable bound to register 0 and emits nothing. *)
Definition sample_exprtop_toregconst (comp_ctx : duk_compiler_ctx) (rbp_flags : Z)
    : outcome (Z * duk_compiler_ctx) :=
  match str1 (curr_token comp_ctx) with
  | Some name =>
    let* c := duk__advance sample_lexer comp_ctx in
    if String.eqb name "f" then
      let* (reg, c) := duk__alloctemps c 2 in
      let* c := duk__emit_a_b_c c DUK_OP_CALL 0 reg 0 in
      Ok (reg, c)
    else Ok (0, c)
  | None => DUK_ERROR DUK_ERR_SYNTAX_ERROR "invalid expression"
  end.

Definition sample_reserved_word (h : duk_hstring) : bool := false.

Definition sample_tostring_number (d : spec_float) : string := "0".

(** The context positioned on the first token of [src]. *)
Definition sample_ctx_at (src : string) (func : duk_compiler_func) : duk_compiler_ctx :=
  let lex0 := mk_lexer_ctx src (mk_lexer_point 0 1) in
  match sample_lexer lex0 false true with
  | Ok (lex1, tok) =>
    mk_ctx func tok (sample_token DUK_TOK_EOF) lex1 0 DUK_COMPILER_RECURSION_LIMIT
  | _ => sample_ctx
  end.

(** The string constants "0", "1", ..., as many as [n]. *)
Definition sample_consts (n : nat) : list duk_primitive :=
  map (fun i => DUK_TAG_STRING (pretty (Z.of_nat i))) (seq 0 n).

(** duk__getconst() called for each value in turn. *)
Definition intern_all (vs : list duk_primitive) (comp_ctx : duk_compiler_ctx)
    : outcome duk_compiler_ctx :=
  foldl (fun acc v => let* c := acc in let* (_, c) := duk__getconst c v in Ok c)
        (Ok comp_ctx) vs.

(** The state after the 257 distinct constants "0" ... "256" were
    interned, e.g. for the array literal ["0", "1", ..., "256", "256"]
    before its last element. *)
Definition ctx_257_consts : duk_compiler_ctx :=
  Eval vm_compute in
    match intern_all (sample_consts 257) sample_ctx with
    | Ok c => c
    | _ => sample_ctx
    end.

(** A function state at all three limits: DUK__MAX_TEMPS temporaries in
    use, DUK__MAX_CONSTS constants ("0" repeated stands for distinct
    values outside the scan window), DUK__MAX_FUNCS inner functions
    registered, in pass 1; the lexer is on the [(] of an inner function
    [(){}]. *)
Definition ctx_at_limits : duk_compiler_ctx :=
  sample_ctx_at "(){}"
    (set_in_scanning true
       (set_fnum_next DUK__MAX_FUNCS
          (set_h_consts (replicate (Z.to_nat DUK__MAX_CONSTS) (DUK_TAG_STRING "0"))
             (set_temp_max DUK__MAX_TEMPS
                (set_temp_next DUK__MAX_TEMPS sample_func))))).

(** A context whose lexer is at the start of the function body [src]. *)
Definition sample_body_ctx (src : string) (func : duk_compiler_func)
    : duk_compiler_ctx :=
  mk_ctx func (sample_token DUK_TOK_EOF) (sample_token DUK_TOK_EOF)
    (mk_lexer_ctx src (mk_lexer_point 0 1)) 0 DUK_COMPILER_RECURSION_LIMIT.

(** The body of [function () { ; }], compiled. *)
Definition compiled_empty_body : duk_compiler_ctx :=
  Eval vm_compute in
    match duk__parse_func_body sample_lexer sample_parse_stmt sample_reserved_word 4
            (sample_body_ctx ";}" sample_func) false false with
    | Ok c => c
    | _ => sample_ctx
    end.

(** [function (a, a) { 'use strict'; }] in non-strict code: the function
    state when its body is about to be parsed, and after pass 1. *)
Definition ctx_duplicate_formals : duk_compiler_ctx :=
  sample_body_ctx "'use strict';}" (set_h_argnames ["a"; "a"] sample_func).

Definition ctx_duplicate_formals_pass1 : Z * duk_compiler_ctx :=
  Eval vm_compute in
    match duk__parse_func_body_pass1 sample_lexer sample_parse_stmt 4
            ctx_duplicate_formals false false with
    | Ok r => r
    | _ => (0, sample_ctx)
    end.

(** Compiling the global code [(] fails in the statement parser. *)
Definition failed_compile_comp_stk : duk_compiler_ctx :=
  sample_ctx_at "(" (set_h_name (Some "global") duk__init_func_valstack_slots).

(** A lexer whose error value is a string: an error replaced through
    Duktape.errcreate ("Callback to modify/replace a created error"). *)
Definition replaced_error_lexer (lex : duk_lexer_ctx) (strict regexp : bool)
    : outcome (duk_lexer_ctx * duk_token) :=
  Throw (tv_string "replaced").

(** Inside [while (x) { ... }] at catch depth 0: the label site is at pc 0,
    three more instructions were emitted, and the parser is on [break]
    followed by [;]. *)
Definition ctx_on_break : duk_compiler_ctx :=
  let c := duk__emit_abc sample_ctx DUK_OP_LABEL 0 in
  let c := duk__emit_invalid (duk__emit_invalid c) in
  let c := duk__emit_jump_empty (duk__emit_invalid (duk__emit_invalid c)) in
  let func :=
    set_h_labelinfos [mk_labelinfo 3 0 EmptyString 0 0] (curr_func (snd c)) in
  mk_ctx func (sample_token DUK_TOK_BREAK) (sample_token DUK_TOK_EOF)
    (mk_lexer_ctx "b;}" (mk_lexer_point 1 1)) 0 DUK_COMPILER_RECURSION_LIMIT.

(** The same statement once the [break] keyword is consumed. *)
Definition ctx_after_break_keyword : duk_compiler_ctx :=
  Eval vm_compute in
    match duk__advance sample_lexer ctx_on_break with
    | Ok c => c
    | _ => sample_ctx
    end.

(** [return f;] as the first statement of a function, [f] standing for a
    call expression: on the keyword, after the keyword, and after the
    expression. *)
Definition ctx_on_return : duk_compiler_ctx :=
  mk_ctx sample_func (sample_token DUK_TOK_RETURN) (sample_token DUK_TOK_EOF)
    (mk_lexer_ctx "rf;}" (mk_lexer_point 1 1)) 0 DUK_COMPILER_RECURSION_LIMIT.

Definition ctx_after_return_keyword : duk_compiler_ctx :=
  Eval vm_compute in
    match duk__advance sample_lexer ctx_on_return with
    | Ok c => c
    | _ => sample_ctx
    end.

Definition ctx_after_return_expr : Z * duk_compiler_ctx :=
  Eval vm_compute in
    match sample_exprtop_toregconst ctx_after_return_keyword DUK__BP_FOR_EXPR with
    | Ok r => r
    | _ => (0, sample_ctx)
    end.

(** The parser on the [++] token of the source [a], line end, [++]. *)
Definition ctx_postfix_after_lineterm : duk_compiler_ctx :=
  set_curr_token
    (mk_token DUK_TOK_INCREMENT DUK_TOK_INCREMENT None (S754_zero false) 2 2 true false)
    sample_ctx.

(** What the statement parsers emit for the function body [for(;;);]:
    duk__parse_stmt() emits the label site through duk__stmt_label_site()
    (LABEL and two INVALID slots); duk__parse_for_stmt(), variant 1 with its
    three expressions empty, emits the empty jump to the body at pc_l1,
    nothing at pc_l2 and for the empty body at pc_l3, the jump back to
    pc_l1, and patches the four jumps; duk__parse_stmt() closes with
    ENDLABEL and duk__parse_func_body() with the final RETURN. *)
Definition forever_loop_ctx : outcome duk_compiler_ctx :=
  let pc_label_site := duk__get_current_pc sample_ctx in
  let c := duk__emit_abc sample_ctx DUK_OP_LABEL 0 in
  let c := duk__emit_invalid c in
  let c := duk__emit_invalid c in
  let pc_l1 := duk__get_current_pc c in
  let '(pc_jumpto_l3, c) := duk__emit_jump_empty c in
  let pc_jumpto_l4 := -1 in
  let pc_l2 := duk__get_current_pc c in
  let pc_l3 := duk__get_current_pc c in
  let c := duk__emit_jump c pc_l1 in
  let pc_l4 := duk__get_current_pc c in
  let* c := duk__patch_jump c pc_jumpto_l3 pc_l3 in
  let* c := duk__patch_jump c pc_jumpto_l4 pc_l4 in
  let* c := duk__patch_jump c (pc_label_site + 1) pc_l4 in
  let* c := duk__patch_jump c (pc_label_site + 2) pc_l1 in
  let c := duk__emit_abc c DUK_OP_ENDLABEL 0 in
  duk__emit_a_b c DUK_OP_RETURN DUK_BC_RETURN_FLAG_FAST 0.

Definition forever_loop_code : list duk_compiler_instr :=
  Eval vm_compute in
    match forever_loop_ctx with
    | Ok c => h_code (curr_func c)
    | _ => []
    end.

(** A chain of two jumps in front of a RETURN. *)
Definition jump_chain_code : list duk_compiler_instr :=
  Eval vm_compute in
    h_code (curr_func
      (duk__emit_abc
         (duk__emit_jump (duk__emit_jump sample_ctx 1) 2) DUK_OP_RETURN 0)).

(** The label [a] of a labelled iteration statement: registered, then
    given its flags. *)
Definition ctx_label_added : duk_compiler_ctx :=
  Eval vm_compute in
    match duk__add_label sample_ctx "a" 0 0 with
    | Ok c => c
    | _ => sample_ctx
    end.

Definition ctx_label_flagged : duk_compiler_ctx :=
  Eval vm_compute in
    match duk__update_label_flags ctx_label_added 0
            (Z.lor DUK_LABEL_FLAG_ALLOW_BREAK DUK_LABEL_FLAG_ALLOW_CONTINUE) with
    | Ok c => c
    | _ => sample_ctx
    end.

End Sample.

(** ** Bit-level facts about the instruction encoding *)

Lemma testbit_small (x k n : Z) :
  0 <= x < 2 ^ k -> 0 <= k <= n -> Z.testbit x n = false.
Proof.
  intros Hx Hk. rewrite <- (Z.mod_small x (2 ^ k)) by lia.
  apply Z.mod_pow2_bits_high. lia.
Qed.

Lemma land_ones_lor_shiftl (x op k m : Z) :
  0 <= k <= m -> 0 <= op < 2 ^ k ->
  Z.land (Z.lor (Z.shiftl x k) op mod 2 ^ m) (Z.ones k) = op.
Proof.
  intros Hk Hop. apply Z.bits_inj'. intros n Hn.
  rewrite Z.land_spec, Z.testbit_mod_pow2, Z.lor_spec, Z.testbit_ones_nonneg by lia.
  destruct (Z.ltb_spec n k) as [Hlt|Hge].
  - rewrite Z.shiftl_spec_low by lia.
    replace (n <? m) with true by (symmetry; apply Z.ltb_lt; lia).
    simpl. now rewrite andb_true_r.
  - rewrite andb_false_r. symmetry. apply (testbit_small op k n); lia.
Qed.

Lemma shiftr_land_ones_lor_shiftl (x op k w m : Z) :
  0 <= k -> 0 <= w -> k + w <= m -> 0 <= op < 2 ^ k -> 0 <= x < 2 ^ w ->
  Z.land (Z.shiftr (Z.lor (Z.shiftl x k) op mod 2 ^ m) k) (Z.ones w) = x.
Proof.
  intros Hk Hw Hm Hop Hx. apply Z.bits_inj'. intros n Hn.
  rewrite Z.land_spec, Z.shiftr_spec, Z.testbit_mod_pow2, Z.lor_spec,
    Z.testbit_ones_nonneg by lia.
  rewrite Z.shiftl_spec by lia. replace (n + k - k) with n by lia.
  rewrite (testbit_small op k (n + k)) by lia. rewrite orb_false_r.
  destruct (Z.ltb_spec n w) as [Hlt|Hge].
  - replace (n + k <? m) with true by (symmetry; apply Z.ltb_lt; lia).
    simpl. now rewrite andb_true_r.
  - rewrite andb_false_r. symmetry. apply (testbit_small x w n); lia.
Qed.

Lemma dec_op_enc_abc (op abc : Z) :
  is_opcode op -> DUK_DEC_OP (wrap32 (DUK_ENC_OP_ABC op abc)) = op.
Proof.
  intros Hop. unfold DUK_DEC_OP, wrap32, DUK_ENC_OP_ABC.
  change 0x3f with (Z.ones 6). apply land_ones_lor_shiftl; unfold is_opcode in Hop; lia.
Qed.

Lemma dec_abc_enc_abc (op abc : Z) :
  is_opcode op -> 0 <= abc < 2 ^ 26 ->
  DUK_DEC_ABC (wrap32 (DUK_ENC_OP_ABC op abc)) = abc.
Proof.
  intros Hop Habc. unfold DUK_DEC_ABC, wrap32, DUK_ENC_OP_ABC.
  change 0x3ffffff with (Z.ones 26).
  apply shiftr_land_ones_lor_shiftl; unfold is_opcode in Hop; lia.
Qed.

(** A, B and C packed above the opcode form the ABC field. *)
Lemma enc_a_b_c_as_abc (op a b c : Z) :
  DUK_ENC_OP_A_B_C op a b c =
  DUK_ENC_OP_ABC op (Z.lor (Z.lor (Z.shiftl c 17) (Z.shiftl b 8)) a).
Proof.
  unfold DUK_ENC_OP_A_B_C, DUK_ENC_OP_ABC.
  rewrite !Z.shiftl_lor, !Z.shiftl_shiftl by lia. reflexivity.
Qed.

(** OR-ing more bits above the opcode field does not change the opcode. *)
Lemma dec_op_lor_high (hi x op : Z) :
  is_opcode op ->
  DUK_DEC_OP (wrap32 (Z.lor (Z.shiftl hi 6) (DUK_ENC_OP_ABC op x))) = op.
Proof.
  intros Hop. unfold DUK_ENC_OP_ABC.
  rewrite Z.lor_assoc, <- Z.shiftl_lor. apply (dec_op_enc_abc op _ Hop).
Qed.

Lemma dec_a_lor_high (hi x a op : Z) :
  is_opcode op -> 0 <= a <= 0xff ->
  DUK_DEC_A (wrap32 (Z.lor (Z.shiftl hi 14)
                       (DUK_ENC_OP_ABC op (Z.lor (Z.shiftl x 8) a)))) = a.
Proof.
  intros Hop Ha. unfold DUK_DEC_A, wrap32, DUK_ENC_OP_ABC, is_opcode in *.
  change 0xff with (Z.ones 8). apply Z.bits_inj'. intros n Hn.
  rewrite Z.land_spec, Z.shiftr_spec, Z.testbit_mod_pow2, !Z.lor_spec,
    Z.testbit_ones_nonneg by lia.
  rewrite (Z.shiftl_spec _ 6), Z.lor_spec by lia.
  replace (n + 6 - 6) with n by lia.
  rewrite (testbit_small op 6 (n + 6)) by lia. rewrite orb_false_r.
  destruct (Z.ltb_spec n 8) as [Hlt|Hge].
  - rewrite !Z.shiftl_spec_low by lia.
    replace (n + 6 <? 32) with true by (symmetry; apply Z.ltb_lt; lia).
    simpl. now rewrite andb_true_r.
  - rewrite andb_false_r. symmetry. apply (testbit_small a 8 n); lia.
Qed.

(** Setting flag bits of slot A in an existing word. *)
Lemma dec_op_set_a_flag (w flag : Z) :
  DUK_DEC_OP (wrap32 (Z.lor w (DUK_ENC_OP_A_B_C 0 flag 0 0))) = DUK_DEC_OP w.
Proof.
  unfold DUK_DEC_OP, wrap32, DUK_ENC_OP_A_B_C. change 0x3f with (Z.ones 6).
  apply Z.bits_inj'. intros n Hn.
  rewrite !Z.land_spec, Z.testbit_mod_pow2, !Z.lor_spec, Z.testbit_ones_nonneg by lia.
  destruct (Z.ltb_spec n 6) as [Hlt|Hge].
  - rewrite !Z.shiftl_spec_low by lia. rewrite Z.bits_0.
    replace (n <? 32) with true by (symmetry; apply Z.ltb_lt; lia).
    simpl. now rewrite !orb_false_r.
  - now rewrite !andb_false_r.
Qed.

Lemma dec_a_set_a_flag (w flag : Z) :
  0 <= flag <= 0xff ->
  DUK_DEC_A (wrap32 (Z.lor w (DUK_ENC_OP_A_B_C 0 flag 0 0))) = Z.lor (DUK_DEC_A w) flag.
Proof.
  intros Hf. unfold DUK_DEC_A, wrap32, DUK_ENC_OP_A_B_C. change 0xff with (Z.ones 8).
  apply Z.bits_inj'. intros n Hn.
  rewrite !Z.shiftl_0_l, !Z.lor_0_l, Z.lor_0_r.
  rewrite Z.lor_spec, !Z.land_spec, !Z.shiftr_spec, Z.testbit_mod_pow2, !Z.lor_spec,
    Z.testbit_ones_nonneg by lia.
  rewrite Z.shiftl_spec by lia. replace (n + 6 - 6) with n by lia.
  destruct (Z.ltb_spec n 8) as [Hlt|Hge].
  - replace (n + 6 <? 32) with true by (symmetry; apply Z.ltb_lt; lia).
    simpl. now rewrite !andb_true_r.
  - rewrite !andb_false_r. simpl. symmetry. apply (testbit_small flag 8 n); lia.
Qed.

(** ** The peephole optimizer *)

Lemma buf_get_of_nat {A : Type} (buf : list A) (i : nat) :
  buf_get buf (Z.of_nat i) = buf !! i.
Proof.
  unfold buf_get. destruct (Z.ltb_spec (Z.of_nat i) 0); [lia|].
  now rewrite Nat2Z.id.
Qed.

Lemma buf_get_Some {A : Type} (buf : list A) (pc : Z) (x : A) :
  buf_get buf pc = Some x <-> 0 <= pc /\ buf !! Z.to_nat pc = Some x.
Proof.
  unfold buf_get. destruct (Z.ltb_spec pc 0); split; intros; try easy; lia.
Qed.

Lemma buf_get_bounds {A : Type} (buf : list A) (pc : Z) (x : A) :
  buf_get buf pc = Some x -> 0 <= pc < Z.of_nat (length buf).
Proof.
  intros [Hpc Hl]%buf_get_Some. apply lookup_lt_Some in Hl. lia.
Qed.

Lemma buf_get_in_bounds {A : Type} (buf : list A) (pc : Z) :
  0 <= pc < Z.of_nat (length buf) -> exists x, buf_get buf pc = Some x.
Proof.
  intros Hpc. destruct (lookup_lt_is_Some_2 buf (Z.to_nat pc)) as [x Hx]; [lia|].
  exists x. apply buf_get_Some. split; [lia|done].
Qed.

Section PeepholeProofs.
Context `{duk_js_bytecode}.
Hypothesis Hwf : bytecode_wf.

(** The word the optimizer writes decodes to a JUMP to [t2]. *)
Lemma peephole_rewritten_word (i n t2 : Z) :
  0 <= i < n -> 0 <= t2 < n -> n <= 2 ^ 25 ->
  let w := wrap32 (DUK_ENC_OP_ABC DUK_OP_JUMP (t2 - (i + 1) + DUK_BC_JUMP_BIAS)) in
  DUK_DEC_OP w = DUK_OP_JUMP /\ jump_target i w = t2.
Proof.
  intros Hi Ht Hn w. subst w. split.
  - apply dec_op_enc_abc, Hwf.
  - unfold jump_target. rewrite dec_abc_enc_abc; [|apply Hwf|];
      unfold DUK_BC_JUMP_BIAS in *; lia.
Qed.

Lemma jumps_in_bounds_insert (bc : list duk_compiler_instr) (i : nat) instr' :
  jumps_in_bounds bc ->
  (DUK_DEC_OP (ins instr') = DUK_OP_JUMP ->
   0 <= jump_target (Z.of_nat i) (ins instr') < Z.of_nat (length bc)) ->
  jumps_in_bounds (<[i := instr']> bc).
Proof.
  intros Hb Hi pc instr Hl Hop. rewrite length_insert.
  destruct (decide (i = pc)) as [->|Hne].
  - destruct (decide (pc < length bc)%nat) as [Hlt|Hge].
    + rewrite list_lookup_insert_eq in Hl by done. injection Hl as <-. auto.
    + rewrite list_insert_ge in Hl by lia. eauto.
  - rewrite list_lookup_insert_ne in Hl by done. eauto.
Qed.

(** One step of the inner loop does what section 4.7 says and keeps the
    jump targets within the code. *)
Lemma peephole_step_spec (bc : list duk_compiler_instr) (i : nat) :
  jumps_in_bounds bc -> Z.of_nat (length bc) <= 2 ^ 25 -> (i < length bc)%nat ->
  exists bc' d,
    duk__peephole_step bc i = Ok (bc', d) /\
    peephole_rewrite bc i bc' d /\
    jumps_in_bounds bc' /\ length bc' = length bc.
Proof.
  intros Hb Hn Hi.
  destruct (lookup_lt_is_Some_2 bc i Hi) as [instr Hinstr].
  unfold duk__peephole_step. rewrite Hinstr.
  destruct (Z.eqb_spec (DUK_DEC_OP (ins instr)) DUK_OP_JUMP) as [Hop|Hop]; simpl.
  2:{ exists bc, 0. split_and!; auto. apply rewrite_nothing.
      intros (x & Hx & Hj & _). congruence. }
  pose proof (Hb i instr Hinstr Hop) as Ht1. unfold jump_target in Ht1.
  destruct (buf_get_in_bounds bc _ Ht1) as [instr1 Hinstr1]. rewrite Hinstr1.
  destruct (Z.eqb_spec (DUK_DEC_OP (ins instr1)) DUK_OP_JUMP) as [Hop1|Hop1]; simpl.
  2:{ exists bc, 0. split_and!; auto. apply rewrite_nothing.
      intros (x & Hx & _ & y & Hy & Hj). unfold jump_target in Hy.
      assert (x = instr) by congruence. subst x. congruence. }
  apply buf_get_Some in Hinstr1 as Hl1. destruct Hl1 as [Hpos Hl1].
  pose proof (Hb _ _ Hl1 Hop1) as Ht2. rewrite Z2Nat.id in Ht2 by done.
  unfold jump_target in Ht2.
  set (t1 := Z.of_nat i + 1 + DUK_DEC_ABC (ins instr) - DUK_BC_JUMP_BIAS) in *.
  set (t2 := t1 + 1 + DUK_DEC_ABC (ins instr1) - DUK_BC_JUMP_BIAS) in *.
  destruct (peephole_rewritten_word (Z.of_nat i) (Z.of_nat (length bc)) t2)
    as [Hop' Htgt']; [lia|lia|lia|].
  eexists _, 1. split; [reflexivity|]. split; [|split].
  - eapply rewrite_jump_chain with (instr1 := instr) (instr_t1 := instr1);
      eauto; reflexivity.
  - apply jumps_in_bounds_insert; [done|]. simpl. intros _. rewrite Htgt'. lia.
  - apply length_insert.
Qed.

Lemma peephole_rewrite_count (bc : list duk_compiler_instr) (i : nat) bc' d :
  peephole_rewrite bc i bc' d -> 0 <= d.
Proof. destruct 1; lia. Qed.

Lemma peephole_pass_spec_count (i : nat) bc bc' c :
  peephole_pass_spec i bc bc' c -> 0 <= c.
Proof.
  induction 1 as [|bc pc1 bc1 d bc2 c Hlt Hrw Hpass IH]; [lia|].
  apply peephole_rewrite_count in Hrw. lia.
Qed.

Lemma peephole_inner_spec (k : nat) :
  forall (i : nat) (bc : list duk_compiler_instr) (count_opt : Z),
    jumps_in_bounds bc -> Z.of_nat (length bc) <= 2 ^ 25 -> (i + k = length bc)%nat ->
    exists bc' c,
      duk__peephole_inner k i bc count_opt = Ok (bc', count_opt + c) /\
      peephole_pass_spec i bc bc' c /\
      jumps_in_bounds bc' /\ length bc' = length bc.
Proof.
  induction k as [|k IH]; intros i bc count_opt Hb Hn Hik; simpl.
  - exists bc, 0. rewrite Z.add_0_r. split_and!; auto. apply pass_end. lia.
  - destruct (peephole_step_spec bc i Hb Hn) as (bc1 & d & Hstep & Hrw & Hb1 & Hlen1);
      [lia|].
    rewrite Hstep. simpl.
    destruct (IH (S i) bc1 (count_opt + d) Hb1) as (bc2 & c & Hin & Hpass & Hb2 & Hlen2);
      [lia|lia|].
    exists bc2, (d + c). rewrite Hin, Z.add_assoc. split_and!; auto; [|lia].
    eapply pass_next; eauto. lia.
Qed.

(** A pass that counts no rewrite leaves the code as it is, and then no
    JUMP from [i] on targets a JUMP. *)
Lemma peephole_pass_spec_zero (i : nat) bc bc' c :
  peephole_pass_spec i bc bc' c -> c = 0 ->
  bc' = bc /\ forall j : nat, (i <= j)%nat -> ~ jump_to_jump_at bc j.
Proof.
  induction 1 as [bc pc1 Hpc|bc pc1 bc1 d bc2 c Hlt Hrw Hpass IH]; intros Hc.
  - split; [done|]. intros j Hj (x & Hx & _). apply lookup_lt_Some in Hx. lia.
  - pose proof (peephole_rewrite_count _ _ _ _ Hrw).
    pose proof (peephole_pass_spec_count _ _ _ _ Hpass).
    assert (d = 0) by lia. assert (c = 0) by lia. subst d c.
    inversion Hrw as [| Hno]; subst.
    destruct (IH eq_refl) as [-> Hrest]. split; [done|].
    intros j Hj. destruct (decide (j = pc1)) as [->|Hne]; [done|].
    apply Hrest. lia.
Qed.

Lemma peephole_outer_spec (iters : nat) :
  forall bc : list duk_compiler_instr,
    jumps_in_bounds bc -> Z.of_nat (length bc) <= 2 ^ 25 ->
    exists bc' fixpoint,
      duk__peephole_outer iters bc = Ok (bc', fixpoint) /\
      peephole_spec iters bc bc' /\
      jumps_in_bounds bc' /\ length bc' = length bc /\
      (fixpoint = true -> no_jump_to_jump bc').
Proof.
  induction iters as [|iters IH]; intros bc Hb Hn; simpl.
  - exists bc, false. split_and!; auto; [constructor|discriminate].
  - unfold duk__peephole_pass.
    destruct (peephole_inner_spec (length bc) 0 bc 0 Hb Hn eq_refl)
      as (bc1 & c & Hin & Hpass & Hb1 & Hlen1).
    rewrite Z.add_0_l in Hin. rewrite Hin. simpl.
    destruct (Z.eqb_spec c 0) as [->|Hc].
    + exists bc1, true. split_and!; auto.
      * now apply peephole_no_changes.
      * intros _ pc1. destruct (peephole_pass_spec_zero _ _ _ _ Hpass eq_refl) as [-> Hz].
        apply Hz. lia.
    + destruct (IH bc1 Hb1) as (bc2 & fx & Hout & Hspec & Hb2 & Hlen2 & Hfix); [lia|].
      exists bc2, fx. rewrite Hout. split_and!; auto; [|lia].
      eapply peephole_another_pass; eauto.
Qed.

(** What the optimizer never does: change the length of the code or touch
    an instruction that is not a JUMP.  No assumption on the code. *)
Lemma peephole_step_keeps (bc : list duk_compiler_instr) (i : nat) bc' d :
  duk__peephole_step bc i = Ok (bc', d) ->
  length bc' = length bc /\
  forall (j : nat) instr,
    bc !! j = Some instr -> DUK_DEC_OP (ins instr) <> DUK_OP_JUMP ->
    bc' !! j = Some instr.
Proof.
  unfold duk__peephole_step. destruct (bc !! i) as [instr|] eqn:Hinstr; [|discriminate].
  destruct (Z.eqb_spec (DUK_DEC_OP (ins instr)) DUK_OP_JUMP) as [Hop|Hop]; simpl.
  2:{ intros [= <- <-]. auto. }
  destruct (buf_get bc _) as [instr1|]; [|discriminate].
  destruct (negb _); intros [= <- <-]; [auto|].
  split; [apply length_insert|]. intros j x Hx Hnj.
  destruct (decide (i = j)) as [->|Hne]; [congruence|].
  now rewrite list_lookup_insert_ne.
Qed.

Lemma peephole_inner_keeps (k : nat) :
  forall (i : nat) bc count_opt bc' c,
    duk__peephole_inner k i bc count_opt = Ok (bc', c) ->
    length bc' = length bc /\
    forall (j : nat) instr,
      bc !! j = Some instr -> DUK_DEC_OP (ins instr) <> DUK_OP_JUMP ->
      bc' !! j = Some instr.
Proof.
  induction k as [|k IH]; intros i bc count_opt bc' c; simpl.
  - intros [= <- <-]. auto.
  - destruct (duk__peephole_step bc i) as [[bc1 d]| | |] eqn:Hstep; try discriminate.
    simpl. intros Hin. apply peephole_step_keeps in Hstep as [Hlen1 Hk1].
    apply IH in Hin as [Hlen2 Hk2]. split; [lia|]. eauto.
Qed.

Lemma peephole_outer_keeps (iters : nat) :
  forall bc bc' fixpoint,
    duk__peephole_outer iters bc = Ok (bc', fixpoint) ->
    length bc' = length bc /\
    forall (j : nat) instr,
      bc !! j = Some instr -> DUK_DEC_OP (ins instr) <> DUK_OP_JUMP ->
      bc' !! j = Some instr.
Proof.
  induction iters as [|iters IH]; intros bc bc' fx; simpl.
  - intros [= <- <-]. auto.
  - unfold duk__peephole_pass.
    destruct (duk__peephole_inner _ _ _ _) as [[bc1 c]| | |] eqn:Hin; try discriminate.
    simpl. apply peephole_inner_keeps in Hin as [Hlen1 Hk1].
    destruct (c =? 0).
    + intros [= <- <-]. auto.
    + intros Hout. apply IH in Hout as [Hlen2 Hk2]. split; [lia|]. eauto.
Qed.

End PeepholeProofs.

Lemma jumps_in_bounds_from_ok `{duk_js_bytecode} (n : Z) (l : list duk_compiler_instr) :
  forall pc : Z,
    jumps_in_bounds_from n pc l = true ->
    forall (i : nat) instr,
      l !! i = Some instr -> DUK_DEC_OP (ins instr) = DUK_OP_JUMP ->
      0 <= jump_target (pc + Z.of_nat i) (ins instr) < n.
Proof.
  induction l as [|x l IH]; intros pc Hl i instr Hi Hop; [done|].
  simpl in Hl. apply andb_true_iff in Hl as [Hx Hl].
  destruct i as [|i]; simpl in Hi.
  - injection Hi as ->. rewrite Z.add_0_r.
    apply Z.eqb_eq in Hop. rewrite Hop in Hx.
    apply andb_true_iff in Hx as [?%Z.leb_le ?%Z.ltb_lt]. lia.
  - replace (pc + Z.of_nat (S i)) with (pc + 1 + Z.of_nat i) by lia. eauto.
Qed.

Lemma jumps_in_boundsb_ok `{duk_js_bytecode} (bc : list duk_compiler_instr) :
  jumps_in_boundsb bc = true -> jumps_in_bounds bc.
Proof.
  intros Hb pc instr Hl Hop.
  apply (jumps_in_bounds_from_ok _ _ 0 Hb pc instr Hl Hop).
Qed.

(** ** The claims about the peephole optimizer *)

Section PeepholeClaims.
Context `{duk_js_bytecode}.

(** C4: the peephole optimizer performs up to DUK_COMPILER_PEEPHOLE_MAXITER
    passes; in each pass, for every instruction at pc1 that is a JUMP to t1
    where the instruction at t1 is a JUMP to t2, the instruction at pc1 is
    rewritten in place into a JUMP to t2 (the code keeps its length); it
    stops after the first pass that rewrites nothing or when the cap is
    reached.  Stated for code whose jump targets lie inside the code and
    whose length the 26-bit jump field can span. *)
Theorem peephole_follows_section_4_7 :
  bytecode_wf ->
  forall comp_ctx : duk_compiler_ctx,
    jumps_in_bounds (h_code (curr_func comp_ctx)) ->
    Z.of_nat (length (h_code (curr_func comp_ctx))) <= 2 ^ 25 ->
    exists bc',
      duk__peephole_optimize_bytecode comp_ctx = Ok (upd_func (set_h_code bc') comp_ctx) /\
      peephole_spec (Z.to_nat DUK_COMPILER_PEEPHOLE_MAXITER)
        (h_code (curr_func comp_ctx)) bc' /\
      length bc' = length (h_code (curr_func comp_ctx)).
Proof.
  intros Hwf comp_ctx Hb Hn.
  destruct (peephole_outer_spec Hwf (Z.to_nat DUK_COMPILER_PEEPHOLE_MAXITER) _ Hb Hn)
    as (bc' & fx & Hout & Hspec & _ & Hlen & _).
  exists bc'. unfold duk__peephole_optimize_bytecode. rewrite Hout. auto.
Qed.


End PeepholeClaims.

Section SampleChecks.
#[local] Existing Instance duk_bytecode_sample.

Lemma duk_bytecode_sample_wf : bytecode_wf.
Proof. constructor; unfold is_opcode; cbn; repeat split; lia || discriminate. Qed.

Lemma peephole_follows_section_4_7_witness :
  bytecode_wf /\
  jumps_in_bounds (h_code (curr_func (sample_ctx_with_code forever_loop_code))) /\
  Z.of_nat (length (h_code (curr_func (sample_ctx_with_code forever_loop_code))))
    <= 2 ^ 25 /\
  exists bc',
    duk__peephole_optimize_bytecode (sample_ctx_with_code forever_loop_code)
      = Ok (upd_func (set_h_code bc') (sample_ctx_with_code forever_loop_code)) /\
    peephole_spec (Z.to_nat DUK_COMPILER_PEEPHOLE_MAXITER)
      (h_code (curr_func (sample_ctx_with_code forever_loop_code))) bc' /\
    length bc' = length (h_code (curr_func (sample_ctx_with_code forever_loop_code))).
Proof.
  assert (Hwf : bytecode_wf)
    by (constructor; unfold is_opcode; cbn; repeat split; lia || discriminate).
  assert (Hb : jumps_in_bounds
                 (h_code (curr_func (sample_ctx_with_code forever_loop_code))))
    by (apply jumps_in_boundsb_ok; vm_compute; reflexivity).
  assert (Hn : Z.of_nat (length (h_code (curr_func
                 (sample_ctx_with_code forever_loop_code)))) <= 2 ^ 25)
    by (vm_compute; discriminate).
  split; [exact Hwf|]. split; [exact Hb|]. split; [exact Hn|].
  exact (peephole_follows_section_4_7 Hwf (sample_ctx_with_code forever_loop_code) Hb Hn).
Defined.



End SampleChecks.

(** ** Left binding power of a postfix operator after a line terminator *)

Section ExprLbp.
Variable duk_lexer_parse_js_input_element :
  duk_lexer_ctx -> bool -> bool -> outcome (duk_lexer_ctx * duk_token).
Variable duk__expr_led : duk_compiler_ctx -> outcome duk_compiler_ctx.

(** C8: when the current token is ++ or -- and its lineterm flag is set,
    duk__expr_lbp() returns 0, and the led loop of duk__expr() then stops at
    once, with the context untouched and the operator not consumed, for
    every right binding power. *)
Theorem expr_lbp_postfix_after_lineterm (comp_ctx : duk_compiler_ctx) :
  t (curr_token comp_ctx) = DUK_TOK_INCREMENT \/
  t (curr_token comp_ctx) = DUK_TOK_DECREMENT ->
  lineterm (curr_token comp_ctx) = true ->
  duk__expr_lbp comp_ctx = Ok 0 /\
  forall (fuel : nat) (rbp_flags : Z),
    duk__expr_led_loop duk_lexer_parse_js_input_element duk__expr_led fuel comp_ctx
      (Z.land rbp_flags DUK__EXPR_RBP_MASK) = Ok comp_ctx.
Proof.
  intros Htok Hlt.
  assert (Hlbp : duk__expr_lbp comp_ctx = Ok 0).
  { unfold duk__expr_lbp. rewrite Hlt. destruct Htok as [-> | ->]; reflexivity. }
  split; [exact Hlbp|]. intros fuel rbp_flags.
  assert (Hrbp : 0 <= Z.land rbp_flags DUK__EXPR_RBP_MASK)
    by (apply Z.land_nonneg; right; unfold DUK__EXPR_RBP_MASK; lia).
  destruct fuel; simpl; rewrite Hlbp; simpl;
    destruct (Z.ltb_spec (Z.land rbp_flags DUK__EXPR_RBP_MASK) 0); (lia || reflexivity).
Qed.

End ExprLbp.

Lemma expr_lbp_postfix_after_lineterm_witness :
  (t (curr_token ctx_postfix_after_lineterm) = DUK_TOK_INCREMENT \/
   t (curr_token ctx_postfix_after_lineterm) = DUK_TOK_DECREMENT) /\
  lineterm (curr_token ctx_postfix_after_lineterm) = true /\
  duk__expr_lbp ctx_postfix_after_lineterm = Ok 0 /\
  forall (fuel : nat) (rbp_flags : Z),
    duk__expr_led_loop sample_lexer sample_expr_led fuel ctx_postfix_after_lineterm
      (Z.land rbp_flags DUK__EXPR_RBP_MASK) = Ok ctx_postfix_after_lineterm.
Proof.
  assert (H1 : t (curr_token ctx_postfix_after_lineterm) = DUK_TOK_INCREMENT \/
               t (curr_token ctx_postfix_after_lineterm) = DUK_TOK_DECREMENT)
    by (left; reflexivity).
  assert (H2 : lineterm (curr_token ctx_postfix_after_lineterm) = true) by reflexivity.
  split; [exact H1|]. split; [exact H2|].
  exact (expr_lbp_postfix_after_lineterm sample_lexer sample_expr_led
           ctx_postfix_after_lineterm H1 H2).
Defined.

(** ** The constant pool *)

Lemma duk_js_samevalue_true (x y : duk_primitive) :
  duk_js_samevalue x y = true <-> x = y.
Proof. unfold duk_js_samevalue. apply bool_decide_eq_true. Qed.

Lemma duk_js_samevalue_false (x y : duk_primitive) :
  duk_js_samevalue x y = false <-> x <> y.
Proof. unfold duk_js_samevalue. apply bool_decide_eq_false. Qed.

Lemma getconst_scan_None (tv1 : duk_primitive) (consts : list duk_primitive) (k : nat) :
  forall i : nat,
    duk__getconst_scan tv1 consts k i = None ->
    forall (j : nat) x,
      (i <= j < i + k)%nat -> consts !! j = Some x -> duk_js_samevalue tv1 x = false.
Proof.
  induction k as [|k IH]; intros i Hscan j x Hj Hx; [lia|].
  simpl in Hscan. destruct (consts !! i) as [tv2|] eqn:Hi.
  - destruct (duk_js_samevalue tv1 tv2) eqn:Hsame; [discriminate|].
    destruct (decide (j = i)) as [->|Hne]; [congruence|].
    apply (IH (S i) Hscan j x); [lia|done].
  - apply lookup_ge_None in Hi. apply lookup_lt_Some in Hx. lia.
Qed.

Lemma getconst_scan_Some (tv1 : duk_primitive) (consts : list duk_primitive) (k : nat) :
  forall i j : nat,
    duk__getconst_scan tv1 consts k i = Some j ->
    (i <= j < i + k)%nat /\ consts !! j = Some tv1 /\
    forall (j' : nat) x,
      (i <= j' < j)%nat -> consts !! j' = Some x -> duk_js_samevalue tv1 x = false.
Proof.
  induction k as [|k IH]; intros i j Hscan; [discriminate|].
  simpl in Hscan. destruct (consts !! i) as [tv2|] eqn:Hi; [|discriminate].
  destruct (duk_js_samevalue tv1 tv2) eqn:Hsame.
  - injection Hscan as <-. apply duk_js_samevalue_true in Hsame as <-.
    split; [lia|]. split; [done|]. intros; lia.
  - destruct (IH (S i) j Hscan) as (Hj & Hl & Hbefore).
    split; [lia|]. split; [done|]. intros j' x Hj' Hx.
    destruct (decide (j' = i)) as [->|Hne]; [congruence|].
    apply (Hbefore j' x); [lia|done].
Qed.

(** The number of entries the scan looks at. *)
Lemma getconst_window (n : Z) :
  0 <= n ->
  Z.to_nat (if n >? DUK__GETCONST_MAX_CONSTS_CHECK
            then DUK__GETCONST_MAX_CONSTS_CHECK else n)
  = Nat.min (Z.to_nat n) 256.
Proof.
  intros Hn. unfold DUK__GETCONST_MAX_CONSTS_CHECK.
  destruct (Z.gtb_spec n 256); lia.
Qed.

(** C1, as amended: duk__getconst() scans the first
    DUK__GETCONST_MAX_CONSTS_CHECK (256) entries only.  In a pool where no
    entry of that window is SameValue to a later entry, interning a value
    that is SameValue to an entry of the window returns that entry's index
    and leaves the pool as it is, and whatever duk__getconst() does keeps the
    pool in that shape. *)
Theorem getconst_dedups_within_window
    (comp_ctx : duk_compiler_ctx) (tv1 : duk_primitive) :
  consts_window_unique (h_consts (curr_func comp_ctx)) ->
  (forall (i : nat) tv2,
     Z.of_nat i < DUK__GETCONST_MAX_CONSTS_CHECK ->
     h_consts (curr_func comp_ctx) !! i = Some tv2 ->
     duk_js_samevalue tv1 tv2 = true ->
     duk__getconst comp_ctx tv1 = Ok (Z.lor (Z.of_nat i) DUK__CONST_MARKER, comp_ctx)) /\
  (forall r comp_ctx',
     duk__getconst comp_ctx tv1 = Ok (r, comp_ctx') ->
     consts_window_unique (h_consts (curr_func comp_ctx'))).
Proof.
  intros Huniq. unfold duk__getconst.
  set (consts := h_consts (curr_func comp_ctx)) in *.
  rewrite getconst_window by lia. rewrite Nat2Z.id.
  split.
  - intros i tv2 Hi Hl Hsame. apply duk_js_samevalue_true in Hsame as <-.
    unfold DUK__GETCONST_MAX_CONSTS_CHECK in Hi.
    pose proof (lookup_lt_Some _ _ _ Hl) as Hlen.
    destruct (duk__getconst_scan tv1 consts _ 0) as [j|] eqn:Hscan.
    + apply getconst_scan_Some in Hscan as (Hj & Hlj & Hbefore).
      destruct (Nat.lt_trichotomy i j) as [Hlt|[->|Hgt]]; [| reflexivity |].
      * pose proof (Hbefore i tv1 ltac:(lia) Hl) as Hf.
        apply duk_js_samevalue_false in Hf. done.
      * pose proof (Huniq j i tv1 tv1 Hgt ltac:(unfold DUK__GETCONST_MAX_CONSTS_CHECK; lia)
                      Hlj Hl) as Hf.
        apply duk_js_samevalue_false in Hf. done.
    + pose proof (getconst_scan_None _ _ _ _ Hscan i tv1 ltac:(lia) Hl) as Hf.
      apply duk_js_samevalue_false in Hf. done.
  - intros r comp_ctx'.
    destruct (duk__getconst_scan tv1 consts _ 0) as [j|] eqn:Hscan.
    + intros [= _ <-]. exact Huniq.
    + destruct (_ >=? _); [discriminate|]. intros [= _ <-]. simpl.
      fold consts. intros i j x y Hij Hi Hx Hy.
      unfold DUK__GETCONST_MAX_CONSTS_CHECK in Hi.
      pose proof (lookup_lt_Some _ _ _ Hy) as Hjlen. rewrite length_app in Hjlen.
      simpl in Hjlen.
      destruct (decide (j < length consts)%nat) as [Hj|Hj].
      * rewrite lookup_app_l in Hx, Hy by lia. eauto.
      * assert (j = length consts) by lia. subst j.
        rewrite lookup_app_l in Hx by lia.
        rewrite lookup_app_r, Nat.sub_diag in Hy by lia. injection Hy as <-.
        pose proof (getconst_scan_None _ _ _ _ Hscan i x ltac:(lia) Hx) as Hf.
        apply duk_js_samevalue_false in Hf. apply duk_js_samevalue_false. congruence.
Qed.

Lemma getconst_dedups_within_window_witness :
  consts_window_unique (h_consts (curr_func ctx_257_consts)) /\
  (forall (i : nat) tv2,
     Z.of_nat i < DUK__GETCONST_MAX_CONSTS_CHECK ->
     h_consts (curr_func ctx_257_consts) !! i = Some tv2 ->
     duk_js_samevalue (DUK_TAG_STRING "7") tv2 = true ->
     duk__getconst ctx_257_consts (DUK_TAG_STRING "7")
       = Ok (Z.lor (Z.of_nat i) DUK__CONST_MARKER, ctx_257_consts)) /\
  (forall r comp_ctx',
     duk__getconst ctx_257_consts (DUK_TAG_STRING "7") = Ok (r, comp_ctx') ->
     consts_window_unique (h_consts (curr_func comp_ctx'))).
Proof.
  assert (Huniq : consts_window_unique (h_consts (curr_func ctx_257_consts))).
  { intros i j x y Hij Hi Hx Hy. apply duk_js_samevalue_false. intros ->.
    assert (Hnd : bool_decide (NoDup (h_consts (curr_func ctx_257_consts))) = true)
      by (vm_compute; reflexivity).
    apply bool_decide_eq_true in Hnd.
    pose proof (NoDup_lookup _ i j y Hnd Hx Hy). lia. }
  split; [exact Huniq|].
  exact (getconst_dedups_within_window ctx_257_consts (DUK_TAG_STRING "7") Huniq).
Defined.

(** C1 as stated fails once the pool has more than 256 entries: after the
    constants "0" ... "256" were interned, interning "256" again does not
    find the entry at index 256, appends a second one at index 257, and the
    finalized template holds both. *)
Lemma getconst_appends_duplicate_outside_window :
  exists comp_ctx',
    duk__getconst ctx_257_consts (DUK_TAG_STRING "256")
      = Ok (Z.lor 257 DUK__CONST_MARKER, comp_ctx') /\
    tmpl_consts (duk__convert_to_func_template comp_ctx') !! 256%nat
      = Some (DUK_TAG_STRING "256") /\
    tmpl_consts (duk__convert_to_func_template comp_ctx') !! 257%nat
      = Some (DUK_TAG_STRING "256") /\
    duk_js_samevalue (DUK_TAG_STRING "256") (DUK_TAG_STRING "256") = true.
Proof.
  eexists. split; [vm_compute; reflexivity|].
  split; [vm_compute; reflexivity|]. split; vm_compute; reflexivity.
Qed.

(** ** Resource limits *)

(** Executable form of "[tv1] is SameValue to none of the first 256
    entries". *)
Lemma not_in_window_check (tv1 : duk_primitive) (consts : list duk_primitive) :
  forallb (fun tv2 => negb (duk_js_samevalue tv1 tv2)) (take 256 consts) = true ->
  forall (i : nat) tv2,
    Z.of_nat i < DUK__GETCONST_MAX_CONSTS_CHECK ->
    consts !! i = Some tv2 ->
    duk_js_samevalue tv1 tv2 = false.
Proof.
  intros Hall i tv2 Hi Hl. unfold DUK__GETCONST_MAX_CONSTS_CHECK in Hi.
  rewrite forallb_forall in Hall. apply negb_true_iff, Hall, list_elem_of_In.
  apply (list_elem_of_lookup_2 _ i). rewrite lookup_take_lt by lia. exact Hl.
Qed.

Section Limits.
Context `{duk_js_bytecode}.
Variable duk_lexer_parse_js_input_element :
  duk_lexer_ctx -> bool -> bool -> outcome (duk_lexer_ctx * duk_token).
Variable duk__parse_stmt : duk_compiler_ctx -> bool -> outcome duk_compiler_ctx.
Variable DUK_HSTRING_HAS_RESERVED_WORD : duk_hstring -> bool.
Variable duk_js_tostring_number : spec_float -> string.

Local Abbreviation parse_func_like_raw :=
  (duk__parse_func_like_raw duk_lexer_parse_js_input_element duk__parse_stmt
     DUK_HSTRING_HAS_RESERVED_WORD duk_js_tostring_number).
Local Abbreviation parse_func_like_fnum :=
  (duk__parse_func_like_fnum duk_lexer_parse_js_input_element duk__parse_stmt
     DUK_HSTRING_HAS_RESERVED_WORD duk_js_tostring_number).

(** C2, as amended: exceeding a bounded resource makes the compilation fail
    with an error of kind InternalError: a temp register allocation that
    takes temp_next above DUK__MAX_TEMPS; a new constant (one the scan of the
    first 256 entries does not find) when the pool already holds
    DUK__MAX_CONSTS entries; an inner function, parsed in pass 1, when
    DUK__MAX_FUNCS function numbers are taken. *)
Theorem resource_limits_throw_internal_error :
  (forall comp_ctx num,
     temp_next (curr_func comp_ctx) + num > DUK__MAX_TEMPS ->
     throws_kind (duk__alloctemps comp_ctx num) DUK_ERR_INTERNAL_ERROR) /\
  (forall comp_ctx tv1,
     Z.of_nat (length (h_consts (curr_func comp_ctx))) >= DUK__MAX_CONSTS ->
     (forall (i : nat) tv2,
        Z.of_nat i < DUK__GETCONST_MAX_CONSTS_CHECK ->
        h_consts (curr_func comp_ctx) !! i = Some tv2 ->
        duk_js_samevalue tv1 tv2 = false) ->
     throws_kind (duk__getconst comp_ctx tv1) DUK_ERR_INTERNAL_ERROR) /\
  (forall fuel comp_ctx is_decl is_setget tmpl comp_ctx',
     in_scanning (curr_func comp_ctx) = true ->
     fnum_next (curr_func comp_ctx) >= DUK__MAX_FUNCS ->
     parse_func_like_raw fuel
       (set_curr_func (duk__inner_func_state (curr_func comp_ctx) is_decl is_setget)
          comp_ctx) is_decl is_setget = Ok (tmpl, comp_ctx') ->
     throws_kind (parse_func_like_fnum fuel comp_ctx is_decl is_setget)
       DUK_ERR_INTERNAL_ERROR).
Proof.
  split; [|split].
  - intros comp_ctx num Hover. unfold duk__alloctemps. simpl.
    destruct (Z.gtb_spec (temp_next (curr_func comp_ctx) + num) DUK__MAX_TEMPS); [|lia].
    eexists. split; reflexivity.
  - intros comp_ctx tv1 Hfull Hnew. unfold duk__getconst.
    rewrite getconst_window by lia. rewrite Nat2Z.id.
    destruct (duk__getconst_scan tv1 _ _ 0) as [j|] eqn:Hscan.
    + apply getconst_scan_Some in Hscan as (Hj & Hl & _).
      assert (Hf : duk_js_samevalue tv1 tv1 = false)
        by (apply (Hnew j tv1); [unfold DUK__GETCONST_MAX_CONSTS_CHECK; lia|done]).
      apply duk_js_samevalue_false in Hf. done.
    + destruct (Z.geb_spec (Z.of_nat (length (h_consts (curr_func comp_ctx))))
                  DUK__MAX_CONSTS); [|lia].
      eexists. split; reflexivity.
  - intros fuel comp_ctx is_decl is_setget tmpl comp_ctx' Hscan Hfull Hraw.
    unfold duk__parse_func_like_fnum. rewrite Hscan. simpl. rewrite Hraw. simpl.
    destruct (Z.geb_spec (fnum_next (curr_func comp_ctx)) DUK__MAX_FUNCS); [|lia].
    eexists. split; reflexivity.
Qed.

End Limits.

Section LimitsChecks.
#[local] Existing Instance duk_bytecode_sample.

Lemma resource_limits_throw_internal_error_witness :
  temp_next (curr_func ctx_at_limits) + 1 > DUK__MAX_TEMPS /\
  throws_kind (duk__alloctemps ctx_at_limits 1) DUK_ERR_INTERNAL_ERROR /\
  Z.of_nat (length (h_consts (curr_func ctx_at_limits))) >= DUK__MAX_CONSTS /\
  throws_kind (duk__getconst ctx_at_limits (DUK_TAG_STRING "1")) DUK_ERR_INTERNAL_ERROR /\
  in_scanning (curr_func ctx_at_limits) = true /\
  fnum_next (curr_func ctx_at_limits) >= DUK__MAX_FUNCS /\
  throws_kind
    (duk__parse_func_like_fnum sample_lexer sample_parse_stmt sample_reserved_word
       sample_tostring_number 4 ctx_at_limits false false)
    DUK_ERR_INTERNAL_ERROR.
Proof.
  pose proof (resource_limits_throw_internal_error sample_lexer sample_parse_stmt
                sample_reserved_word sample_tostring_number) as (Htemps & Hconsts & Hfuncs).
  assert (H1 : temp_next (curr_func ctx_at_limits) + 1 > DUK__MAX_TEMPS)
    by (vm_compute; reflexivity).
  assert (H2 : Z.of_nat (length (h_consts (curr_func ctx_at_limits))) >= DUK__MAX_CONSTS)
    by (vm_compute; discriminate).
  assert (H3 : forall (i : nat) tv2,
             Z.of_nat i < DUK__GETCONST_MAX_CONSTS_CHECK ->
             h_consts (curr_func ctx_at_limits) !! i = Some tv2 ->
             duk_js_samevalue (DUK_TAG_STRING "1") tv2 = false)
    by (apply not_in_window_check; vm_compute; reflexivity).
  assert (H4 : in_scanning (curr_func ctx_at_limits) = true) by reflexivity.
  assert (H5 : fnum_next (curr_func ctx_at_limits) >= DUK__MAX_FUNCS)
    by (vm_compute; discriminate).
  split; [exact H1|]. split; [exact (Htemps ctx_at_limits 1 H1)|].
  split; [exact H2|]. split; [exact (Hconsts ctx_at_limits _ H2 H3)|].
  split; [exact H4|]. split; [exact H5|].
  refine (Hfuncs 4%nat ctx_at_limits false false _ _ H4 H5 _).
  vm_compute. reflexivity.
Defined.

(** C2 as stated fails: the three limits throw, but the error is created
    with DUK_ERR_INTERNAL_ERROR, not DUK_ERR_RANGE_ERROR. *)
Lemma resource_limits_do_not_throw_range_error :
  (exists e, duk__alloctemps ctx_at_limits 1 = Throw e /\
             error_kind e <> Some DUK_ERR_RANGE_ERROR) /\
  (exists e, duk__getconst ctx_at_limits (DUK_TAG_STRING "1") = Throw e /\
             error_kind e <> Some DUK_ERR_RANGE_ERROR) /\
  (exists e, duk__parse_func_like_fnum sample_lexer sample_parse_stmt
               sample_reserved_word sample_tostring_number 4 ctx_at_limits false false
             = Throw e /\
             error_kind e <> Some DUK_ERR_RANGE_ERROR).
Proof.
  split; [|split]; eexists; (split; [vm_compute; reflexivity | discriminate]).
Qed.

End LimitsChecks.

(** ** Emitting a RETURN *)

Lemma has_flag_small (x k j : Z) :
  0 <= x < 2 ^ k -> 0 <= k <= j -> has_flag x (Z.shiftl 1 j) = false.
Proof.
  intros Hx Hk. unfold has_flag. rewrite Z.shiftl_1_l.
  replace (Z.land x (2 ^ j)) with 0; [reflexivity|].
  symmetry. apply Z.bits_inj'. intros n Hn.
  rewrite Z.land_spec, Z.bits_0, Z.pow2_bits_eqb by lia.
  destruct (Z.eqb_spec j n) as [<-|Hne]; [|apply andb_false_r].
  rewrite (testbit_small x k j) by lia. reflexivity.
Qed.

Lemma has_marker_register (b : Z) :
  0 <= b <= DUK_BC_BC_MAX -> has_flag b DUK__CONST_MARKER = false.
Proof.
  intros Hb. change DUK__CONST_MARKER with (Z.shiftl 1 31).
  apply (has_flag_small b 18); unfold DUK_BC_BC_MAX in Hb; lia.
Qed.

Lemma has_marker_constant (b : Z) :
  DUK__CONST_MARKER <= b < 2 ^ 32 -> has_flag b DUK__CONST_MARKER = true.
Proof.
  unfold has_flag, DUK__CONST_MARKER. intros Hb.
  apply negb_true_iff, Z.eqb_neq. intros Hz.
  assert (Hbit : Z.testbit (Z.land b (2 ^ 31)) 31 = false) by (rewrite Hz; apply Z.bits_0).
  rewrite Z.land_spec, Z.pow2_bits_eqb, Z.eqb_refl, andb_true_r in Hbit by lia.
  assert (Htrue : Z.testbit b 31 = true).
  { apply Z.testbit_true; [lia|].
    replace (b / 2 ^ 31) with 1; [reflexivity|].
    apply (Z.div_unique b (2 ^ 31) 1 (b - 2 ^ 31)); lia. }
  congruence.
Qed.

Lemma clear_marker (b : Z) :
  DUK__CONST_MARKER <= b < 2 ^ 32 ->
  Z.land b (Z.lnot DUK__CONST_MARKER) = b - DUK__CONST_MARKER.
Proof.
  unfold DUK__CONST_MARKER. intros Hb.
  replace (b - 2 ^ 31) with (b mod 2 ^ 31)
    by (symmetry; apply (Z.mod_unique b (2 ^ 31) 1 (b - 2 ^ 31)); lia).
  apply Z.bits_inj'. intros n Hn.
  rewrite Z.land_spec, Z.lnot_spec, Z.pow2_bits_eqb, Z.testbit_mod_pow2 by lia.
  destruct (Z.ltb_spec n 31) as [Hlt|Hge].
  - destruct (Z.eqb_spec 31 n); [lia|]. simpl. apply andb_true_r.
  - destruct (Z.eqb_spec 31 n) as [<-|Hne]; simpl; [apply andb_false_r|].
    rewrite (testbit_small b 32 n) by lia. reflexivity.
Qed.

Lemma land_opcode_ff (op : Z) : is_opcode op -> Z.land op 0xff = op.
Proof.
  intros Hop. unfold is_opcode in Hop. change 0xff with (Z.ones 8).
  rewrite Z.land_ones by lia. apply Z.mod_small. lia.
Qed.

(** The opcode and slot A of the main word of duk__emit_a_b_c(), whatever
    const flags were set above bit 14. *)
Lemma main_word_fields (hi op a b c : Z) :
  is_opcode op -> 0 <= a <= 0xff ->
  DUK_DEC_OP (wrap32 (Z.lor (Z.shiftl hi 14) (DUK_ENC_OP_A_B_C op a b c))) = op /\
  DUK_DEC_A (wrap32 (Z.lor (Z.shiftl hi 14) (DUK_ENC_OP_A_B_C op a b c))) = a.
Proof.
  intros Hop Ha. rewrite enc_a_b_c_as_abc. split.
  - replace (Z.shiftl hi 14) with (Z.shiftl (Z.shiftl hi 8) 6)
      by (rewrite Z.shiftl_shiftl by lia; reflexivity).
    apply dec_op_lor_high, Hop.
  - replace (Z.lor (Z.lor (Z.shiftl c 17) (Z.shiftl b 8)) a)
      with (Z.lor (Z.shiftl (Z.lor (Z.shiftl c 9) b) 8) a)
      by (rewrite Z.shiftl_lor, Z.shiftl_shiftl by lia; reflexivity).
    apply dec_a_lor_high; assumption.
Qed.

Section EmitReturn.
Context `{duk_js_bytecode}.
Hypothesis Hwf : bytecode_wf.

Lemma has_flag_return_emit_flags (j : Z) :
  8 <= j -> has_flag DUK_OP_RETURN (Z.shiftl 1 j) = false.
Proof.
  intros Hj. apply (has_flag_small _ 6); [apply Hwf|lia].
Qed.

(** Slot B of a RETURN: no output shuffle, no indirect opcode, the word
    under construction has nothing below bit 14, code is only appended. *)
Lemma emit_slot_b_return (comp_ctx : duk_compiler_ctx) (b : Z) :
  match duk__emit_slot_b comp_ctx DUK_OP_RETURN 0 b with
  | Ok (c, op_flags, w, b', b_out) =>
    op_flags = DUK_OP_RETURN /\ b_out = 0 /\
    (exists hi, w = Z.shiftl hi 14) /\
    (exists pre, h_code (curr_func c) = h_code (curr_func comp_ctx) ++ pre) /\
    curr_token c = curr_token comp_ctx /\
    catch_depth (curr_func c) = catch_depth (curr_func comp_ctx)
  | Throw e => ~ valid_regconst b
  | Undef => False
  | OutOfFuel => False
  end.
Proof.
  pose proof (wf_return_direct Hwf) as (Hcall & Hnew & Hobj & Harr & _).
  pose proof (land_opcode_ff _ (wf_op_return Hwf)) as Hland.
  unfold duk__emit_slot_b.
  change DUK__EMIT_FLAG_NO_SHUFFLE_B with (Z.shiftl 1 9).
  change DUK__EMIT_FLAG_B_IS_TARGET with (Z.shiftl 1 12).
  rewrite !has_flag_return_emit_flags by lia. rewrite Hland.
  destruct (Z.eqb_spec DUK_OP_RETURN DUK_OP_CALL); [done|].
  destruct (Z.eqb_spec DUK_OP_RETURN DUK_OP_NEW); [done|].
  destruct (Z.eqb_spec DUK_OP_RETURN DUK_OP_MPUTOBJ); [done|].
  destruct (Z.eqb_spec DUK_OP_RETURN DUK_OP_MPUTARR); [done|].
  simpl.
  destruct (has_flag b DUK__CONST_MARKER) eqn:Hmark.
  - destruct (Z.leb_spec (Z.land b (Z.lnot DUK__CONST_MARKER)) 0xff).
    + split_and!; auto; [exists 0x100; reflexivity | exists []; now rewrite app_nil_r].
    + destruct (Z.leb_spec (Z.land b (Z.lnot DUK__CONST_MARKER)) DUK_BC_BC_MAX).
      * split_and!; auto; [exists 0; reflexivity | eexists; reflexivity].
      * intros [Hreg|Hconst].
        -- rewrite has_marker_register in Hmark by done. discriminate.
        -- rewrite clear_marker in * by (unfold DUK__CONST_MARKER, DUK_BC_BC_MAX in *; lia).
           lia.
  - destruct (Z.leb_spec b 0xff).
    + split_and!; auto; [exists 0; reflexivity | exists []; now rewrite app_nil_r].
    + destruct (Z.leb_spec b DUK_BC_BC_MAX).
      * split_and!; auto; [exists 0; reflexivity | eexists; reflexivity].
      * intros [Hreg|Hconst]; [lia|].
        rewrite has_marker_constant in Hmark
          by (unfold DUK__CONST_MARKER, DUK_BC_BC_MAX in *; lia).
        discriminate.
Qed.

(** duk__emit_a_b() of a RETURN whose flags fit slot A: if it returns, the
    last instruction of the code is the RETURN with those flags in slot A;
    and it returns for every register or constant operand. *)
Lemma emit_a_b_return (comp_ctx : duk_compiler_ctx) (a b : Z) :
  0 <= a <= 0xff ->
  (forall comp_ctx',
     duk__emit_a_b comp_ctx DUK_OP_RETURN a b = Ok comp_ctx' ->
     exists pre w,
       h_code (curr_func comp_ctx') = h_code (curr_func comp_ctx) ++ pre ++ [w] /\
       DUK_DEC_OP (ins w) = DUK_OP_RETURN /\ DUK_DEC_A (ins w) = a) /\
  (valid_regconst b ->
   exists comp_ctx', duk__emit_a_b comp_ctx DUK_OP_RETURN a b = Ok comp_ctx').
Proof.
  intros Ha. unfold duk__emit_a_b, duk__emit_a_b_c, duk__emit_slot_a.
  unfold DUK_BC_A_MAX. destruct (Z.leb_spec a 0xff); [|lia]. simpl.
  pose proof (emit_slot_b_return comp_ctx b) as Hb.
  destruct (duk__emit_slot_b comp_ctx DUK_OP_RETURN 0 b)
    as [[[[[c op_flags] w] b'] b_out]|e| |]; simpl; try done.
  destruct Hb as (-> & -> & [hi ->] & [pre Hpre] & Htok & _).
  unfold duk__emit_slot_c. simpl.
  rewrite (land_opcode_ff _ (wf_op_return Hwf)).
  destruct (main_word_fields hi DUK_OP_RETURN a b' 0 (wf_op_return Hwf) Ha) as [Hop HA].
  split.
  - intros comp_ctx' [= <-]. eexists pre, _. simpl. rewrite Hpre, <- app_assoc.
    split; [reflexivity|]. simpl. auto.
  - intros _. eexists. reflexivity.
Qed.

End EmitReturn.

(** ** The function body: final RETURN and formal argument checks *)

Lemma bind_Ok {A B : Type} (m : outcome A) (k : A -> outcome B) (b : B) :
  bind m k = Ok b -> exists a, m = Ok a /\ k a = Ok b.
Proof. destruct m; simpl; try discriminate. eauto. Qed.

Lemma has_flag_self (f : Z) : 0 < f -> has_flag f f = true.
Proof.
  intros Hf. unfold has_flag. rewrite Z.land_diag.
  apply negb_true_iff, Z.eqb_neq. lia.
Qed.

Lemma has_flag_lor_r (x f : Z) : 0 < f -> has_flag (Z.lor x f) f = true.
Proof.
  intros Hf. unfold has_flag.
  rewrite Z.land_lor_distr_l, Z.land_diag.
  apply negb_true_iff, Z.eqb_neq. intros Hz.
  apply Z.lor_eq_0_iff in Hz. lia.
Qed.

Lemma has_flag_lor_l (x f : Z) : 0 < f -> has_flag (Z.lor f x) f = true.
Proof. intros Hf. rewrite Z.lor_comm. now apply has_flag_lor_r. Qed.

Section FunctionBody.
Context `{duk_js_bytecode}.
Hypothesis Hwf : bytecode_wf.
Variable duk_lexer_parse_js_input_element :
  duk_lexer_ctx -> bool -> bool -> outcome (duk_lexer_ctx * duk_token).
Variable duk__parse_stmt : duk_compiler_ctx -> bool -> outcome duk_compiler_ctx.
Variable DUK_HSTRING_HAS_RESERVED_WORD : duk_hstring -> bool.

Local Abbreviation parse_func_body :=
  (duk__parse_func_body duk_lexer_parse_js_input_element duk__parse_stmt
     DUK_HSTRING_HAS_RESERVED_WORD).
Local Abbreviation parse_func_body_pass1 :=
  (duk__parse_func_body_pass1 duk_lexer_parse_js_input_element duk__parse_stmt).
Local Abbreviation parse_func_body_pass2 :=
  (duk__parse_func_body_pass2 duk_lexer_parse_js_input_element duk__parse_stmt
     DUK_HSTRING_HAS_RESERVED_WORD).

(** The final RETURN survives the peephole pass as the last instruction. *)
Lemma func_body_finish_return (comp_ctx : duk_compiler_ctx) (reg_stmt_value : Z)
    (comp_ctx' : duk_compiler_ctx) :
  duk__parse_func_body_finish comp_ctx reg_stmt_value = Ok comp_ctx' ->
  exists instr,
    last (h_code (curr_func comp_ctx')) = Some instr /\
    DUK_DEC_OP (ins instr) = DUK_OP_RETURN /\
    has_flag (DUK_DEC_A (ins instr)) DUK_BC_RETURN_FLAG_FAST = true.
Proof.
  pose proof (wf_return_flags Hwf) as (Hfast & Hretval & Hboth & _).
  unfold duk__parse_func_body_finish. intros Hfin.
  apply bind_Ok in Hfin as (c1 & Hemit & Hfin).
  apply bind_Ok in Hfin as (c2 & Hpeep & [= <-]).
  assert (Hret : exists pre w,
             h_code (curr_func c1) = pre ++ [w] /\
             DUK_DEC_OP (ins w) = DUK_OP_RETURN /\
             has_flag (DUK_DEC_A (ins w)) DUK_BC_RETURN_FLAG_FAST = true).
  { destruct (reg_stmt_value >=? 0).
    - destruct (emit_a_b_return Hwf comp_ctx
                  (Z.lor DUK_BC_RETURN_FLAG_HAVE_RETVAL DUK_BC_RETURN_FLAG_FAST)
                  reg_stmt_value) as [Hlast _].
      { split; [apply Z.lor_nonneg|]; lia. }
      destruct (Hlast c1 Hemit) as (pre & w & Hcode & Hop & HA).
      exists (h_code (curr_func comp_ctx) ++ pre), w. rewrite Hcode, app_assoc.
      split_and!; auto. rewrite HA. apply has_flag_lor_r. lia.
    - destruct (emit_a_b_return Hwf comp_ctx DUK_BC_RETURN_FLAG_FAST 0) as [Hlast _];
        [lia|].
      destruct (Hlast c1 Hemit) as (pre & w & Hcode & Hop & HA).
      exists (h_code (curr_func comp_ctx) ++ pre), w. rewrite Hcode, app_assoc.
      split_and!; auto. rewrite HA. apply has_flag_self. lia. }
  destruct Hret as (pre & w & Hcode & Hop & Hflag).
  unfold duk__peephole_optimize_bytecode in Hpeep.
  apply bind_Ok in Hpeep as ([bc fx] & Hout & [= <-]).
  apply peephole_outer_keeps in Hout as [Hlen Hkeep].
  exists w. split; [|auto]. simpl. rewrite last_lookup, Hlen, Hcode.
  apply Hkeep.
  - rewrite Hcode, length_app. simpl.
    rewrite lookup_app_r by lia.
    replace (Init.Nat.pred (length pre + 1) - length pre)%nat with 0%nat by lia.
    reflexivity.
  - rewrite Hop. apply Hwf.
Qed.

Lemma func_body_pass2_finish (fuel : nat) (comp_ctx : duk_compiler_ctx)
    (reg_stmt_value : Z) (expect_eof implicit_return_value : bool)
    (comp_ctx' : duk_compiler_ctx) :
  parse_func_body_pass2 fuel comp_ctx reg_stmt_value expect_eof implicit_return_value
    = Ok comp_ctx' ->
  exists c r, duk__parse_func_body_finish c r = Ok comp_ctx'.
Proof.
  unfold duk__parse_func_body_pass2. intros Hpass2.
  apply bind_Ok in Hpass2 as ([out_reg c2] & _ & Hrest).
  destruct (match h_name _ with Some _ => _ | None => _ end); [discriminate|].
  apply bind_Ok in Hrest as (c3 & _ & Hrest).
  apply bind_Ok in Hrest as (c4 & _ & Hfin).
  eauto.
Qed.

Lemma tmpl_bytecode_convert (comp_ctx : duk_compiler_ctx) :
  tmpl_bytecode (duk__convert_to_func_template comp_ctx)
  = map ins (h_code (curr_func comp_ctx)).
Proof. reflexivity. Qed.


Lemma varmap_has_put (name name' : duk_hstring) (v : varmap_value)
    (comp_ctx : duk_compiler_ctx) :
  name = name' \/ varmap_has comp_ctx name' = true ->
  varmap_has (varmap_put name v comp_ctx) name' = true.
Proof.
  unfold varmap_has, varmap_put. simpl. intros Hn.
  apply bool_decide_eq_true. destruct (decide (name = name')) as [->|Hne].
  - rewrite lookup_insert_eq. eauto.
  - rewrite lookup_insert_ne by done. destruct Hn as [?|Hh]; [done|].
    now apply bool_decide_eq_true in Hh.
Qed.

Lemma prologue_formals_strict (argnames : list duk_hstring) :
  forall (comp_ctx : duk_compiler_ctx) (i : Z),
    is_strict (curr_func comp_ctx) = true ->
    (~ NoDup argnames \/
     exists name, name ∈ argnames /\
       (DUK_HSTRING_HAS_EVAL_OR_ARGUMENTS name = true \/
        DUK_HSTRING_HAS_STRICT_RESERVED_WORD name = true \/
        varmap_has comp_ctx name = true)) ->
    duk__prologue_formals comp_ctx argnames i = error_argname.
Proof.
  induction argnames as [|h rest IH]; intros comp_ctx i Hstrict Hbad.
  - destruct Hbad as [Hdup|(name & Hin & _)]; [destruct Hdup; constructor|].
    now apply elem_of_nil in Hin.
  - simpl. rewrite Hstrict. simpl. unfold duk__hstring_is_eval_or_arguments.
    destruct (DUK_HSTRING_HAS_EVAL_OR_ARGUMENTS h) eqn:Hea; [reflexivity|].
    destruct (varmap_has comp_ctx h) eqn:Hvm; [reflexivity|].
    destruct (DUK_HSTRING_HAS_STRICT_RESERVED_WORD h) eqn:Hres; [reflexivity|].
    apply IH; [exact Hstrict|].
    destruct Hbad as [Hdup|(name & Hin & Hname)].
    + destruct (decide (h ∈ rest)) as [Hh|Hh].
      * right. exists h. split; [done|]. right. right. apply varmap_has_put. now left.
      * left. intros Hnd. apply Hdup. now constructor.
    + apply elem_of_cons in Hin as [->|Hin].
      * destruct Hname as [?|[?|?]]; congruence.
      * right. exists name. split; [done|].
        destruct Hname as [?|[?|Hv]]; auto.
        right. right. apply varmap_has_put. now right.
Qed.

(** C10: when, after pass 1, the function is strict (by inheritance or by a
    directive of its own body, which pass 1 has seen) and its formal
    parameter list has a duplicate name, or a formal named eval or arguments,
    or a strict-mode reserved word, the compilation of the function fails
    with a SyntaxError, thrown by the pass-2 prologue. *)
Theorem strict_formals_rejected_after_pass1
    (fuel : nat) (comp_ctx : duk_compiler_ctx) (expect_eof implicit_return_value : bool)
    (reg_stmt_value : Z) (comp_ctx1 : duk_compiler_ctx) :
  parse_func_body_pass1 fuel comp_ctx expect_eof implicit_return_value
    = Ok (reg_stmt_value, comp_ctx1) ->
  is_strict (curr_func comp_ctx1) = true ->
  bad_strict_formals (h_argnames (curr_func comp_ctx1)) ->
  throws_kind (parse_func_body fuel comp_ctx expect_eof implicit_return_value)
    DUK_ERR_SYNTAX_ERROR /\
  throws_kind
    (duk__init_varmap_and_prologue_for_pass2
       (upd_func (fun func => set_in_scanning false (set_in_directive_prologue true func))
          (duk__reset_func_for_pass2 comp_ctx1)) implicit_return_value)
    DUK_ERR_SYNTAX_ERROR.
Proof.
  intros Hpass1 Hstrict Hbad.
  assert (Hformals :
    duk__prologue_formals
      (upd_func (fun func => set_in_scanning false (set_in_directive_prologue true func))
         (duk__reset_func_for_pass2 comp_ctx1))
      (h_argnames (curr_func comp_ctx1)) 0 = error_argname).
  { apply prologue_formals_strict; [exact Hstrict|].
    destruct Hbad as [Hdup|(name & Hin & Hname)]; [now left|].
    right. exists name. split; [done|].
    unfold DUK_HSTRING_HAS_EVAL_OR_ARGUMENTS, DUK_HSTRING_HAS_STRICT_RESERVED_WORD.
    destruct Hname as [->|[->|Hres]]; [left; reflexivity|left; reflexivity|].
    right. left. apply existsb_exists. exists name.
    split; [now apply list_elem_of_In|apply String.eqb_refl]. }
  assert (Hprologue :
    duk__init_varmap_and_prologue_for_pass2
      (upd_func (fun func => set_in_scanning false (set_in_directive_prologue true func))
         (duk__reset_func_for_pass2 comp_ctx1)) implicit_return_value
    = error_argname).
  { unfold duk__init_varmap_and_prologue_for_pass2. cbn [curr_func upd_func set_curr_func].
    simpl h_argnames. simpl in Hformals. rewrite Hformals. reflexivity. }
  split.
  - unfold duk__parse_func_body. rewrite Hpass1. simpl.
    unfold duk__parse_func_body_pass2. rewrite Hprologue. eexists. split; reflexivity.
  - rewrite Hprologue. eexists. split; reflexivity.
Qed.

End FunctionBody.

Section FunctionBodyChecks.
#[local] Existing Instance duk_bytecode_sample.


Lemma strict_formals_rejected_after_pass1_witness :
  is_strict (curr_func ctx_duplicate_formals) = false /\
  duk__parse_func_body_pass1 sample_lexer sample_parse_stmt 4
    ctx_duplicate_formals false false
    = Ok (fst ctx_duplicate_formals_pass1, snd ctx_duplicate_formals_pass1) /\
  is_strict (curr_func (snd ctx_duplicate_formals_pass1)) = true /\
  bad_strict_formals (h_argnames (curr_func (snd ctx_duplicate_formals_pass1))) /\
  throws_kind
    (duk__parse_func_body sample_lexer sample_parse_stmt sample_reserved_word 4
       ctx_duplicate_formals false false)
    DUK_ERR_SYNTAX_ERROR /\
  throws_kind
    (duk__init_varmap_and_prologue_for_pass2
       (upd_func (fun func => set_in_scanning false (set_in_directive_prologue true func))
          (duk__reset_func_for_pass2 (snd ctx_duplicate_formals_pass1))) false)
    DUK_ERR_SYNTAX_ERROR.
Proof.
  assert (H1 : duk__parse_func_body_pass1 sample_lexer sample_parse_stmt 4
                 ctx_duplicate_formals false false
               = Ok (fst ctx_duplicate_formals_pass1, snd ctx_duplicate_formals_pass1))
    by (vm_compute; reflexivity).
  assert (H2 : is_strict (curr_func (snd ctx_duplicate_formals_pass1)) = true)
    by reflexivity.
  assert (H3 : bad_strict_formals
                 (h_argnames (curr_func (snd ctx_duplicate_formals_pass1)))).
  { left. intros Hnd. apply NoDup_cons in Hnd as [Hnotin _].
    apply Hnotin. apply elem_of_cons. left. reflexivity. }
  split; [reflexivity|]. split; [exact H1|]. split; [exact H2|]. split; [exact H3|].
  exact (strict_formals_rejected_after_pass1 sample_lexer sample_parse_stmt
           sample_reserved_word 4 ctx_duplicate_formals false false _ _ H1 H2 H3).
Defined.

End FunctionBodyChecks.

(** ** The top-level driver *)

Section Driver.
Context `{duk_js_bytecode}.
Variable duk_lexer_parse_js_input_element :
  duk_lexer_ctx -> bool -> bool -> outcome (duk_lexer_ctx * duk_token).
Variable duk__parse_stmt : duk_compiler_ctx -> bool -> outcome duk_compiler_ctx.
Variable DUK_HSTRING_HAS_RESERVED_WORD : duk_hstring -> bool.
Variable duk_js_tostring_number : spec_float -> string.

Local Abbreviation js_compile_raw :=
  (duk__js_compile_raw duk_lexer_parse_js_input_element duk__parse_stmt
     DUK_HSTRING_HAS_RESERVED_WORD duk_js_tostring_number).
Local Abbreviation js_compile :=
  (duk_js_compile duk_lexer_parse_js_input_element duk__parse_stmt
     DUK_HSTRING_HAS_RESERVED_WORD duk_js_tostring_number).


End Driver.

Section DriverChecks.
#[local] Existing Instance duk_bytecode_sample.



End DriverChecks.

(** ** break and continue *)

Section BreakContinue.
Context `{duk_js_bytecode}.
Hypothesis Hwf : bytecode_wf.
Variable duk_lexer_parse_js_input_element :
  duk_lexer_ctx -> bool -> bool -> outcome (duk_lexer_ctx * duk_token).

Local Abbreviation advance := (duk__advance duk_lexer_parse_js_input_element).
Local Abbreviation parse_break_or_continue_stmt :=
  (duk__parse_break_or_continue_stmt duk_lexer_parse_js_input_element).

(** The statement after its label reference is parsed: the label lookup
    and the choice of the instruction. *)
Lemma break_continue_lookup (comp_ctx0 comp_ctx comp_ctx2 : duk_compiler_ctx)
    (h : duk_hstring) :
  advance comp_ctx0 = Ok comp_ctx ->
  label_reference advance comp_ctx h comp_ctx2 ->
  parse_break_or_continue_stmt comp_ctx0 =
  let is_break := t (curr_token comp_ctx0) =? DUK_TOK_BREAK in
  let* (id, cd, pc, closest) := duk__lookup_active_label comp_ctx h is_break in
  if (cd =? catch_depth (curr_func comp_ctx2)) && closest then
    Ok (duk__emit_jump comp_ctx2 (pc + (if is_break then 1 else 2)))
  else
    Ok (duk__emit_abc comp_ctx2 (if is_break then DUK_OP_BREAK else DUK_OP_CONTINUE) id).
Proof.
  intros Hadv Href. unfold duk__parse_break_or_continue_stmt. rewrite Hadv. simpl.
  destruct Href as [Hterm | h comp_ctx2 Hterm Hid Hstr Hadv2].
  - rewrite Hterm.
    destruct (duk__lookup_active_label comp_ctx EmptyString _) as [[[[id cd] pc] closest]| | |];
      reflexivity.
  - rewrite Hterm, Hid, Hstr. simpl.
    destruct (duk__lookup_active_label comp_ctx h _) as [[[[id cd] pc] closest]| | |];
      simpl; try reflexivity.
    rewrite Hadv2. reflexivity.
Qed.

(** C6: for a break or continue statement whose label resolves to the
    label record [info] at index [li] of the label stack, exactly one
    instruction is appended: when the record is the newest entry of the stack
    and its catch depth is the current catch depth, a JUMP to pc_label + 1
    (break) or pc_label + 2 (continue); in every other case a BREAK or
    CONTINUE instruction carrying the label id.  The label site precedes the
    statement, and the code length and the label id fit the ABC field. *)
Theorem break_continue_fast_or_slow
    (comp_ctx0 comp_ctx comp_ctx2 : duk_compiler_ctx) (h : duk_hstring)
    (li : nat) (info : duk_labelinfo) :
  let is_break := t (curr_token comp_ctx0) =? DUK_TOK_BREAK in
  let infos := h_labelinfos (curr_func comp_ctx) in
  let code := h_code (curr_func comp_ctx2) in
  advance comp_ctx0 = Ok comp_ctx ->
  label_reference advance comp_ctx h comp_ctx2 ->
  duk__lookup_active_label_loop infos h is_break (length infos) = Ok (Some li) ->
  infos !! li = Some info ->
  0 <= pc_label info <= Z.of_nat (length code) ->
  Z.of_nat (length code) < 2 ^ 25 ->
  0 <= label_id info < 2 ^ 26 ->
  exists comp_ctx' instr,
    parse_break_or_continue_stmt comp_ctx0 = Ok comp_ctx' /\
    h_code (curr_func comp_ctx') = code ++ [instr] /\
    if bool_decide (li = (length infos - 1)%nat) &&
       (li_catch_depth info =? catch_depth (curr_func comp_ctx2))
    then
      DUK_DEC_OP (ins instr) = DUK_OP_JUMP /\
      jump_target (Z.of_nat (length code)) (ins instr)
        = pc_label info + (if is_break then 1 else 2)
    else
      DUK_DEC_OP (ins instr) = (if is_break then DUK_OP_BREAK else DUK_OP_CONTINUE) /\
      DUK_DEC_ABC (ins instr) = label_id info.
Proof.
  intros is_break infos code Hadv Href Hloop Hinfo Hpc Hlen Hid.
  rewrite (break_continue_lookup _ _ _ _ Hadv Href). fold is_break.
  unfold duk__lookup_active_label. fold infos. rewrite Hloop. simpl. rewrite Hinfo. simpl.
  rewrite andb_comm.
  destruct (bool_decide (li = (length infos - 1)%nat) &&
            (li_catch_depth info =? catch_depth (curr_func comp_ctx2))).
  - eexists _, _. split; [reflexivity|]. split; [reflexivity|]. simpl. split.
    + apply dec_op_enc_abc, Hwf.
    + unfold jump_target. rewrite dec_abc_enc_abc; [|apply Hwf|].
      * fold code. lia.
      * fold code. unfold DUK_BC_JUMP_BIAS. destruct is_break; lia.
  - eexists _, _. split; [reflexivity|]. split; [reflexivity|]. simpl. split.
    + apply dec_op_enc_abc. destruct is_break; apply Hwf.
    + apply dec_abc_enc_abc; [destruct is_break; apply Hwf|lia].
Qed.

End BreakContinue.

Section BreakContinueChecks.
#[local] Existing Instance duk_bytecode_sample.

Lemma break_continue_fast_or_slow_witness :
  exists comp_ctx' instr,
    duk__parse_break_or_continue_stmt sample_lexer ctx_on_break = Ok comp_ctx' /\
    h_code (curr_func comp_ctx')
      = h_code (curr_func ctx_after_break_keyword) ++ [instr] /\
    DUK_DEC_OP (ins instr) = DUK_OP_JUMP /\
    jump_target 6 (ins instr) = 1.
Proof.
  apply (break_continue_fast_or_slow duk_bytecode_sample_wf sample_lexer
           ctx_on_break ctx_after_break_keyword ctx_after_break_keyword EmptyString
           0%nat (mk_labelinfo 3 0 EmptyString 0 0)).
  - vm_compute. reflexivity.
  - apply label_omitted. vm_compute. reflexivity.
  - vm_compute. reflexivity.
  - reflexivity.
  - vm_compute. split; discriminate.
  - vm_compute. reflexivity.
  - vm_compute. split; [discriminate|reflexivity].
Defined.

End BreakContinueChecks.

(** ** The return statement *)

Lemma buf_get_last {A : Type} (buf : list A) :
  (0 < length buf)%nat -> buf_get buf (Z.of_nat (length buf) - 1) = last buf.
Proof.
  intros Hlen. rewrite last_lookup.
  replace (Z.of_nat (length buf) - 1) with (Z.of_nat (pred (length buf))) by lia.
  apply buf_get_of_nat.
Qed.

Section ReturnStatement.
Context `{duk_js_bytecode}.
Hypothesis Hwf : bytecode_wf.
Variable duk_lexer_parse_js_input_element :
  duk_lexer_ctx -> bool -> bool -> outcome (duk_lexer_ctx * duk_token).
Variable duk__exprtop_toregconst :
  duk_compiler_ctx -> Z -> outcome (Z * duk_compiler_ctx).

Local Abbreviation advance := (duk__advance duk_lexer_parse_js_input_element).
Local Abbreviation parse_return_stmt :=
  (duk__parse_return_stmt duk_lexer_parse_js_input_element duk__exprtop_toregconst).

(** The RETURN of a return statement: [have_retval] tells whether the
    statement has an expression. *)
Lemma return_stmt_emit (comp_ctx : duk_compiler_ctx) (have_retval : bool) (reg_val : Z) :
  valid_regconst reg_val ->
  let ret_flags := if have_retval then DUK_BC_RETURN_FLAG_HAVE_RETVAL else 0 in
  exists comp_ctx' pre w,
    duk__emit_a_b comp_ctx DUK_OP_RETURN
      (if catch_depth (curr_func comp_ctx) =? 0
       then Z.lor ret_flags DUK_BC_RETURN_FLAG_FAST else ret_flags) reg_val
      = Ok comp_ctx' /\
    h_code (curr_func comp_ctx') = h_code (curr_func comp_ctx) ++ pre ++ [w] /\
    DUK_DEC_OP (ins w) = DUK_OP_RETURN /\
    has_flag (DUK_DEC_A (ins w)) DUK_BC_RETURN_FLAG_HAVE_RETVAL = have_retval /\
    has_flag (DUK_DEC_A (ins w)) DUK_BC_RETURN_FLAG_FAST
      = (catch_depth (curr_func comp_ctx) =? 0).
Proof.
  intros Hreg ret_flags.
  destruct (wf_return_flags Hwf) as (Hfast & Hhave & Hboth & Hdisj).
  set (a := if catch_depth (curr_func comp_ctx) =? 0
            then Z.lor ret_flags DUK_BC_RETURN_FLAG_FAST else ret_flags).
  assert (Ha : 0 <= a <= 0xff).
  { unfold a, ret_flags.
    assert (0 <= Z.lor DUK_BC_RETURN_FLAG_HAVE_RETVAL DUK_BC_RETURN_FLAG_FAST)
      by (apply Z.lor_nonneg; lia).
    destruct (catch_depth (curr_func comp_ctx) =? 0), have_retval;
      rewrite ?Z.lor_0_l; lia. }
  destruct (emit_a_b_return Hwf comp_ctx a reg_val Ha) as [Hshape Hok].
  destruct (Hok Hreg) as [comp_ctx' Hemit].
  destruct (Hshape comp_ctx' Hemit) as (pre & w & Hcode & Hop & HA).
  exists comp_ctx', pre, w. split_and!; try done; rewrite HA; unfold a, ret_flags.
  - destruct (catch_depth (curr_func comp_ctx) =? 0), have_retval;
      rewrite ?Z.lor_0_l.
    + apply has_flag_lor_l; lia.
    + unfold has_flag. rewrite Z.land_comm, Hdisj. reflexivity.
    + apply has_flag_self; lia.
    + reflexivity.
  - destruct (catch_depth (curr_func comp_ctx) =? 0), have_retval;
      rewrite ?Z.lor_0_l.
    + apply has_flag_lor_r; lia.
    + apply has_flag_self; lia.
    + unfold has_flag. rewrite Hdisj. reflexivity.
    + reflexivity.
Qed.


End ReturnStatement.

Section ReturnStatementChecks.
#[local] Existing Instance duk_bytecode_sample.


End ReturnStatementChecks.

(** ** Instruction words as sums of their fields *)

Lemma lor_shiftl_add (x lo k : Z) :
  0 <= k -> 0 <= lo < 2 ^ k -> Z.lor (Z.shiftl x k) lo = x * 2 ^ k + lo.
Proof.
  intros Hk Hlo. rewrite <- Z.lxor_lor, <- Z.add_nocarry_lxor, Z.shiftl_mul_pow2;
    try done.
  all: apply Z.bits_inj'; intros n Hn; rewrite Z.land_spec, Z.bits_0.
  all: destruct (Z.ltb_spec n k);
    [rewrite Z.shiftl_spec_low by lia; reflexivity
    |rewrite (testbit_small lo k n) by lia; apply andb_false_r].
Qed.

Lemma enc_op_a_bc_sum (op a bc : Z) :
  is_opcode op -> 0 <= a <= 0xff ->
  DUK_ENC_OP_A_BC op a bc = bc * 2 ^ 14 + a * 2 ^ 6 + op.
Proof.
  unfold is_opcode, DUK_ENC_OP_A_BC. intros Hop Ha.
  replace (Z.shiftl bc 14) with (Z.shiftl (Z.shiftl bc 8) 6)
    by (rewrite Z.shiftl_shiftl by lia; reflexivity).
  rewrite <- Z.shiftl_lor, (lor_shiftl_add bc a 8), lor_shiftl_add by lia. lia.
Qed.

Lemma enc_op_a_b_c_sum (op a b c : Z) :
  is_opcode op -> 0 <= a <= 0xff -> 0 <= b <= 0x1ff ->
  DUK_ENC_OP_A_B_C op a b c = c * 2 ^ 23 + b * 2 ^ 14 + a * 2 ^ 6 + op.
Proof.
  unfold is_opcode. intros Hop Ha Hb. rewrite enc_a_b_c_as_abc. unfold DUK_ENC_OP_ABC.
  replace (Z.shiftl c 17) with (Z.shiftl (Z.shiftl c 9) 8)
    by (rewrite Z.shiftl_shiftl by lia; reflexivity).
  rewrite <- Z.shiftl_lor, (lor_shiftl_add c b 9), (lor_shiftl_add _ a 8),
    lor_shiftl_add by lia. lia.
Qed.

(** Decoding a word given as the sum of its fields. *)
Lemma dec_fields_of_sum (op a b c : Z) :
  0 <= op < 64 -> 0 <= a < 2 ^ 8 -> 0 <= b < 2 ^ 9 -> 0 <= c < 2 ^ 9 ->
  let w := wrap32 (c * 2 ^ 23 + b * 2 ^ 14 + a * 2 ^ 6 + op) in
  DUK_DEC_OP w = op /\ DUK_DEC_A w = a /\ DUK_DEC_B w = b /\ DUK_DEC_C w = c /\
  DUK_DEC_BC w = c * 2 ^ 9 + b.
Proof.
  intros Hop Ha Hb Hc w. subst w.
  unfold DUK_DEC_OP, DUK_DEC_A, DUK_DEC_B, DUK_DEC_C, DUK_DEC_BC, wrap32.
  change 0x3f with (Z.ones 6). change 0xff with (Z.ones 8).
  change 0x1ff with (Z.ones 9). change 0x3ffff with (Z.ones 18).
  rewrite !Z.land_ones, !Z.shiftr_div_pow2 by lia.
  rewrite (Z.mod_small _ (2 ^ 32)) by lia.
  split_and!; Z.div_mod_to_equations; lia.
Qed.

(** ** What the emitters write *)

Section EmitProperties.
Context `{duk_js_bytecode}.

Lemma dec_enc_op_a_bc (op a bc : Z) :
  is_opcode op -> 0 <= a <= 0xff -> 0 <= bc <= DUK_BC_BC_MAX ->
  DUK_DEC_OP (wrap32 (DUK_ENC_OP_A_BC op a bc)) = op /\
  DUK_DEC_A (wrap32 (DUK_ENC_OP_A_BC op a bc)) = a /\
  DUK_DEC_BC (wrap32 (DUK_ENC_OP_A_BC op a bc)) = bc.
Proof.
  unfold DUK_BC_BC_MAX. intros Hop Ha Hbc. rewrite enc_op_a_bc_sum by done.
  unfold is_opcode in Hop.
  destruct (dec_fields_of_sum op a (bc mod 2 ^ 9) (bc / 2 ^ 9))
    as (Hdop & Hda & _ & _ & Hdbc); try lia.
  { apply Z.mod_pos_bound. lia. }
  { Z.div_mod_to_equations. lia. }
  replace (bc * 2 ^ 14 + a * 2 ^ 6 + op)
    with (bc / 2 ^ 9 * 2 ^ 23 + bc mod 2 ^ 9 * 2 ^ 14 + a * 2 ^ 6 + op)
    by (Z.div_mod_to_equations; lia).
  split_and!; [done|done|]. rewrite Hdbc. Z.div_mod_to_equations. lia.
Qed.

(** The direct case of duk__emit_a_bc(): no shuffling. *)
Lemma emit_a_bc_direct (comp_ctx : duk_compiler_ctx) (op_flags a bc : Z) :
  a <= DUK_BC_A_MAX ->
  Z.land bc (Z.lnot DUK__CONST_MARKER) <= DUK_BC_BC_MAX ->
  duk__emit_a_bc comp_ctx op_flags a bc
  = Ok (duk__emit comp_ctx
          (DUK_ENC_OP_A_BC (Z.land op_flags 0xff) a
             (Z.land bc (Z.lnot DUK__CONST_MARKER)))).
Proof.
  intros Ha Hbc. unfold duk__emit_a_bc.
  destruct (Z.leb_spec (Z.land bc (Z.lnot DUK__CONST_MARKER)) DUK_BC_BC_MAX); [|lia].
  destruct (Z.leb_spec a DUK_BC_A_MAX); [|lia]. reflexivity.
Qed.

(** X1: duk__emit_a_bc() with an opcode, a slot A value up to A_MAX and a BC
    value up to BC_MAX (given with or without the constant marker) appends
    exactly one instruction, on the line of the current token, whose OP, A and
    BC fields decode to these values; nothing else changes. *)
Theorem emit_a_bc_fields (comp_ctx : duk_compiler_ctx) (op_flags a bc : Z) :
  is_opcode (Z.land op_flags 0xff) ->
  0 <= a <= DUK_BC_A_MAX ->
  0 <= Z.land bc (Z.lnot DUK__CONST_MARKER) <= DUK_BC_BC_MAX ->
  exists w,
    duk__emit_a_bc comp_ctx op_flags a bc
      = Ok (upd_func
              (fun f => set_h_code
                          (h_code f ++ [mk_instr w (start_line (curr_token comp_ctx))]) f)
              comp_ctx) /\
    DUK_DEC_OP w = Z.land op_flags 0xff /\
    DUK_DEC_A w = a /\
    DUK_DEC_BC w = Z.land bc (Z.lnot DUK__CONST_MARKER).
Proof.
  intros Hop Ha Hbc.
  rewrite emit_a_bc_direct by lia.
  eexists. split; [reflexivity|].
  apply dec_enc_op_a_bc; [done|unfold DUK_BC_A_MAX in Ha; lia|done].
Qed.


End EmitProperties.

Section EmitABC.
Context `{duk_js_bytecode}.

Lemma operand_field_range (x : Z) :
  direct_operand x ->
  0 <= operand_field x <= 0x1ff /\
  (has_flag x DUK__CONST_MARKER = false -> 0 <= x <= 0xff) /\
  (has_flag x DUK__CONST_MARKER = true ->
   0 <= Z.land x (Z.lnot DUK__CONST_MARKER) <= 0xff /\
   operand_field x = Z.lor 0x100 (Z.land x (Z.lnot DUK__CONST_MARKER))).
Proof.
  unfold direct_operand, operand_field. intros [Hreg|Hconst].
  - rewrite has_marker_register by (unfold DUK_BC_BC_MAX; lia).
    split_and!; [lia|lia|done|discriminate].
  - rewrite has_marker_constant by (unfold DUK__CONST_MARKER in *; lia).
    rewrite clear_marker by (unfold DUK__CONST_MARKER in *; lia).
    split_and!; [lia|lia|discriminate|].
    intros _. split; [lia|].
    symmetry. apply (lor_shiftl_add 1 _ 8); lia.
Qed.

Local Ltac enc_bits :=
  unfold DUK_ENC_OP_A_B_C;
  rewrite ?Z.shiftl_0_l, ?Z.lor_0_l, ?Z.lor_0_r, ?Z.shiftl_lor;
  apply Z.bits_inj'; intros ?n ?Hn; rewrite ?Z.lor_spec; btauto.

(** The direct case of duk__emit_a_b_c(): one word, no shuffling. *)
Lemma emit_a_b_c_direct (comp_ctx : duk_compiler_ctx) (op_flags a b c : Z) :
  0 <= a <= 0xff -> direct_operand b -> direct_operand c ->
  duk__emit_a_b_c comp_ctx op_flags a b c
  = Ok (duk__emit comp_ctx
          (DUK_ENC_OP_A_B_C (Z.land op_flags 0xff) a (operand_field b) (operand_field c))).
Proof.
  intros Ha Hb Hc.
  destruct (operand_field_range b Hb) as (Hfb & Hbreg & Hbconst).
  destruct (operand_field_range c Hc) as (Hfc & Hcreg & Hcconst).
  unfold duk__emit_a_b_c, duk__emit_slot_a. unfold DUK_BC_A_MAX.
  destruct (Z.leb_spec a 0xff); [|lia]. cbn [bind].
  unfold duk__emit_slot_b.
  destruct (has_flag b DUK__CONST_MARKER) eqn:Hmb.
  - destruct (Hbconst eq_refl) as [Hkb Hfieldb].
    destruct (Z.leb_spec (Z.land b (Z.lnot DUK__CONST_MARKER)) 0xff); [|lia]. cbn [bind].
    unfold duk__emit_slot_c.
    destruct (has_flag c DUK__CONST_MARKER) eqn:Hmc.
    + destruct (Hcconst eq_refl) as [Hkc Hfieldc].
      destruct (Z.leb_spec (Z.land c (Z.lnot DUK__CONST_MARKER)) 0xff); [|lia]. cbn [bind].
      rewrite !Z.eqb_refl. cbn [negb]. do 2 f_equal.
      rewrite Hfieldb, Hfieldc. enc_bits.
    + destruct (Z.leb_spec c 0xff); [|specialize (Hcreg eq_refl); lia]. cbn [bind].
      rewrite !Z.eqb_refl. cbn [negb]. do 2 f_equal.
      rewrite Hfieldb. unfold operand_field. rewrite Hmc. enc_bits.
  - destruct (Z.leb_spec b 0xff); [|specialize (Hbreg eq_refl); lia]. cbn [bind].
    unfold duk__emit_slot_c.
    destruct (has_flag c DUK__CONST_MARKER) eqn:Hmc.
    + destruct (Hcconst eq_refl) as [Hkc Hfieldc].
      destruct (Z.leb_spec (Z.land c (Z.lnot DUK__CONST_MARKER)) 0xff); [|lia]. cbn [bind].
      rewrite !Z.eqb_refl. cbn [negb]. do 2 f_equal.
      rewrite Hfieldc. unfold operand_field. rewrite Hmb. enc_bits.
    + destruct (Z.leb_spec c 0xff); [|specialize (Hcreg eq_refl); lia]. cbn [bind].
      rewrite !Z.eqb_refl. cbn [negb]. do 2 f_equal.
      unfold operand_field. rewrite Hmb, Hmc. enc_bits.
Qed.

Lemma dec_enc_op_a_b_c (op a b c : Z) :
  is_opcode op -> 0 <= a <= 0xff -> 0 <= b <= 0x1ff -> 0 <= c <= 0x1ff ->
  let w := wrap32 (DUK_ENC_OP_A_B_C op a b c) in
  DUK_DEC_OP w = op /\ DUK_DEC_A w = a /\ DUK_DEC_B w = b /\ DUK_DEC_C w = c.
Proof.
  intros Hop Ha Hb Hc w. subst w. rewrite enc_op_a_b_c_sum by done.
  destruct (dec_fields_of_sum op a b c) as (? & ? & ? & ? & _); auto;
    unfold is_opcode in Hop; lia.
Qed.

(** X3: duk__emit_a_b_c() with an opcode, a slot A value up to 0xff and
    direct B and C operands appends exactly one instruction, whose OP and A
    fields decode to the opcode and A, and whose B and C fields decode to the
    register number, or to the constant number with bit 8 set; nothing else
    changes. *)
Theorem emit_a_b_c_fields (comp_ctx : duk_compiler_ctx) (op_flags a b c : Z) :
  is_opcode (Z.land op_flags 0xff) ->
  0 <= a <= 0xff ->
  direct_operand b -> direct_operand c ->
  exists w,
    duk__emit_a_b_c comp_ctx op_flags a b c
      = Ok (upd_func
              (fun f => set_h_code
                          (h_code f ++ [mk_instr w (start_line (curr_token comp_ctx))]) f)
              comp_ctx) /\
    DUK_DEC_OP w = Z.land op_flags 0xff /\
    DUK_DEC_A w = a /\
    DUK_DEC_B w = operand_field b /\
    DUK_DEC_C w = operand_field c.
Proof.
  intros Hop Ha Hb Hc.
  rewrite emit_a_b_c_direct by done.
  eexists. split; [reflexivity|].
  apply dec_enc_op_a_b_c; [done|done| |].
  - now apply operand_field_range.
  - now apply operand_field_range.
Qed.

Lemma extraop_flags_split (extraop_flags : Z) :
  is_opcode DUK_OP_EXTRA ->
  Z.land (Z.lor DUK_OP_EXTRA (Z.land extraop_flags (Z.lnot 0xff))) 0xff = DUK_OP_EXTRA /\
  0 <= Z.land extraop_flags 0xff <= 0xff.
Proof.
  intros Hop. split.
  - rewrite Z.land_lor_distr_l, land_opcode_ff by done.
    rewrite <- Z.land_assoc, (Z.land_comm (Z.lnot 0xff)), Z.land_lnot_diag, Z.land_0_r.
    apply Z.lor_0_r.
  - change 0xff with (Z.ones 8) at 1 2. rewrite Z.land_ones by lia.
    Z.div_mod_to_equations. lia.
Qed.

(** X28: the extended opcodes.  duk__emit_extraop_b_c(), duk__emit_extraop_b()
    and duk__emit_extraop_only() emit, for direct operands, one instruction
    whose opcode is DUK_OP_EXTRA and whose slot A holds the extra opcode (the
    low 8 bits of the argument; the bits above are emission flags and are not
    encoded); B and C hold the operands, 0 when the function takes none. *)
Theorem emit_extraop_fields (comp_ctx : duk_compiler_ctx) (extraop_flags b c : Z) :
  is_opcode DUK_OP_EXTRA ->
  direct_operand b -> direct_operand c ->
  let appended w :=
    Ok (upd_func
          (fun f => set_h_code
                      (h_code f ++ [mk_instr w (start_line (curr_token comp_ctx))]) f)
          comp_ctx) in
  let extra w := DUK_DEC_OP w = DUK_OP_EXTRA /\ DUK_DEC_A w = Z.land extraop_flags 0xff in
  (exists w, duk__emit_extraop_b_c comp_ctx extraop_flags b c = appended w /\ extra w /\
             DUK_DEC_B w = operand_field b /\ DUK_DEC_C w = operand_field c) /\
  (exists w, duk__emit_extraop_b comp_ctx extraop_flags b = appended w /\ extra w /\
             DUK_DEC_B w = operand_field b /\ DUK_DEC_C w = 0) /\
  (exists w, duk__emit_extraop_only comp_ctx extraop_flags = appended w /\ extra w /\
             DUK_DEC_B w = 0 /\ DUK_DEC_C w = 0).
Proof.
  intros Hop Hb Hc appended extra. subst appended extra.
  destruct (extraop_flags_split extraop_flags Hop) as [Hland Ha].
  assert (Hzero : direct_operand 0) by (left; lia).
  unfold duk__emit_extraop_b_c, duk__emit_extraop_b, duk__emit_extraop_only.
  rewrite !emit_a_b_c_direct, Hland by done.
  split_and!; eexists; (split; [reflexivity|]).
  - destruct (dec_enc_op_a_b_c DUK_OP_EXTRA (Z.land extraop_flags 0xff)
                (operand_field b) (operand_field c)) as (? & ? & ? & ?);
      auto; now apply operand_field_range.
  - destruct (dec_enc_op_a_b_c DUK_OP_EXTRA (Z.land extraop_flags 0xff)
                (operand_field b) (operand_field 0)) as (? & ? & ? & ?);
      auto; now apply operand_field_range.
  - destruct (dec_enc_op_a_b_c DUK_OP_EXTRA (Z.land extraop_flags 0xff)
                (operand_field 0) (operand_field 0)) as (? & ? & ? & ?);
      auto; now apply operand_field_range.
Qed.

End EmitABC.

Section EmitFrame.
Context `{duk_js_bytecode}.

Lemma only_emits_refl (c : duk_compiler_ctx) : only_emits c c.
Proof.
  exists [], (needs_shuffle (curr_func c)). destruct c as [f ? ? ? ? ?]. destruct f.
  unfold upd_func. simpl. rewrite app_nil_r. reflexivity.
Qed.

Lemma only_emits_trans (c1 c2 c3 : duk_compiler_ctx) :
  only_emits c1 c2 -> only_emits c2 c3 -> only_emits c1 c3.
Proof.
  intros (s1 & n1 & ->) (s2 & n2 & ->). exists (s1 ++ s2), n2.
  destruct c1 as [f ? ? ? ? ?]. destruct f. unfold upd_func. simpl.
  rewrite app_assoc. reflexivity.
Qed.

Lemma only_emits_emit (c : duk_compiler_ctx) (w : Z) : only_emits c (duk__emit c w).
Proof.
  exists [mk_instr (wrap32 w) (start_line (curr_token c))], (needs_shuffle (curr_func c)).
  destruct c as [f ? ? ? ? ?]. destruct f. reflexivity.
Qed.

Lemma only_emits_needs_shuffle (c : duk_compiler_ctx) (b : bool) :
  only_emits c (upd_func (set_needs_shuffle b) c).
Proof.
  exists [], b. destruct c as [f ? ? ? ? ?]. destruct f.
  unfold upd_func. simpl. rewrite app_nil_r. reflexivity.
Qed.

Lemma only_emits_length (c c' : duk_compiler_ctx) :
  only_emits c c' ->
  (length (h_code (curr_func c)) <= length (h_code (curr_func c')))%nat.
Proof.
  intros (s & n & ->). simpl. rewrite length_app. lia.
Qed.

Lemma emits_or_fails_bind {A B : Type} (c : duk_compiler_ctx)
    (pa : A -> duk_compiler_ctx) (pb : B -> duk_compiler_ctx)
    (m : outcome A) (k : A -> outcome B) :
  emits_or_fails c pa m ->
  (forall x, only_emits c (pa x) -> emits_or_fails (pa x) pb (k x)) ->
  emits_or_fails c pb (bind m k).
Proof.
  destruct m as [x|e| |]; simpl; try done.
  intros Hx Hk. specialize (Hk x Hx).
  destruct (k x) as [y|e| |]; simpl in *; try done.
  eapply only_emits_trans; eauto.
Qed.


Local Ltac emit_step :=
  first
    [ eapply only_emits_trans; [|apply only_emits_emit]
    | apply only_emits_needs_shuffle
    | apply only_emits_refl ].

Lemma emit_a_bc_emits (c : duk_compiler_ctx) (op_flags a bc : Z) :
  emits_or_fails c (fun x => x) (duk__emit_a_bc c op_flags a bc).
Proof.
  unfold duk__emit_a_bc, error_outofregs, DUK_ERROR.
  repeat match goal with
         | |- context [if ?b then _ else _] => destruct b
         end; simpl; try reflexivity; repeat emit_step.
Qed.

Lemma emit_loadint_emits (c : duk_compiler_ctx) (reg val : Z) :
  emits_or_fails c (fun x => x) (duk__emit_loadint c reg val).
Proof.
  unfold duk__emit_loadint.
  destruct (_ && _); [apply emit_a_bc_emits|].
  eapply emits_or_fails_bind; [apply emit_a_bc_emits|].
  intros x _. apply emit_a_bc_emits.
Qed.

Lemma emit_slot_a_emits (c : duk_compiler_ctx) (op_flags a : Z) :
  emits_or_fails c (fun x => fst (fst (fst x))) (duk__emit_slot_a c op_flags a).
Proof.
  unfold duk__emit_slot_a, error_outofregs, DUK_ERROR.
  repeat match goal with
         | |- context [if ?b then _ else _] => destruct b
         end; simpl; try reflexivity; try (repeat emit_step; fail).
  pose proof (emit_loadint_emits (upd_func (set_needs_shuffle true) c)
                (shuffle1 (curr_func c)) a) as He.
  destruct (duk__emit_loadint _ _ _); simpl in *; done.
Qed.

Lemma emit_slot_b_emits (c : duk_compiler_ctx) (op_flags w b : Z) :
  emits_or_fails c (fun x => fst (fst (fst (fst x)))) (duk__emit_slot_b c op_flags w b).
Proof.
  unfold duk__emit_slot_b, error_outofregs, DUK_ERROR.
  repeat match goal with
         | |- context [if ?b then _ else _] => destruct b
         end; simpl; try reflexivity; try (repeat emit_step; fail).
  pose proof (emit_loadint_emits (upd_func (set_needs_shuffle true) c)
                (shuffle2 (curr_func c)) b) as He.
  destruct (duk__emit_loadint _ _ _); simpl in *; done.
Qed.

Lemma emit_slot_c_emits (c : duk_compiler_ctx) (op_flags w a x : Z) :
  emits_or_fails c (fun x => fst (fst (fst (fst x)))) (duk__emit_slot_c c op_flags w a x).
Proof.
  unfold duk__emit_slot_c, error_outofregs, DUK_ERROR.
  repeat match goal with
         | |- context [if ?b then _ else _] => destruct b
         end; simpl; try reflexivity; try (repeat emit_step; fail).
  pose proof (emit_loadint_emits (upd_func (set_needs_shuffle true) c)
                (shuffle3 (curr_func c)) x) as He.
  destruct (duk__emit_loadint _ _ _); simpl in *; done.
Qed.

(** X4: duk__emit_a_b_c() either returns or throws the "out of regs"
    RangeError.  When it returns it has appended at least one instruction to
    the code and has changed nothing else in the compiler state, the
    needs_shuffle flag apart: instructions emitted earlier keep their place
    and contents. *)
Theorem emit_a_b_c_only_appends (comp_ctx : duk_compiler_ctx) (op_flags a b c : Z) :
  match duk__emit_a_b_c comp_ctx op_flags a b c with
  | Ok comp_ctx' =>
    only_emits comp_ctx comp_ctx' /\
    (length (h_code (curr_func comp_ctx)) < length (h_code (curr_func comp_ctx')))%nat
  | Throw e => e = duk_error_object DUK_ERR_RANGE_ERROR "out of regs"
  | Undef => False
  | OutOfFuel => False
  end.
Proof.
  unfold duk__emit_a_b_c.
  pose proof (emit_slot_a_emits comp_ctx op_flags a) as Ha.
  destruct (duk__emit_slot_a comp_ctx op_flags a)
    as [[[[c1 op1] a1] a_out]|e| |]; simpl in *; try done.
  pose proof (emit_slot_b_emits c1 op1 0 b) as Hb.
  destruct (duk__emit_slot_b c1 op1 0 b)
    as [[[[[c2 op2] w2] b2] b_out]|e| |]; simpl in *; try done.
  pose proof (emit_slot_c_emits c2 op2 w2 a1 c) as Hc.
  destruct (duk__emit_slot_c c2 op2 w2 a1 c)
    as [[[[[c3 a3] w3] x3] c_out]|e| |]; simpl in *; try done.
  assert (H3 : only_emits comp_ctx c3) by eauto using only_emits_trans.
  pose proof (only_emits_length _ _ H3) as Hlen.
  set (main := duk__emit c3 _).
  assert (Hmain : only_emits comp_ctx main)
    by (eapply only_emits_trans; [exact H3|apply only_emits_emit]).
  assert (Hlm : length (h_code (curr_func main)) = S (length (h_code (curr_func c3))))
    by (unfold main; simpl; rewrite length_app; simpl; lia).
  repeat match goal with
         | |- context [if ?b then _ else _] => destruct b
         end;
    (split; [first [exact Hmain
                   |eapply only_emits_trans; [exact Hmain|apply only_emits_emit]]|]);
    simpl; rewrite ?length_app; simpl; simpl in Hlm; rewrite ?length_app in Hlm;
    simpl in Hlm; lia.
Qed.

End EmitFrame.

Section EmitJumps.
Context `{duk_js_bytecode}.

Lemma land_lnot_marker_small (x : Z) :
  0 <= x < 2 ^ 31 -> Z.land x (Z.lnot DUK__CONST_MARKER) = x.
Proof.
  intros Hx. unfold DUK__CONST_MARKER. apply Z.bits_inj'. intros n Hn.
  rewrite Z.land_spec, Z.lnot_spec, Z.pow2_bits_eqb by lia.
  destruct (Z.eqb_spec 31 n) as [<-|Hne]; cbn [negb]; [|apply andb_true_r].
  rewrite (testbit_small x 31 31) by lia. reflexivity.
Qed.

Lemma emit_twice (c : duk_compiler_ctx) (w1 w2 : Z) :
  duk__emit (duk__emit c w1) w2
  = upd_func
      (fun f => set_h_code
                  (h_code f ++ [mk_instr (wrap32 w1) (start_line (curr_token c));
                                mk_instr (wrap32 w2) (start_line (curr_token c))]) f) c.
Proof.
  destruct c as [f ? ? ? ? ?]. destruct f. unfold duk__emit, upd_func. simpl.
  rewrite <- app_assoc. reflexivity.
Qed.

Local Ltac loadint_two_words val reg :=
  change (Z.shiftl 1 18 - 1) with (Z.ones 18);
    rewrite Z.land_ones, Z.shiftr_div_pow2 by lia;
    assert (Hhi : 0 <= val / 2 ^ 18 + 2 ^ 17 <= DUK_BC_BC_MAX)
      by (unfold DUK_BC_BC_MAX; Z.div_mod_to_equations; lia);
    assert (Hlo : 0 <= val mod 2 ^ 18 <= DUK_BC_BC_MAX)
      by (unfold DUK_BC_BC_MAX; Z.div_mod_to_equations; lia);
    unfold DUK_BC_BC_MAX in Hhi, Hlo;
    rewrite emit_a_bc_direct
      by (rewrite ?land_lnot_marker_small; unfold DUK_BC_A_MAX, DUK_BC_BC_MAX; lia);
    cbn [bind];
    rewrite emit_a_bc_direct
      by (rewrite ?land_lnot_marker_small; unfold DUK_BC_A_MAX, DUK_BC_BC_MAX; lia);
    rewrite !land_lnot_marker_small, !land_opcode_ff by (done || lia);
    destruct (dec_enc_op_a_bc DUK_OP_LDINT reg (val / 2 ^ 18 + 2 ^ 17))
      as (Hop1 & Ha1 & Hbc1); [done|done|unfold DUK_BC_BC_MAX; lia|];
    destruct (dec_enc_op_a_bc DUK_OP_LDINTX reg (val mod 2 ^ 18))
      as (Hop2 & Ha2 & Hbc2); [done|done|unfold DUK_BC_BC_MAX; lia|];
    eexists [_; _]; (split; [rewrite emit_twice; reflexivity|]);
    rewrite Hbc1, Hbc2; split_and!; try done; Z.div_mod_to_equations; lia.

(** X5: duk__emit_loadint() of a 32-bit integer into a register up to 0xff
    returns, and emits either one LDINT whose BC field less the bias is the
    value, or an LDINT followed by an LDINTX whose BC fields are the high part
    (biased) and the low 18 bits of the value: the high part times 2^18 plus
    the low part is the value. *)
Theorem emit_loadint_value (comp_ctx : duk_compiler_ctx) (reg val : Z) :
  is_opcode DUK_OP_LDINT -> is_opcode DUK_OP_LDINTX ->
  0 <= reg <= 0xff -> - 2 ^ 31 <= val < 2 ^ 31 ->
  exists ws,
    duk__emit_loadint comp_ctx reg val
      = Ok (upd_func
              (fun f => set_h_code
                          (h_code f ++
                           map (fun w => mk_instr w (start_line (curr_token comp_ctx))) ws)
                          f)
              comp_ctx) /\
    match ws with
    | [w] =>
      DUK_DEC_OP w = DUK_OP_LDINT /\ DUK_DEC_A w = reg /\
      DUK_DEC_BC w - DUK_BC_LDINT_BIAS = val
    | [w1; w2] =>
      DUK_DEC_OP w1 = DUK_OP_LDINT /\ DUK_DEC_A w1 = reg /\
      DUK_DEC_OP w2 = DUK_OP_LDINTX /\ DUK_DEC_A w2 = reg /\
      (DUK_DEC_BC w1 - DUK_BC_LDINT_BIAS) * 2 ^ 18 + DUK_DEC_BC w2 = val
    | _ => False
    end.
Proof.
  intros Hint Hintx Hreg Hval. unfold duk__emit_loadint.
  unfold DUK_BC_BC_MIN, DUK_BC_LDINT_BIAS, DUK_BC_LDINTX_SHIFT.
  destruct (Z.leb_spec (0 - 2 ^ 17) val); destruct (Z.leb_spec val (DUK_BC_BC_MAX - 2 ^ 17));
    cbn [andb].
  - unfold DUK_BC_BC_MAX in *.
    rewrite emit_a_bc_direct
      by (rewrite ?land_lnot_marker_small; unfold DUK_BC_A_MAX, DUK_BC_BC_MAX; lia).
    rewrite land_lnot_marker_small, land_opcode_ff by (done || lia).
    destruct (dec_enc_op_a_bc DUK_OP_LDINT reg (val + 2 ^ 17)) as (Hop & Ha & Hbc);
      [done|done|unfold DUK_BC_BC_MAX; lia|].
    eexists [_]. split; [reflexivity|]. rewrite Hbc. split_and!; [done|done|lia].
  - loadint_two_words val reg.
  - loadint_two_words val reg.
  - loadint_two_words val reg.
Qed.

Lemma dec_jump_word (pc target_pc : Z) :
  is_opcode DUK_OP_JUMP ->
  - 2 ^ 25 <= target_pc - pc - 1 < 2 ^ 25 ->
  let w := wrap32 (DUK_ENC_OP_ABC DUK_OP_JUMP (target_pc - pc - 1 + DUK_BC_JUMP_BIAS)) in
  DUK_DEC_OP w = DUK_OP_JUMP /\ jump_target pc w = target_pc.
Proof.
  intros Hop Hoff w. subst w. split; [now apply dec_op_enc_abc|].
  unfold jump_target. rewrite dec_abc_enc_abc; unfold DUK_BC_JUMP_BIAS; [lia|done|lia].
Qed.

(** X6: duk__emit_jump() appends one JUMP instruction whose target, decoded
    from its biased offset and its own position, is [target_pc]; the target
    may lie before or after the jump, up to 2^25 instructions away. *)
Theorem emit_jump_round_trip (comp_ctx : duk_compiler_ctx) (target_pc : Z) :
  is_opcode DUK_OP_JUMP ->
  let pc := duk__get_current_pc comp_ctx in
  - 2 ^ 25 <= target_pc - pc - 1 < 2 ^ 25 ->
  exists w,
    duk__emit_jump comp_ctx target_pc
      = upd_func
          (fun f => set_h_code
                      (h_code f ++ [mk_instr w (start_line (curr_token comp_ctx))]) f)
          comp_ctx /\
    DUK_DEC_OP w = DUK_OP_JUMP /\
    jump_target pc w = target_pc.
Proof.
  intros Hop pc Hoff. eexists. split; [reflexivity|].
  apply (dec_jump_word pc target_pc Hop Hoff).
Qed.

Lemma patch_jump_inside (comp_ctx : duk_compiler_ctx) (jump_pc target_pc : Z) instr :
  is_opcode DUK_OP_JUMP ->
  buf_get (h_code (curr_func comp_ctx)) jump_pc = Some instr ->
  - 2 ^ 25 <= target_pc - jump_pc - 1 < 2 ^ 25 ->
  exists code' w,
    duk__patch_jump comp_ctx jump_pc target_pc
      = Ok (upd_func (set_h_code code') comp_ctx) /\
    length code' = length (h_code (curr_func comp_ctx)) /\
    buf_get code' jump_pc = Some (mk_instr w (instr_line instr)) /\
    DUK_DEC_OP w = DUK_OP_JUMP /\
    jump_target jump_pc w = target_pc /\
    forall pc, pc <> jump_pc ->
               buf_get code' pc = buf_get (h_code (curr_func comp_ctx)) pc.
Proof.
  intros Hop Hget Hoff. unfold duk__patch_jump, duk__get_instr_ptr.
  pose proof (buf_get_bounds _ _ _ Hget) as Hpc.
  destruct (Z.ltb_spec jump_pc 0); [lia|]. rewrite Hget. cbn [bind].
  eexists _, _. split; [reflexivity|].
  destruct (dec_jump_word jump_pc target_pc Hop Hoff) as [Hdop Htgt].
  split_and!; [apply length_insert| |exact Hdop|exact Htgt|].
  - apply buf_get_Some. split; [lia|].
    apply list_lookup_insert_eq. lia.
  - intros pc Hne. unfold buf_get. destruct (Z.ltb_spec pc 0); [done|].
    apply list_lookup_insert_ne. lia.
Qed.

(** X7: duk__patch_jump() at a negative pc does nothing.  At a pc inside the
    code it overwrites that instruction, whatever it was, with a JUMP to
    [target_pc], keeping its line number; the code keeps its length and every
    other instruction. *)
Theorem patch_jump_retargets (comp_ctx : duk_compiler_ctx) (jump_pc target_pc : Z) :
  is_opcode DUK_OP_JUMP ->
  (jump_pc < 0 -> duk__patch_jump comp_ctx jump_pc target_pc = Ok comp_ctx) /\
  (forall instr,
     buf_get (h_code (curr_func comp_ctx)) jump_pc = Some instr ->
     - 2 ^ 25 <= target_pc - jump_pc - 1 < 2 ^ 25 ->
     exists code' w,
       duk__patch_jump comp_ctx jump_pc target_pc
         = Ok (upd_func (set_h_code code') comp_ctx) /\
       length code' = length (h_code (curr_func comp_ctx)) /\
       buf_get code' jump_pc = Some (mk_instr w (instr_line instr)) /\
       DUK_DEC_OP w = DUK_OP_JUMP /\
       jump_target jump_pc w = target_pc /\
       forall pc, pc <> jump_pc ->
                  buf_get code' pc = buf_get (h_code (curr_func comp_ctx)) pc).
Proof.
  intros Hop. split.
  - intros Hneg. unfold duk__patch_jump.
    destruct (Z.ltb_spec jump_pc 0); [reflexivity|lia].
  - intros instr Hget Hoff. now apply patch_jump_inside.
Qed.

(** X8: a forward jump.  duk__emit_jump_empty() returns the pc of the
    placeholder it emits; after any further emission, duk__patch_jump_here()
    on that pc turns the placeholder into a JUMP to the current end of the
    code, that is to the next instruction to be emitted, and changes no other
    instruction. *)
Theorem jump_empty_patched_here (comp_ctx comp_ctx2 : duk_compiler_ctx) :
  is_opcode DUK_OP_JUMP ->
  only_emits (snd (duk__emit_jump_empty comp_ctx)) comp_ctx2 ->
  Z.of_nat (length (h_code (curr_func comp_ctx2))) <= 2 ^ 25 ->
  let jump_pc := fst (duk__emit_jump_empty comp_ctx) in
  exists code' w,
    duk__patch_jump_here comp_ctx2 jump_pc = Ok (upd_func (set_h_code code') comp_ctx2) /\
    length code' = length (h_code (curr_func comp_ctx2)) /\
    buf_get code' jump_pc = Some (mk_instr w (start_line (curr_token comp_ctx))) /\
    DUK_DEC_OP w = DUK_OP_JUMP /\
    jump_target jump_pc w = duk__get_current_pc comp_ctx2 /\
    forall pc, pc <> jump_pc ->
               buf_get code' pc = buf_get (h_code (curr_func comp_ctx2)) pc.
Proof.
  intros Hop (suffix & ns & ->) Hlen jump_pc.
  unfold duk__patch_jump_here.
  set (placeholder := mk_instr (wrap32 (DUK_ENC_OP_ABC DUK_OP_JUMP 0))
                        (start_line (curr_token comp_ctx))).
  assert (Hcode : h_code (curr_func
            (upd_func (fun f => set_needs_shuffle ns (set_h_code (h_code f ++ suffix) f))
               (duk__emit_jump_empty comp_ctx).2))
          = h_code (curr_func comp_ctx) ++ placeholder :: suffix).
  { simpl. rewrite <- app_assoc. reflexivity. }
  assert (Hget : buf_get (h_code (curr_func
            (upd_func (fun f => set_needs_shuffle ns (set_h_code (h_code f ++ suffix) f))
               (duk__emit_jump_empty comp_ctx).2))) jump_pc = Some placeholder).
  { rewrite Hcode. unfold jump_pc. simpl. unfold duk__get_current_pc.
    rewrite buf_get_of_nat. apply list_lookup_middle. reflexivity. }
  rewrite Hcode in Hlen. rewrite length_app in Hlen. simpl in Hlen.
  apply (patch_jump_inside _ jump_pc _ placeholder Hop Hget).
  unfold duk__get_current_pc. rewrite Hcode, length_app. simpl length.
  unfold jump_pc. simpl. unfold duk__get_current_pc. lia.
Qed.

(** X9: duk__insert_jump_entry() at a pc from 0 to the end of the code
    inserts an empty JUMP there: the instructions before [jump_pc] keep their
    place, those from [jump_pc] on move up by one, word and line unchanged
    (the offsets they hold are not adjusted). *)
Theorem insert_jump_entry_shifts (comp_ctx : duk_compiler_ctx) (jump_pc : Z) :
  is_opcode DUK_OP_JUMP ->
  0 <= jump_pc <= duk__get_current_pc comp_ctx ->
  let code := h_code (curr_func comp_ctx) in
  exists code' w,
    duk__insert_jump_entry comp_ctx jump_pc = Ok (upd_func (set_h_code code') comp_ctx) /\
    length code' = S (length code) /\
    buf_get code' jump_pc = Some (mk_instr w (start_line (curr_token comp_ctx))) /\
    DUK_DEC_OP w = DUK_OP_JUMP /\ DUK_DEC_ABC w = 0 /\
    (forall pc, pc < jump_pc -> buf_get code' pc = buf_get code pc) /\
    (forall pc, jump_pc <= pc -> buf_get code' (pc + 1) = buf_get code pc).
Proof.
  intros Hop Hpc code. unfold duk__insert_jump_entry.
  destruct (Z.leb_spec 0 jump_pc); [|lia].
  destruct (Z.leb_spec jump_pc (duk__get_current_pc comp_ctx)); [|lia]. cbn [andb].
  unfold duk__get_current_pc in *. subst code.
  set (code := h_code (curr_func comp_ctx)) in *.
  exists (take (Z.to_nat jump_pc) code ++
          mk_instr (wrap32 (DUK_ENC_OP_ABC DUK_OP_JUMP 0))
            (start_line (curr_token comp_ctx)) :: drop (Z.to_nat jump_pc) code).
  eexists. split; [reflexivity|].
  assert (Htake : length (take (Z.to_nat jump_pc) code) = Z.to_nat jump_pc)
    by (rewrite length_take; lia).
  split_and!.
  - rewrite length_app, Htake. simpl. rewrite length_drop. lia.
  - apply buf_get_Some. split; [lia|].
    rewrite lookup_app_r by lia. rewrite Htake, Nat.sub_diag. reflexivity.
  - now apply dec_op_enc_abc.
  - apply dec_abc_enc_abc; [done|lia].
  - intros pc Hlt. unfold buf_get. destruct (Z.ltb_spec pc 0); [done|].
    rewrite lookup_app_l by lia. apply lookup_take_lt. lia.
  - intros pc Hge. unfold buf_get.
    destruct (Z.ltb_spec (pc + 1) 0); [lia|]. destruct (Z.ltb_spec pc 0); [lia|].
    rewrite lookup_app_r by lia. rewrite Htake.
    replace (Z.to_nat (pc + 1) - Z.to_nat jump_pc)%nat
      with (S (Z.to_nat pc - Z.to_nat jump_pc)) by lia.
    simpl. rewrite lookup_drop. f_equal. lia.
Qed.

End EmitJumps.

(** ** Temporaries and constants *)

Section TempsAndConsts.
Context `{duk_js_bytecode}.

(** X10: temp_max is a high-water mark.  When duk__alloctemps() returns, it
    returns the old temp_next, the [num] registers from there on are all
    below the new temp_max (the nregs of the function template), temp_max has
    not decreased and stays within DUK__MAX_TEMPS if it was.
    duk__settemp_checkmax() sets temp_next and never lowers temp_max
    either. *)
Theorem temp_max_is_high_water_mark (comp_ctx : duk_compiler_ctx) :
  (forall num r comp_ctx',
     duk__alloctemps comp_ctx num = Ok (r, comp_ctx') ->
     r = temp_next (curr_func comp_ctx) /\
     temp_next (curr_func comp_ctx') = r + num /\
     (forall reg, r <= reg < r + num -> reg < temp_max (curr_func comp_ctx')) /\
     temp_max (curr_func comp_ctx) <= temp_max (curr_func comp_ctx') /\
     tmpl_nregs (duk__convert_to_func_template comp_ctx') = temp_max (curr_func comp_ctx') /\
     (temp_max (curr_func comp_ctx) <= DUK__MAX_TEMPS ->
      temp_max (curr_func comp_ctx') <= DUK__MAX_TEMPS)) /\
  (forall next,
     let comp_ctx' := duk__settemp_checkmax comp_ctx next in
     temp_next (curr_func comp_ctx') = next /\
     next <= temp_max (curr_func comp_ctx') /\
     temp_max (curr_func comp_ctx) <= temp_max (curr_func comp_ctx')).
Proof.
  split.
  - intros num r comp_ctx'. unfold duk__alloctemps. simpl.
    destruct (Z.gtb_spec (temp_next (curr_func comp_ctx) + num) DUK__MAX_TEMPS);
      [discriminate|].
    destruct (Z.gtb_spec (temp_next (curr_func comp_ctx) + num)
                (temp_max (curr_func comp_ctx)));
      intros [= <- <-]; simpl; split_and!; try done; lia.
  - intros next. unfold duk__settemp_checkmax. simpl.
    destruct (Z.gtb_spec next (temp_max (curr_func comp_ctx))); simpl; lia.
Qed.

Lemma lor_const_marker (i : Z) :
  0 <= i < 2 ^ 31 ->
  Z.lor i DUK__CONST_MARKER = i + DUK__CONST_MARKER.
Proof.
  intros Hi. rewrite Z.lor_comm. unfold DUK__CONST_MARKER.
  rewrite (Z.add_comm i). apply (lor_shiftl_add 1 i 31); lia.
Qed.

(** X11: when duk__getconst() returns, its result is a constant number with
    the constant marker set, the entry at that index of the (possibly
    extended) constant pool is SameValue to the value asked for, the pool
    holds at most DUK__MAX_CONSTS entries if it held no more before, and the
    entries the pool already had keep their indices: the pool only grows at
    its end. *)
Theorem getconst_returns_index_of_value (comp_ctx : duk_compiler_ctx)
    (tv : duk_primitive) (r : Z) (comp_ctx' : duk_compiler_ctx) :
  duk__getconst comp_ctx tv = Ok (r, comp_ctx') ->
  let consts := h_consts (curr_func comp_ctx) in
  let consts' := h_consts (curr_func comp_ctx') in
  exists (i : nat) tv2,
    has_flag r DUK__CONST_MARKER = true /\
    Z.land r (Z.lnot DUK__CONST_MARKER) = Z.of_nat i /\
    Z.of_nat i < DUK__MAX_CONSTS /\
    consts' !! i = Some tv2 /\ duk_js_samevalue tv tv2 = true /\
    (consts' = consts \/ consts' = consts ++ [tv]) /\
    (forall (j : nat) x, consts !! j = Some x -> consts' !! j = Some x).
Proof.
  intros Hget consts consts'. subst consts'. unfold duk__getconst in Hget.
  fold consts in Hget.
  rewrite getconst_window in Hget by lia.
  destruct (duk__getconst_scan tv consts _ 0) as [i|] eqn:Hscan.
  - injection Hget as <- <-.
    apply getconst_scan_Some in Hscan as (Hi & Hl & _).
    assert (Hi' : 0 <= Z.of_nat i < 256) by lia.
    exists i, tv. rewrite lor_const_marker by lia.
    rewrite has_marker_constant, clear_marker by (unfold DUK__CONST_MARKER; lia).
    unfold DUK__MAX_CONSTS, DUK_BC_BC_MAX.
    split_and!; auto; try lia. now apply duk_js_samevalue_true.
  - destruct (Z.geb_spec (Z.of_nat (length consts)) DUK__MAX_CONSTS) as [Hge|Hlt];
      [discriminate|].
    injection Hget as <- <-. simpl. fold consts.
    unfold DUK__MAX_CONSTS, DUK_BC_BC_MAX in *.
    exists (length consts), tv. rewrite lor_const_marker by lia.
    rewrite has_marker_constant, clear_marker by (unfold DUK__CONST_MARKER; lia).
    split_and!; auto; try lia.
    + apply list_lookup_middle. reflexivity.
    + now apply duk_js_samevalue_true.
    + intros j x Hj. now apply lookup_app_l_Some.
Qed.

End TempsAndConsts.

(** ** The label table *)

Section Labels.
Context `{duk_js_bytecode}.

Lemma add_label_loop_ok (infos : list duk_labelinfo) (h : duk_hstring) :
  forall li : nat,
    (li <= length infos)%nat ->
    duk__add_label_loop infos h li =
    if negb (String.eqb h EmptyString) &&
       existsb (fun info => String.eqb (h_label info) h) (take li infos)
    then DUK_ERROR DUK_ERR_SYNTAX_ERROR "duplicate (non-empty) label"
    else Ok tt.
Proof.
  induction li as [|li IH]; intros Hli; simpl.
  - now rewrite andb_false_r.
  - destruct (lookup_lt_is_Some_2 infos li) as [info Hinfo]; [lia|].
    rewrite Hinfo, (take_S_r _ _ _ Hinfo), existsb_app. simpl.
    rewrite orb_false_r, IH by lia.
    destruct (String.eqb (h_label info) h), (negb (String.eqb h EmptyString));
      simpl; rewrite ?orb_true_r, ?orb_false_r, ?andb_false_r; try reflexivity.
Qed.


(** The loop of duk__update_label_flags() from index [li] down: it returns,
    keeps the length, and an entry gets the flags when every entry from it up
    to [li] has the label id, and stays as it is otherwise. *)
Lemma update_label_flags_loop_ok (id flags : Z) :
  forall (li : nat) (infos : list duk_labelinfo),
    (li <= length infos)%nat ->
    exists infos',
      duk__update_label_flags_loop infos id flags li = Ok infos' /\
      length infos' = length infos /\
      forall (i : nat) x,
        infos !! i = Some x ->
        ((i < li)%nat ->
         (forall (j : nat) y, (i <= j < li)%nat -> infos !! j = Some y -> label_id y = id) ->
         infos' !! i = Some (set_li_flags flags x)) /\
        ((li <= i)%nat \/
         (exists (j : nat) y, (i <= j < li)%nat /\ infos !! j = Some y /\ label_id y <> id) ->
         infos' !! i = Some x).
Proof.
  induction li as [|li IH]; intros infos Hli; simpl.
  - exists infos. split_and!; auto. intros i x Hx. split; [lia|auto].
  - destruct (lookup_lt_is_Some_2 infos li) as [info Hinfo]; [lia|]. rewrite Hinfo.
    destruct (Z.eqb_spec (label_id info) id) as [Hid|Hid]; simpl.
    + destruct (IH (<[li := set_li_flags flags info]> infos)) as (infos' & Hloop & Hlen & Hall).
      { rewrite length_insert. lia. }
      exists infos'. rewrite length_insert in Hlen. split_and!; auto.
      intros i x Hx. destruct (decide (i = li)) as [->|Hne].
      * assert (x = info) by congruence. subst x.
        destruct (Hall li (set_li_flags flags info)) as [_ Hkeep].
        { apply list_lookup_insert_eq. lia. }
        split.
        -- intros _ _. apply Hkeep. left. lia.
        -- intros [Hge|(j & y & Hj & Hy & Hny)]; [lia|].
           assert (j = li) by lia. subst j. congruence.
      * destruct (Hall i x) as [Hset Hkeep].
        { rewrite list_lookup_insert_ne by done. exact Hx. }
        split.
        -- intros Hlt Hrun. apply Hset; [lia|].
           intros j y Hj Hy. rewrite list_lookup_insert_ne in Hy by lia.
           apply (Hrun j y); [lia|done].
        -- intros [Hge|(j & y & Hj & Hy & Hny)].
           ++ apply Hkeep. left. lia.
           ++ apply Hkeep. right. exists j, y.
              assert (j <> li) by congruence.
              rewrite list_lookup_insert_ne by done. split_and!; auto; lia.
    + exists infos. split_and!; auto. intros i x Hx. split; [|auto].
      intros Hlt Hrun. exfalso. apply Hid. apply (Hrun li info); [lia|done].
Qed.

(** X13: duk__update_label_flags() always returns; it keeps the number of
    entries and sets the flags of exactly the topmost entries of the label
    table that carry the label id: an entry with only such entries above it
    gets the flags (its label, id, catch depth and pc are kept), and an entry
    at or below an entry with another id is left as it is. *)
Theorem update_label_flags_topmost_run (comp_ctx : duk_compiler_ctx) (id flags : Z) :
  let infos := h_labelinfos (curr_func comp_ctx) in
  exists infos',
    duk__update_label_flags comp_ctx id flags
      = Ok (upd_func (set_h_labelinfos infos') comp_ctx) /\
    length infos' = length infos /\
    forall (i : nat) x,
      infos !! i = Some x ->
      ((forall (j : nat) y, (i <= j)%nat -> infos !! j = Some y -> label_id y = id) ->
       infos' !! i = Some (set_li_flags flags x)) /\
      ((exists (j : nat) y, (i <= j)%nat /\ infos !! j = Some y /\ label_id y <> id) ->
       infos' !! i = Some x).
Proof.
  intros infos. unfold duk__update_label_flags. fold infos.
  destruct (update_label_flags_loop_ok id flags (length infos) infos)
    as (infos' & Hloop & Hlen & Hall); [lia|].
  rewrite Hloop. exists infos'. split_and!; auto.
  intros i x Hx. destruct (Hall i x Hx) as [Hset Hkeep].
  pose proof (lookup_lt_Some _ _ _ Hx) as Hi. split.
  - intros Hrun. apply Hset; [done|]. intros j y Hj. apply Hrun. lia.
  - intros (j & y & Hj & Hy & Hny). apply Hkeep. right. exists j, y.
    pose proof (lookup_lt_Some _ _ _ Hy). split_and!; auto; lia.
Qed.

(** What the loop of duk__lookup_active_label() returns from index [li]
    down: the innermost acceptable entry, none, or the error of a continue
    that names a statement which is not an iteration. *)
Lemma lookup_active_label_loop_ok (infos : list duk_labelinfo) (h : duk_hstring)
    (is_break : bool) :
  forall li : nat,
    (li <= length infos)%nat ->
    let skipped (lo : nat) :=
      forall (j : nat) y,
        (lo <= j < li)%nat -> infos !! j = Some y -> h_label y = h ->
        h = EmptyString /\ is_break = false /\
        has_flag (li_flags y) DUK_LABEL_FLAG_ALLOW_CONTINUE = false in
    match duk__lookup_active_label_loop infos h is_break li with
    | Ok (Some k) =>
      (k < li)%nat /\ skipped (S k) /\
      exists info, infos !! k = Some info /\ h_label info = h /\
        (is_break = true \/ has_flag (li_flags info) DUK_LABEL_FLAG_ALLOW_CONTINUE = true)
    | Ok None => skipped 0%nat
    | Throw e =>
      e = duk_error_object DUK_ERR_SYNTAX_ERROR
            "continue label matches an invalid statement type" /\
      is_break = false /\ h <> EmptyString /\
      exists (k : nat) info, (k < li)%nat /\ infos !! k = Some info /\ h_label info = h /\
        has_flag (li_flags info) DUK_LABEL_FLAG_ALLOW_CONTINUE = false /\ skipped (S k)
    | Undef => False
    | OutOfFuel => False
    end.
Proof.
  induction li as [|li IH]; intros Hli skipped; simpl.
  - intros j y Hj. lia.
  - destruct (lookup_lt_is_Some_2 infos li) as [info Hinfo]; [lia|]. rewrite Hinfo.
    specialize (IH ltac:(lia)). cbv zeta in IH.
    destruct (String.eqb_spec (h_label info) h) as [Hlab|Hlab]; simpl.
    + destruct is_break.
      { split_and!; [lia| |eauto]. intros j y Hj. lia. }
      destruct (has_flag (li_flags info) DUK_LABEL_FLAG_ALLOW_CONTINUE) eqn:Hcont.
      { split_and!; [lia| |eauto]. intros j y Hj. lia. }
      destruct (String.eqb_spec h EmptyString) as [Hempty|Hnamed]; simpl.
      * destruct (duk__lookup_active_label_loop infos h false li) as [[k|]|e| |];
          try done.
        -- destruct IH as (Hk & Hskip & Hfound). split_and!; [lia| |done].
           intros j y Hj Hy Hl. destruct (decide (j = li)) as [->|Hne].
           ++ assert (y = info) by congruence. subst y. auto.
           ++ apply (Hskip j y); [lia|done|done].
        -- intros j y Hj Hy Hl. destruct (decide (j = li)) as [->|Hne].
           ++ assert (y = info) by congruence. subst y. auto.
           ++ apply (IH j y); [lia|done|done].
        -- destruct IH as (_ & _ & Hne & _). done.
      * split_and!; auto. exists li, info. split_and!; auto. intros j y Hj. lia.
    + destruct (duk__lookup_active_label_loop infos h is_break li) as [[k|]|e| |];
        try done.
      * destruct IH as (Hk & Hskip & Hfound). split_and!; [lia| |done].
        intros j y Hj Hy Hl. destruct (decide (j = li)) as [->|Hne]; [congruence|].
        apply (Hskip j y); [lia|done|done].
      * intros j y Hj Hy Hl. destruct (decide (j = li)) as [->|Hne]; [congruence|].
        apply (IH j y); [lia|done|done].
      * destruct IH as (-> & Hb & Hne & k & info' & Hk & Hik & Hlk & Hfk & Hskip).
        split_and!; auto. exists k, info'. split_and!; auto.
        intros j y Hj Hy Hl. destruct (decide (j = li)) as [->|Hnj]; [congruence|].
        apply (Hskip j y); [lia|done|done].
Qed.

(** X14: when duk__lookup_active_label() returns, the label id, catch depth
    and pc it returns are those of an entry of the label table that carries
    the label and accepts the statement (any entry for a break, an entry with
    ALLOW_CONTINUE for a continue); it is the innermost such entry: every
    entry above it with that label is an empty label that does not allow the
    continue.  The is_closest result tells whether it is the top entry. *)
Theorem lookup_active_label_innermost (comp_ctx : duk_compiler_ctx) (h : duk_hstring)
    (is_break : bool) (id cd pc : Z) (closest : bool) :
  duk__lookup_active_label comp_ctx h is_break = Ok (id, cd, pc, closest) ->
  let infos := h_labelinfos (curr_func comp_ctx) in
  exists (li : nat) info,
    infos !! li = Some info /\
    id = label_id info /\ cd = li_catch_depth info /\ pc = pc_label info /\
    h_label info = h /\
    (is_break = true \/ has_flag (li_flags info) DUK_LABEL_FLAG_ALLOW_CONTINUE = true) /\
    (forall (j : nat) y,
       (li < j)%nat -> infos !! j = Some y -> h_label y = h ->
       h = EmptyString /\ is_break = false /\
       has_flag (li_flags y) DUK_LABEL_FLAG_ALLOW_CONTINUE = false) /\
    (closest = true <-> S li = length infos).
Proof.
  intros Hlookup infos. unfold duk__lookup_active_label in Hlookup. fold infos in Hlookup.
  pose proof (lookup_active_label_loop_ok infos h is_break (length infos) ltac:(lia)) as Hloop.
  cbv zeta in Hloop.
  destruct (duk__lookup_active_label_loop infos h is_break (length infos))
    as [[li|]|e| |]; try done.
  destruct Hloop as (Hli & Hskip & info & Hinfo & Hlab & Hacc).
  simpl in Hlookup. rewrite Hinfo in Hlookup. injection Hlookup as <- <- <- <-.
  exists li, info. split_and!; auto.
  - intros j y Hj Hy. apply (Hskip j y); [|done].
    pose proof (lookup_lt_Some _ _ _ Hy). lia.
  - rewrite bool_decide_eq_true. lia.
Qed.

(** X15: duk__lookup_active_label() never reads outside the label table, and
    fails with a SyntaxError in two cases: no entry carries the label ("cannot
    resolve label", in particular for an empty table); or a continue names a
    non-empty label whose innermost entry does not allow a continue. *)
Theorem lookup_active_label_errors (comp_ctx : duk_compiler_ctx) (h : duk_hstring)
    (is_break : bool) :
  let infos := h_labelinfos (curr_func comp_ctx) in
  duk__lookup_active_label comp_ctx h is_break <> Undef /\
  ((forall info, info ∈ infos -> h_label info <> h) ->
   duk__lookup_active_label comp_ctx h is_break
   = DUK_ERROR DUK_ERR_SYNTAX_ERROR "cannot resolve label") /\
  (forall (k : nat) info,
     is_break = false -> h <> EmptyString ->
     infos !! k = Some info -> h_label info = h ->
     has_flag (li_flags info) DUK_LABEL_FLAG_ALLOW_CONTINUE = false ->
     (forall (j : nat) y, (k < j)%nat -> infos !! j = Some y -> h_label y <> h) ->
     duk__lookup_active_label comp_ctx h is_break
     = DUK_ERROR DUK_ERR_SYNTAX_ERROR "continue label matches an invalid statement type").
Proof.
  intros infos. unfold duk__lookup_active_label. fold infos.
  pose proof (lookup_active_label_loop_ok infos h is_break (length infos) ltac:(lia)) as Hloop.
  cbv zeta in Hloop.
  destruct (duk__lookup_active_label_loop infos h is_break (length infos))
    as [[li|]|e| |]; try done; simpl.
  - destruct Hloop as (Hli & Hskip & info & Hinfo & Hlab & Hacc). rewrite Hinfo.
    split_and!; [done| |].
    + intros Hno. exfalso. apply (Hno info); [|done].
      now apply list_elem_of_lookup_2 in Hinfo.
    + intros k info' -> Hne Hk Hlk Hfk Hinner. exfalso.
      destruct (Nat.lt_total k li) as [Hlt|[->|Hgt]].
      * now apply (Hinner li info).
      * destruct Hacc as [?|Hc]; [done|]. congruence.
      * destruct (Hskip k info') as (? & _); [|done|done|done].
        pose proof (lookup_lt_Some _ _ _ Hk). lia.
  - split_and!; [done|done|].
    intros k info' -> Hne Hk Hlk Hfk Hinner. exfalso.
    destruct (Hloop k info') as (? & _); [|done|done|done].
    pose proof (lookup_lt_Some _ _ _ Hk). lia.
  - destruct Hloop as (-> & Hb & Hne & k & info & Hk & Hik & Hlk & Hfk & Hskip).
    split_and!; [done| |done].
    intros Hno. exfalso. apply (Hno info); [|done].
    now apply list_elem_of_lookup_2 in Hik.
Qed.

(** X16: a label registered with duk__add_label() and given its flags with
    duk__update_label_flags() is found by duk__lookup_active_label() as the
    closest label, with the label id, pc and catch depth it was registered
    with: for a break always, for a continue when the flags allow it.  This
    is the case in which the break or continue becomes a plain jump. *)
Theorem added_label_is_closest (comp_ctx comp_ctx1 comp_ctx2 : duk_compiler_ctx)
    (h : duk_hstring) (pc id flags : Z) (is_break : bool) :
  duk__add_label comp_ctx h pc id = Ok comp_ctx1 ->
  duk__update_label_flags comp_ctx1 id flags = Ok comp_ctx2 ->
  is_break = true \/ has_flag flags DUK_LABEL_FLAG_ALLOW_CONTINUE = true ->
  duk__lookup_active_label comp_ctx2 h is_break
  = Ok (id, catch_depth (curr_func comp_ctx), pc, true).
Proof.
  intros Hadd Hupd Hacc.
  unfold duk__add_label in Hadd.
  destruct (duk__add_label_loop _ _ _); try discriminate. simpl in Hadd.
  injection Hadd as <-.
  set (infos := h_labelinfos (curr_func comp_ctx)) in *.
  set (new := mk_labelinfo 0 id h (catch_depth (curr_func comp_ctx)) pc) in *.
  unfold duk__update_label_flags in Hupd. simpl in Hupd. fold infos in Hupd.
  destruct (update_label_flags_loop_ok id flags (length (infos ++ [new])) (infos ++ [new]))
    as (infos' & Hloop & Hlen & Hall); [lia|].
  rewrite Hloop in Hupd. simpl in Hupd. injection Hupd as <-.
  destruct (Hall (length infos) new) as [Hset _].
  { apply list_lookup_middle. reflexivity. }
  rewrite length_app in Hlen, Hset. simpl in Hlen, Hset.
  assert (Htop : infos' !! length infos = Some (set_li_flags flags new)).
  { apply Hset; [lia|]. intros j y Hj Hy.
    assert (j = length infos) by lia. subst j.
    rewrite list_lookup_middle in Hy by done. now injection Hy as <-. }
  unfold duk__lookup_active_label. simpl.
  replace (length infos') with (S (length infos)) by lia. simpl.
  rewrite Htop. simpl. rewrite String.eqb_refl. simpl.
  destruct Hacc as [->| ->]; [|destruct is_break]; simpl; rewrite Htop; simpl;
    rewrite Nat.sub_0_r, bool_decide_eq_true_2 by done; reflexivity.
Qed.

(** X17: the label table is a stack.  After a label was registered with
    duk__add_label() and its flags were set with duk__update_label_flags(),
    duk__reset_labels_to_length() with the length saved before restores the
    compiler state exactly, provided the entry below (if any) belongs to
    another label site. *)
Theorem reset_labels_undoes_add_label (comp_ctx comp_ctx1 comp_ctx2 : duk_compiler_ctx)
    (h : duk_hstring) (pc id flags : Z) :
  duk__add_label comp_ctx h pc id = Ok comp_ctx1 ->
  duk__update_label_flags comp_ctx1 id flags = Ok comp_ctx2 ->
  (forall y, last (h_labelinfos (curr_func comp_ctx)) = Some y -> label_id y <> id) ->
  duk__reset_labels_to_length comp_ctx2
    (Z.of_nat (length (h_labelinfos (curr_func comp_ctx)))) = Ok comp_ctx.
Proof.
  intros Hadd Hupd Hbelow.
  unfold duk__add_label in Hadd.
  destruct (duk__add_label_loop _ _ _); try discriminate. simpl in Hadd.
  injection Hadd as <-.
  set (infos := h_labelinfos (curr_func comp_ctx)) in *.
  set (new := mk_labelinfo 0 id h (catch_depth (curr_func comp_ctx)) pc) in *.
  unfold duk__update_label_flags in Hupd. simpl in Hupd. fold infos in Hupd.
  destruct (update_label_flags_loop_ok id flags (length (infos ++ [new])) (infos ++ [new]))
    as (infos' & Hloop & Hlen & Hall); [lia|].
  rewrite Hloop in Hupd. simpl in Hupd. injection Hupd as <-.
  rewrite length_app in Hlen, Hall. simpl in Hlen, Hall.
  assert (Htake : take (length infos) infos' = infos).
  { apply list_eq. intros i. destruct (decide (i < length infos)%nat) as [Hlt|Hge].
    - rewrite lookup_take_lt by done.
      destruct (lookup_lt_is_Some_2 infos i Hlt) as [x Hx]. rewrite Hx.
      destruct (Hall i x) as [_ Hkeep]; [now apply lookup_app_l_Some|].
      apply Hkeep. right.
      destruct (lookup_lt_is_Some_2 infos (pred (length infos))) as [y Hy]; [lia|].
      exists (pred (length infos)), y. split_and!; try lia.
      + now apply lookup_app_l_Some.
      + apply Hbelow. now rewrite last_lookup.
    - rewrite lookup_take_ge by lia. symmetry. apply lookup_ge_None. lia. }
  unfold duk__reset_labels_to_length. simpl.
  destruct (Z.leb_spec 0 (Z.of_nat (length infos))); [|lia].
  destruct (Z.leb_spec (Z.of_nat (length infos)) (Z.of_nat (length infos'))); [|lia].
  simpl. rewrite Nat2Z.id, Htake. subst infos.
  destruct comp_ctx as [f ? ? ? ? ?]. destruct f. reflexivity.
Qed.

End Labels.

(** ** Recursion limit, token advance, formal arguments *)

Section ParserHelpers.
Context `{duk_js_bytecode}.
Variable duk_lexer_parse_js_input_element :
  duk_lexer_ctx -> bool -> bool -> outcome (duk_lexer_ctx * duk_token).
Variable duk__parse_stmt : duk_compiler_ctx -> bool -> outcome duk_compiler_ctx.
Variable DUK_HSTRING_HAS_RESERVED_WORD : duk_hstring -> bool.

Local Abbreviation advance_helper := (duk__advance_helper duk_lexer_parse_js_input_element).
Local Abbreviation parse_func_body :=
  (duk__parse_func_body duk_lexer_parse_js_input_element duk__parse_stmt
     DUK_HSTRING_HAS_RESERVED_WORD).

(** X18: the recursion guard.  At the recursion limit
    duk__recursion_increase() throws a RangeError, and so does
    duk__parse_func_body(), before it reads a token or parses a statement;
    below the limit the depth is incremented, and duk__recursion_decrease()
    restores the compiler state. *)
Theorem recursion_limit_guard (comp_ctx : duk_compiler_ctx) :
  (recursion_limit comp_ctx <= recursion_depth comp_ctx ->
   duk__recursion_increase comp_ctx
     = DUK_ERROR DUK_ERR_RANGE_ERROR "compiler recursion limit" /\
   forall fuel expect_eof implicit_return_value,
     parse_func_body fuel comp_ctx expect_eof implicit_return_value
     = DUK_ERROR DUK_ERR_RANGE_ERROR "compiler recursion limit") /\
  (recursion_depth comp_ctx < recursion_limit comp_ctx ->
   exists comp_ctx',
     duk__recursion_increase comp_ctx = Ok comp_ctx' /\
     recursion_depth comp_ctx' = recursion_depth comp_ctx + 1 /\
     duk__recursion_decrease comp_ctx' = comp_ctx).
Proof.
  unfold duk__recursion_increase. split; intros Hd.
  - destruct (Z.geb_spec (recursion_depth comp_ctx) (recursion_limit comp_ctx)); [|lia].
    split; [reflexivity|]. intros fuel expect_eof implicit_return_value.
    unfold duk__parse_func_body, duk__parse_func_body_pass1, duk__recursion_increase.
    destruct (Z.geb_spec (recursion_depth comp_ctx) (recursion_limit comp_ctx)); [|lia].
    reflexivity.
  - destruct (Z.geb_spec (recursion_depth comp_ctx) (recursion_limit comp_ctx)); [lia|].
    eexists. split; [reflexivity|]. split; [reflexivity|].
    destruct comp_ctx. unfold duk__recursion_decrease, set_recursion_depth.
    cbn -[Z.add Z.sub]. now rewrite Z.add_simpl_r.
Qed.


End ParserHelpers.

Section PrologueFormals.
Context `{duk_js_bytecode}.

(** The loop over the formal argument names, when no name is rejected. *)
Lemma prologue_formals_accepts (argnames : list duk_hstring) :
  forall (comp_ctx : duk_compiler_ctx) (i : Z),
    (is_strict (curr_func comp_ctx) = false \/
     (NoDup argnames /\
      forall name, name ∈ argnames ->
        DUK_HSTRING_HAS_EVAL_OR_ARGUMENTS name = false /\
        DUK_HSTRING_HAS_STRICT_RESERVED_WORD name = false /\
        h_varmap (curr_func comp_ctx) !! name = None)) ->
    exists varmap',
      duk__prologue_formals comp_ctx argnames i
        = Ok (upd_func (set_h_varmap varmap') comp_ctx) /\
      (forall (k : nat) name,
         argnames !! k = Some name ->
         (forall (j : nat), (k < j)%nat -> argnames !! j <> Some name) ->
         varmap' !! name = Some (VarReg (i + Z.of_nat k))) /\
      (forall name, name ∉ argnames ->
         varmap' !! name = h_varmap (curr_func comp_ctx) !! name).
Proof.
  induction argnames as [|h rest IH]; intros comp_ctx i Hok; simpl.
  - exists (h_varmap (curr_func comp_ctx)). split_and!; try done.
    destruct comp_ctx as [f ? ? ? ? ?]. destruct f. reflexivity.
  - assert (Hstep :
      (if is_strict (curr_func comp_ctx) && duk__hstring_is_eval_or_arguments comp_ctx h
       then @error_argname duk_compiler_ctx
       else if is_strict (curr_func comp_ctx) && varmap_has comp_ctx h
            then error_argname
            else if is_strict (curr_func comp_ctx) &&
                    DUK_HSTRING_HAS_STRICT_RESERVED_WORD h
                 then error_argname
                 else duk__prologue_formals (varmap_put h (VarReg i) comp_ctx) rest (i + 1))
      = duk__prologue_formals (varmap_put h (VarReg i) comp_ctx) rest (i + 1)).
    { destruct Hok as [->|[_ Hnames]]; [reflexivity|].
      destruct (Hnames h) as (Hea & Hres & Hvm); [left|].
      unfold duk__hstring_is_eval_or_arguments, varmap_has.
      rewrite Hea, Hres, !andb_false_r. case_bool_decide as Hsome.
      - rewrite Hvm in Hsome. now destruct Hsome.
      - now rewrite andb_false_r. }
    rewrite Hstep.
    destruct (IH (varmap_put h (VarReg i) comp_ctx) (i + 1))
      as (varmap' & Hrun & Hlast & Hother).
    { destruct Hok as [Hns|[Hnd Hnames]]; [now left|right].
      apply NoDup_cons in Hnd as [Hnotin Hnd]. split; [done|].
      intros name Hin. destruct (Hnames name) as (Hea & Hres & Hvm); [now right|].
      split_and!; [done|done|]. simpl. rewrite lookup_insert_ne; [done|].
      intros ->. done. }
    exists varmap'. split_and!.
    + rewrite Hrun. destruct comp_ctx as [f ? ? ? ? ?]. destruct f. reflexivity.
    + intros k name Hk Hlater. destruct k as [|k]; simpl in Hk.
      * injection Hk as ->. rewrite Z.add_0_r.
        rewrite Hother; [simpl; apply lookup_insert_eq|].
        intros (j & Hj)%list_elem_of_lookup_1. apply (Hlater (S j)); [lia|done].
      * rewrite (Hlast k name Hk).
        -- f_equal. f_equal. lia.
        -- intros j Hj. apply (Hlater (S j)). lia.
    + intros name Hnotin. apply not_elem_of_cons in Hnotin as [Hne Hnotin].
      rewrite (Hother name Hnotin). simpl. now apply lookup_insert_ne.
Qed.

(** X20: the formal arguments in the pass-2 prologue.  In non-strict code
    every list of names is accepted; in strict code a list without
    duplicates, eval, arguments and strict-mode reserved words is.  The loop
    then only changes the variable map: the k-th formal (from 0) is bound to
    register k, and of several formals with one name the last one wins. *)
Theorem prologue_formals_bind_registers (comp_ctx : duk_compiler_ctx) :
  let argnames := h_argnames (curr_func comp_ctx) in
  h_varmap (curr_func comp_ctx) = empty ->
  is_strict (curr_func comp_ctx) = false \/ ~ bad_strict_formals argnames ->
  exists varmap',
    duk__prologue_formals comp_ctx argnames 0
      = Ok (upd_func (set_h_varmap varmap') comp_ctx) /\
    (forall (k : nat) name,
       argnames !! k = Some name ->
       (forall (j : nat), (k < j)%nat -> argnames !! j <> Some name) ->
       varmap' !! name = Some (VarReg (Z.of_nat k))) /\
    (forall name, name ∉ argnames -> varmap' !! name = None).
Proof.
  intros argnames Hempty Hok.
  destruct (prologue_formals_accepts argnames comp_ctx 0) as (varmap' & Hrun & Hlast & Hother).
  { destruct Hok as [Hns|Hgood]; [now left|right].
    split.
    - destruct (decide (NoDup argnames)) as [Hnd|Hnd]; [done|].
      exfalso. apply Hgood. now left.
    - intros name Hin. rewrite Hempty, lookup_empty. split_and!; [| |done].
      + apply not_true_is_false. intros Hea. apply Hgood. right. exists name.
        split; [done|]. unfold DUK_HSTRING_HAS_EVAL_OR_ARGUMENTS in Hea.
        apply orb_true_iff in Hea as [?%String.eqb_eq|?%String.eqb_eq]; auto.
      + apply not_true_is_false. intros Hres. apply Hgood. right. exists name.
        split; [done|]. right. right.
        unfold DUK_HSTRING_HAS_STRICT_RESERVED_WORD in Hres.
        apply existsb_exists in Hres as (w & Hw & ->%String.eqb_eq).
        now apply list_elem_of_In. }
  exists varmap'. split_and!; [done| |].
  - intros k name Hk Hlater. rewrite (Hlast k name Hk Hlater). f_equal.
  - intros name Hnotin. rewrite (Hother name Hnotin), Hempty. apply lookup_empty.
Qed.

(** X21: the variable map of a function template.  When
    duk__convert_to_func_template() stores a _varmap, it is not empty and
    holds exactly the register bindings of the compiler's variable map: the
    null entries, which mark names that must be looked up slowly, are
    removed by duk__cleanup_varmap().  A _varmap is stored only for a
    function that accesses an identifier slowly, may call eval directly or
    has inner functions. *)
Theorem template_varmap_only_registers (comp_ctx : duk_compiler_ctx) :
  let func := curr_func comp_ctx in
  match tmpl_varmap (duk__convert_to_func_template comp_ctx) with
  | Some varmap =>
    varmap <> empty /\
    (id_access_slow func = true \/ may_direct_eval func = true \/ h_funcs func <> []) /\
    forall name v,
      varmap !! name = Some v <->
      (exists reg, v = VarReg reg) /\ h_varmap func !! name = Some v
  | None =>
    (id_access_slow func = false /\ may_direct_eval func = false /\ h_funcs func = []) \/
    forall name reg, h_varmap func !! name <> Some (VarReg reg)
  end.
Proof.
  intros func. unfold duk__convert_to_func_template. fold func. cbn [tmpl_varmap].
  assert (Hlookup : forall name v,
    duk__cleanup_varmap (h_varmap func) !! name = Some v <->
    (exists reg, v = VarReg reg) /\ h_varmap func !! name = Some v).
  { intros name v. unfold duk__cleanup_varmap. rewrite lookup_omap.
    destruct (h_varmap func !! name) as [[r|]|]; simpl; split; try done.
    - intros [= <-]. eauto.
    - now intros [_ ?].
    - now intros [[? ->] ?].
    - now intros [_ ?]. }
  destruct (id_access_slow func) eqn:Hslow; simpl.
  2: destruct (may_direct_eval func) eqn:Heval; simpl.
  3: destruct (Z.gtb_spec (Z.of_nat (length (map (fun e => e.1.1) (h_funcs func)))) 0)
       as [Hfuncs|Hfuncs].
  4:{ left. split_and!; try done. rewrite length_map in Hfuncs.
      destruct (h_funcs func); [done|simpl in Hfuncs; lia]. }
  all: destruct (Z.gtb_spec (Z.of_nat (size (duk__cleanup_varmap (h_varmap func)))) 0)
         as [Hsize|Hsize].
  all: try (split_and!; [intros Hm; rewrite Hm, map_size_empty in Hsize; lia| |exact Hlookup]).
  all: try (right; intros name reg Hreg;
            assert (Hin : duk__cleanup_varmap (h_varmap func) !! name = Some (VarReg reg))
              by (apply Hlookup; eauto);
            assert (Hz : size (duk__cleanup_varmap (h_varmap func)) = 0%nat) by lia;
            apply map_size_empty_iff in Hz; rewrite Hz, lookup_empty in Hin; discriminate).
  - auto.
  - auto.
  - right. right. rewrite length_map in Hfuncs. intros Hnil. rewrite Hnil in Hfuncs.
    simpl in Hfuncs. lia.
Qed.

End PrologueFormals.

(** ** The peephole optimizer preserves where jumps land *)

Section PeepholeLanding.
Context `{duk_js_bytecode}.

Lemma lands_at_rewrite (bc : list duk_compiler_instr) (pc1 : nat) bc' d :
  peephole_rewrite bc pc1 bc' d ->
  forall pc r, lands_at bc pc r <-> lands_at bc' pc r.
Proof.
  intros Hrw. destruct Hrw
    as [instr1 instr_t1 instr' t1 t2 Hi1 Hop1 Ht1 Hit1 Hopt1 Ht2 Hop' Htgt' Hline|Hno];
    [|done].
  assert (Hlt : (pc1 < length bc)%nat) by (now apply lookup_lt_Some in Hi1).
  assert (Hat : buf_get (<[pc1 := instr']> bc) (Z.of_nat pc1) = Some instr').
  { rewrite buf_get_of_nat. now apply list_lookup_insert_eq. }
  assert (Hother : forall pc, pc <> Z.of_nat pc1 ->
                              buf_get (<[pc1 := instr']> bc) pc = buf_get bc pc).
  { intros pc Hne. unfold buf_get. destruct (Z.ltb_spec pc 0); [done|].
    apply list_lookup_insert_ne. lia. }
  assert (Hb1 : buf_get bc (Z.of_nat pc1) = Some instr1) by now rewrite buf_get_of_nat.
  intros pc r. split.
  - induction 1 as [pc instr Hget Hop|pc instr r Hget Hop Hsub IH].
    + apply (lands_here _ pc instr); [|done]. rewrite Hother; [done|].
      intros ->. congruence.
    + destruct (decide (pc = Z.of_nat pc1)) as [->|Hne].
      * assert (instr = instr1) by congruence. subst instr. rewrite <- Ht1 in IH.
        apply (lands_jump _ _ instr' r Hat Hop'). rewrite Htgt'.
        destruct (decide (t1 = Z.of_nat pc1)) as [Heq|Hnt].
        -- assert (instr_t1 = instr1) by congruence. subst instr_t1.
           rewrite Ht2, Heq, <- Ht1, Heq. now rewrite Heq in IH.
        -- inversion IH as [? instr0 Hg0 Hop0|? instr0 ? Hg0 Hop0 Hsub0]; subst.
           ++ rewrite Hother in Hg0 by done. congruence.
           ++ rewrite Hother in Hg0 by done.
              assert (instr0 = instr_t1) by congruence. now subst instr0.
      * apply (lands_jump _ pc instr r); [|done|done]. now rewrite Hother.
  - induction 1 as [pc instr Hget Hop|pc instr r Hget Hop Hsub IH].
    + apply (lands_here _ pc instr); [|done]. rewrite <- Hother; [done|].
      intros ->. congruence.
    + destruct (decide (pc = Z.of_nat pc1)) as [->|Hne].
      * assert (instr = instr') by congruence. subst instr. rewrite Htgt' in IH.
        apply (lands_jump _ _ instr1 r Hb1 Hop1). rewrite <- Ht1.
        apply (lands_jump _ _ instr_t1 r Hit1 Hopt1). now rewrite <- Ht2.
      * apply (lands_jump _ pc instr r); [|done|done]. now rewrite <- Hother.
Qed.

Lemma lands_at_pass (i : nat) bc bc' c :
  peephole_pass_spec i bc bc' c ->
  forall pc r, lands_at bc pc r <-> lands_at bc' pc r.
Proof.
  induction 1 as [|bc pc1 bc1 d bc2 c Hlt Hrw Hpass IH]; [done|].
  intros pc r. rewrite (lands_at_rewrite _ _ _ _ Hrw pc r). apply IH.
Qed.

Lemma lands_at_spec (cap : nat) bc bc' :
  peephole_spec cap bc bc' ->
  forall pc r, lands_at bc pc r <-> lands_at bc' pc r.
Proof.
  induction 1 as [|cap bc bc' Hpass|cap bc bc1 c bc2 Hpass Hc Hspec IH]; [done| |].
  - now apply (lands_at_pass 0 _ _ 0).
  - intros pc r. rewrite (lands_at_pass _ _ _ _ Hpass pc r). apply IH.
Qed.

Lemma follow_jumps_lands (fuel : nat) (bc : list duk_compiler_instr) :
  forall pc r, follow_jumps fuel bc pc = Some r -> lands_at bc pc r.
Proof.
  induction fuel as [|fuel IH]; intros pc r; simpl;
    destruct (buf_get bc pc) as [instr|] eqn:Hget; try discriminate;
    destruct (Z.eqb_spec (DUK_DEC_OP (ins instr)) DUK_OP_JUMP) as [Hop|Hop];
    try discriminate.
  - intros [= <-]. now apply (lands_here _ pc instr).
  - intros Hrest. apply (lands_jump _ pc instr r Hget Hop). now apply IH.
  - intros [= <-]. now apply (lands_here _ pc instr).
Qed.

Lemma lands_at_not_jump (bc : list duk_compiler_instr) (pc r : Z) :
  lands_at bc pc r ->
  exists instr, buf_get bc r = Some instr /\ DUK_DEC_OP (ins instr) <> DUK_OP_JUMP.
Proof. induction 1; eauto. Qed.

(** X22: the peephole optimizer preserves where control lands.  For code
    whose jumps stay inside the code (of at most 2^25 instructions), following
    JUMP instructions from any pc reaches a non-JUMP instruction at [r] in the
    optimized code exactly when it does in the original code, and the
    instruction at [r] is the same in both. *)
Theorem peephole_preserves_landing (comp_ctx : duk_compiler_ctx) :
  bytecode_wf ->
  let code := h_code (curr_func comp_ctx) in
  jumps_in_bounds code ->
  Z.of_nat (length code) <= 2 ^ 25 ->
  exists code',
    duk__peephole_optimize_bytecode comp_ctx = Ok (upd_func (set_h_code code') comp_ctx) /\
    forall pc r,
      (lands_at code pc r <-> lands_at code' pc r) /\
      (lands_at code pc r -> buf_get code' r = buf_get code r).
Proof.
  intros Hwf code Hb Hn.
  destruct (peephole_outer_spec Hwf (Z.to_nat DUK_COMPILER_PEEPHOLE_MAXITER) code Hb Hn)
    as (code' & fx & Hout & Hspec & _ & Hlen & _).
  exists code'. unfold duk__peephole_optimize_bytecode. fold code. rewrite Hout.
  split; [reflexivity|]. intros pc r. split; [now apply (lands_at_spec _ _ _ Hspec)|].
  intros (instr & Hget & Hop)%lands_at_not_jump.
  apply peephole_outer_keeps in Hout as [_ Hkeep].
  rewrite Hget. apply buf_get_Some in Hget as [Hr Hl].
  apply buf_get_Some. split; [done|]. now apply Hkeep.
Qed.

(** The counter of the inner loop: it never decreases, and when it is
    unchanged the code is. *)
Lemma peephole_inner_count (k : nat) :
  forall (i : nat) bc count_opt bc' c,
    duk__peephole_inner k i bc count_opt = Ok (bc', c) ->
    count_opt <= c /\ (c = count_opt -> bc' = bc).
Proof.
  induction k as [|k IH]; intros i bc count_opt bc' c; simpl.
  - intros [= <- <-]. split; [lia|done].
  - destruct (duk__peephole_step bc i) as [[bc1 d]| | |] eqn:Hstep; try discriminate.
    simpl. intros Hin. apply IH in Hin as [Hle Heq].
    assert (Hd : (d = 0 /\ bc1 = bc) \/ d = 1).
    { unfold duk__peephole_step in Hstep.
      destruct (bc !! i); [|discriminate].
      destruct (negb _); [injection Hstep as <- <-; auto|].
      destruct (buf_get bc _); [|discriminate].
      destruct (negb _); injection Hstep as <- <-; auto. }
    destruct Hd as [[-> ->]| ->].
    + rewrite Z.add_0_r in *. auto.
    + split; [lia|]. intros ->. lia.
Qed.

(** X23: code on which the optimizer stopped because a pass rewrote nothing
    is a fixed point: running the optimizer on its output again, with any
    positive pass limit, returns the same code after one pass. *)
Theorem peephole_fixpoint_is_stable (iters : nat) (bc bc' : list duk_compiler_instr) :
  duk__peephole_outer iters bc = Ok (bc', true) ->
  forall iters' : nat,
    (0 < iters')%nat ->
    duk__peephole_pass bc' = Ok (bc', 0) /\
    duk__peephole_outer iters' bc' = Ok (bc', true).
Proof.
  revert bc. induction iters as [|iters IH]; intros bc; simpl; [discriminate|].
  destruct (duk__peephole_pass bc) as [[bc1 c]| | |] eqn:Hpass; try discriminate. simpl.
  destruct (Z.eqb_spec c 0) as [->|Hc].
  - intros [= <-] iters' Hpos.
    unfold duk__peephole_pass in Hpass.
    destruct (peephole_inner_count _ _ _ _ _ _ Hpass) as [_ Heq].
    specialize (Heq eq_refl). subst bc1.
    assert (Hp : duk__peephole_pass bc = Ok (bc, 0)) by exact Hpass.
    split; [exact Hp|]. destruct iters' as [|iters']; [lia|]. simpl. now rewrite Hp.
  - apply IH.
Qed.

End PeepholeLanding.

(** ** Binding powers, formal argument lists, label sites, inner functions *)

Lemma token_lbp_table_range :
  forall x, x ∈ duk__token_lbp ->
    0 <= DUK__TOKEN_LBP_GET_BP x <= DUK__BP_MEMBER /\
    Z.even (DUK__TOKEN_LBP_GET_BP x) = true.
Proof.
  assert (Hall : forallb (fun x => (0 <=? DUK__TOKEN_LBP_GET_BP x) &&
                                   (DUK__TOKEN_LBP_GET_BP x <=? DUK__BP_MEMBER) &&
                                   Z.even (DUK__TOKEN_LBP_GET_BP x)) duk__token_lbp = true)
    by (vm_compute; reflexivity).
  intros x Hx. apply list_elem_of_In in Hx.
  rewrite forallb_forall in Hall. specialize (Hall x Hx).
  apply andb_true_iff in Hall as [[?%Z.leb_le ?%Z.leb_le]%andb_true_iff ?]. auto.
Qed.

(** X24: binding powers in the token table.  An even binding power up to
    62 packed with DUK__MK_LBP_FLAGS() is read back unchanged by
    DUK__TOKEN_LBP_GET_BP(), whatever flags are packed with it, and the
    NO_REGEXP flag is read back as given.  For every token number from 0 to
    DUK_TOK_MAXVAL, duk__expr_lbp() returns an even binding power between 0
    and DUK__BP_MEMBER. *)
Theorem token_lbp_round_trip (comp_ctx : duk_compiler_ctx) (bp : Z) (no_regexp terminates : bool) :
  let flags :=
    Z.lor (if no_regexp then DUK__TOKEN_LBP_FLAG_NO_REGEXP else 0)
          (if terminates then DUK__TOKEN_LBP_FLAG_TERMINATES else 0) in
  (0 <= bp <= 62 -> Z.even bp = true ->
   DUK__TOKEN_LBP_GET_BP (DUK__MK_LBP_FLAGS bp flags) = bp /\
   DUK__TOKEN_LBP_GET_BP (DUK__MK_LBP bp) = bp /\
   has_flag (DUK__MK_LBP_FLAGS bp flags) DUK__TOKEN_LBP_FLAG_NO_REGEXP = no_regexp) /\
  (0 <= t (curr_token comp_ctx) <= DUK_TOK_MAXVAL ->
   exists lbp, duk__expr_lbp comp_ctx = Ok lbp /\
               0 <= lbp <= DUK__BP_MEMBER /\ Z.even lbp = true).
Proof.
  intros flags. split.
  - intros Hbp Heven.
    assert (Hhalf : bp = 2 * (bp / 2)).
    { apply Z.even_spec in Heven as [k ->]. rewrite Z.mul_comm, Z.div_mul by lia. lia. }
    assert (Hr : 0 <= bp / 2 < 32) by (Z.div_mod_to_equations; lia).
    set (half := bp / 2) in *.
    assert (Hcheck : forall h, 0 <= h < 32 ->
      Z.land (Z.lor h flags) DUK__TOKEN_LBP_BP_MASK = h /\
      Z.land h DUK__TOKEN_LBP_BP_MASK = h /\
      has_flag (Z.lor h flags) DUK__TOKEN_LBP_FLAG_NO_REGEXP = no_regexp).
    { intros h Hh.
      assert (Hlow : Z.land h DUK__TOKEN_LBP_BP_MASK = h).
      { change DUK__TOKEN_LBP_BP_MASK with (Z.ones 5).
        rewrite Z.land_ones by lia. apply Z.mod_small. lia. }
      assert (Hbit : Z.land h DUK__TOKEN_LBP_FLAG_NO_REGEXP = 0).
      { pose proof (has_flag_small h 5 5 ltac:(lia) ltac:(lia)) as Hf.
        unfold has_flag in Hf. apply negb_false_iff, Z.eqb_eq in Hf. exact Hf. }
      unfold has_flag. rewrite !Z.land_lor_distr_l, Hlow, Hbit.
      subst flags. destruct no_regexp, terminates; rewrite ?Z.lor_0_r; auto. }
    unfold DUK__TOKEN_LBP_GET_BP, DUK__MK_LBP_FLAGS, DUK__MK_LBP.
    rewrite Z.shiftr_div_pow2 by lia. change (bp / 2 ^ 1) with half.
    destruct (Hcheck half Hr) as (-> & -> & ->). split_and!; try done; lia.
  - intros Htok. unfold duk__expr_lbp.
    destruct (buf_get_in_bounds duk__token_lbp (t (curr_token comp_ctx))) as [x Hx].
    { unfold DUK_TOK_MAXVAL in Htok. simpl. lia. }
    rewrite Hx. apply buf_get_Some in Hx as [_ Hx%list_elem_of_lookup_2].
    destruct (token_lbp_table_range x Hx) as [Hrange Heven].
    destruct (_ && _); [exists 0; split_and!; try done; unfold DUK__BP_MEMBER; lia|].
    destruct (_ && _); [exists 0; split_and!; try done; unfold DUK__BP_MEMBER; lia|].
    eauto.
Qed.

Section InnerFunctions.
Context `{duk_js_bytecode}.
Variable duk_lexer_parse_js_input_element :
  duk_lexer_ctx -> bool -> bool -> outcome (duk_lexer_ctx * duk_token).
Variable duk__parse_stmt : duk_compiler_ctx -> bool -> outcome duk_compiler_ctx.
Variable DUK_HSTRING_HAS_RESERVED_WORD : duk_hstring -> bool.
Variable duk_js_tostring_number : spec_float -> string.

Local Abbreviation advance_helper := (duk__advance_helper duk_lexer_parse_js_input_element).
Local Abbreviation parse_func_formals :=
  (duk__parse_func_formals duk_lexer_parse_js_input_element).
Local Abbreviation parse_func_like_fnum :=
  (duk__parse_func_like_fnum duk_lexer_parse_js_input_element duk__parse_stmt
     DUK_HSTRING_HAS_RESERVED_WORD duk_js_tostring_number).

(** What an advance leaves of the compiler state. *)
Lemma advance_helper_Ok (comp_ctx : duk_compiler_ctx) (expect : Z) comp_ctx' :
  advance_helper comp_ctx expect = Ok comp_ctx' ->
  prev_token comp_ctx' = curr_token comp_ctx /\
  curr_func comp_ctx' = set_reject_regexp_in_adv false (curr_func comp_ctx) /\
  recursion_depth comp_ctx' = recursion_depth comp_ctx /\
  recursion_limit comp_ctx' = recursion_limit comp_ctx /\
  (0 <= expect -> t (curr_token comp_ctx) = expect).
Proof.
  unfold duk__advance_helper. intros Hadv.
  destruct (buf_get duk__token_lbp _) as [lbp|]; [|discriminate].
  destruct (reject_regexp_in_adv (curr_func comp_ctx)) eqn:Hrej; simpl in Hadv;
    destruct (Z.geb_spec expect 0);
    destruct (Z.eqb_spec (t (curr_token comp_ctx)) expect);
    simpl in Hadv; try discriminate;
    match type of Hadv with
    | bind ?m _ = _ => destruct m as [[lex' tok]| | |] eqn:Hlex; try discriminate
    end;
    simpl in Hadv; injection Hadv as <-; simpl; split_and!; try done; try lia.
  all: destruct comp_ctx as [f ? ? ? ? ?]; destruct f; simpl in *; now subst.
Qed.

Lemma parse_func_formals_loop_ok (fuel : nat) :
  forall (comp_ctx : duk_compiler_ctx) (first : bool) comp_ctx',
    duk__parse_func_formals_loop duk_lexer_parse_js_input_element fuel comp_ctx first
      = Ok comp_ctx' ->
    t (curr_token comp_ctx') = DUK_TOK_RPAREN /\
    exists names,
      h_argnames (curr_func comp_ctx') = h_argnames (curr_func comp_ctx) ++ names /\
      (t (curr_token comp_ctx) = DUK_TOK_RPAREN -> names = [] /\ comp_ctx' = comp_ctx) /\
      (t (curr_token comp_ctx) <> DUK_TOK_RPAREN -> names <> []).
Proof.
  induction fuel as [|fuel IH]; intros comp_ctx first comp_ctx'; simpl.
  - destruct (Z.eqb_spec (t (curr_token comp_ctx)) DUK_TOK_RPAREN) as [Hrp|Hrp];
      [|discriminate].
    intros [= <-]. split; [done|]. exists []. rewrite app_nil_r. auto.
  - destruct (Z.eqb_spec (t (curr_token comp_ctx)) DUK_TOK_RPAREN) as [Hrp|Hrp].
    { intros [= <-]. split; [done|]. exists []. rewrite app_nil_r. auto. }
    intros Hrun. apply bind_Ok in Hrun as (c1 & Hc1 & Hrun).
    assert (Hargs1 : h_argnames (curr_func c1) = h_argnames (curr_func comp_ctx)).
    { destruct first; [now injection Hc1 as <-|].
      apply advance_helper_Ok in Hc1 as (_ & -> & _). reflexivity. }
    destruct (negb (t (curr_token c1) =? DUK_TOK_IDENTIFIER)); [discriminate|].
    destruct (str1 (curr_token c1)) as [name|]; [|discriminate].
    apply bind_Ok in Hrun as (c2 & Hc2 & Hrun).
    apply advance_helper_Ok in Hc2 as (_ & Hf2 & _).
    apply IH in Hrun as (Htok & names & Hnames & _).
    split; [done|]. exists (name :: names). split_and!; [|done|done].
    rewrite Hnames, Hf2. simpl. rewrite Hargs1, <- app_assoc. reflexivity.
Qed.

(** X25: when duk__parse_func_formals() returns, the current token is the
    closing parenthesis and the formal argument names it read were appended
    to the names the function already had; it reads no name, and leaves the
    compiler state as it is, exactly when the current token is the closing
    parenthesis at entry.  A first token that is neither a closing parenthesis
    nor an identifier is a SyntaxError. *)
Theorem parse_func_formals_appends_names (fuel : nat) (comp_ctx : duk_compiler_ctx) :
  (forall comp_ctx',
     parse_func_formals fuel comp_ctx = Ok comp_ctx' ->
     t (curr_token comp_ctx') = DUK_TOK_RPAREN /\
     exists names,
       h_argnames (curr_func comp_ctx') = h_argnames (curr_func comp_ctx) ++ names /\
       (t (curr_token comp_ctx) = DUK_TOK_RPAREN -> names = [] /\ comp_ctx' = comp_ctx) /\
       (t (curr_token comp_ctx) <> DUK_TOK_RPAREN -> names <> [])) /\
  (t (curr_token comp_ctx) <> DUK_TOK_RPAREN ->
   t (curr_token comp_ctx) <> DUK_TOK_IDENTIFIER ->
   (0 < fuel)%nat ->
   parse_func_formals fuel comp_ctx = DUK_ERROR DUK_ERR_SYNTAX_ERROR "expected identifier").
Proof.
  split.
  - intros comp_ctx' Hrun. now apply (parse_func_formals_loop_ok fuel comp_ctx true).
  - intros Hrp Hid Hfuel. unfold duk__parse_func_formals.
    destruct fuel as [|fuel]; [lia|]. simpl.
    destruct (Z.eqb_spec (t (curr_token comp_ctx)) DUK_TOK_RPAREN); [done|]. simpl.
    destruct (Z.eqb_spec (t (curr_token comp_ctx)) DUK_TOK_IDENTIFIER); done.
Qed.

(** X26: a label site.  duk__stmt_label_site() with a label id that is
    already allocated does nothing.  With a negative id it takes the next
    label id of the function, increments label_next, and emits three
    instructions: a LABEL carrying the id, and two INVALID slots at the
    following pcs (pc + 1 and pc + 2, the targets of a fast break and
    continue), which are to be patched into jumps. *)
Theorem stmt_label_site_allocates (comp_ctx : duk_compiler_ctx) (id : Z) :
  is_opcode DUK_OP_LABEL -> is_opcode DUK_OP_INVALID ->
  (0 <= id -> duk__stmt_label_site comp_ctx id = (id, comp_ctx)) /\
  (id < 0 -> 0 <= label_next (curr_func comp_ctx) < 2 ^ 26 ->
   exists w0 w1 w2,
     let line := start_line (curr_token comp_ctx) in
     duk__stmt_label_site comp_ctx id
     = (label_next (curr_func comp_ctx),
        upd_func
          (fun f => set_h_code (h_code f ++ [mk_instr w0 line; mk_instr w1 line;
                                             mk_instr w2 line])
                      (set_label_next (label_next f + 1) f)) comp_ctx) /\
     DUK_DEC_OP w0 = DUK_OP_LABEL /\
     DUK_DEC_ABC w0 = label_next (curr_func comp_ctx) /\
     DUK_DEC_OP w1 = DUK_OP_INVALID /\ DUK_DEC_OP w2 = DUK_OP_INVALID).
Proof.
  intros Hlabel Hinvalid. unfold duk__stmt_label_site. split.
  - intros Hid. destruct (Z.geb_spec id 0); [reflexivity|lia].
  - intros Hid Hnext. destruct (Z.geb_spec id 0); [lia|].
    exists (wrap32 (DUK_ENC_OP_ABC DUK_OP_LABEL (label_next (curr_func comp_ctx)))),
      (wrap32 (DUK_ENC_OP_ABC DUK_OP_INVALID 0)),
      (wrap32 (DUK_ENC_OP_ABC DUK_OP_INVALID 0)).
    split.
    + f_equal. destruct comp_ctx as [f ? ? ? ? ?]. destruct f.
      unfold duk__emit_invalid, duk__emit_abc, duk__emit, upd_func. simpl.
      rewrite <- !app_assoc. reflexivity.
    + split_and!.
      * now apply dec_op_enc_abc.
      * now apply dec_abc_enc_abc.
      * now apply dec_op_enc_abc.
      * now apply dec_op_enc_abc.
Qed.



End InnerFunctions.

(** ** The properties above on concrete inputs *)

Section HelperChecks.
#[local] Existing Instance duk_bytecode_sample.

Local Ltac by_computation :=
  vm_compute; repeat split; first [discriminate | reflexivity].

Lemma emit_a_bc_fields_witness :
  exists w,
    duk__emit_a_bc sample_ctx DUK_OP_LDCONST 3 (Z.lor 7 DUK__CONST_MARKER)
      = Ok (upd_func (fun f => set_h_code (h_code f ++ [mk_instr w 1]) f) sample_ctx) /\
    DUK_DEC_OP w = DUK_OP_LDCONST /\ DUK_DEC_A w = 3 /\ DUK_DEC_BC w = 7.
Proof.
  destruct (emit_a_bc_fields sample_ctx DUK_OP_LDCONST 3 (Z.lor 7 DUK__CONST_MARKER))
    as (w & Hrun & Hop & Ha & Hbc).
  - by_computation.
  - by_computation.
  - by_computation.
  - exists w. split; [exact Hrun|]. split; [exact Hop|]. split; [exact Ha|exact Hbc].
Defined.

Lemma emit_a_b_c_fields_witness :
  exists w,
    duk__emit_a_b_c sample_ctx DUK_OP_CALL 1 2 (DUK__CONST_MARKER + 3)
      = Ok (upd_func (fun f => set_h_code (h_code f ++ [mk_instr w 1]) f) sample_ctx) /\
    DUK_DEC_OP w = DUK_OP_CALL /\ DUK_DEC_A w = 1 /\
    DUK_DEC_B w = 2 /\ DUK_DEC_C w = 0x100 + 3.
Proof.
  destruct (emit_a_b_c_fields sample_ctx DUK_OP_CALL 1 2 (DUK__CONST_MARKER + 3))
    as (w & Hrun & Hop & Ha & Hb & Hc).
  - by_computation.
  - by_computation.
  - left. by_computation.
  - right. by_computation.
  - exists w. split; [exact Hrun|]. split; [exact Hop|]. split; [exact Ha|].
    split; [exact Hb|exact Hc].
Defined.

Lemma emit_loadint_value_witness :
  exists w1 w2,
    duk__emit_loadint sample_ctx 1 1000000
      = Ok (upd_func (fun f => set_h_code (h_code f ++ [mk_instr w1 1; mk_instr w2 1]) f)
              sample_ctx) /\
    DUK_DEC_OP w1 = DUK_OP_LDINT /\ DUK_DEC_OP w2 = DUK_OP_LDINTX /\
    (DUK_DEC_BC w1 - DUK_BC_LDINT_BIAS) * 2 ^ 18 + DUK_DEC_BC w2 = 1000000.
Proof.
  destruct (emit_loadint_value sample_ctx 1 1000000) as (ws & Hrun & Hws).
  - by_computation.
  - by_computation.
  - by_computation.
  - by_computation.
  - destruct ws as [|w1 [|w2 [|w3 ws]]]; try (vm_compute in Hrun; discriminate).
    exists w1, w2. destruct Hws as (Hop1 & _ & Hop2 & _ & Hval).
    split; [exact Hrun|]. split; [exact Hop1|]. split; [exact Hop2|exact Hval].
Defined.

Lemma emit_jump_round_trip_witness :
  exists w,
    duk__emit_jump (sample_ctx_with_code jump_chain_code) 1
      = upd_func (fun f => set_h_code (h_code f ++ [mk_instr w 1]) f)
          (sample_ctx_with_code jump_chain_code) /\
    DUK_DEC_OP w = DUK_OP_JUMP /\ jump_target 3 w = 1.
Proof.
  destruct (emit_jump_round_trip (sample_ctx_with_code jump_chain_code) 1)
    as (w & Hrun & Hop & Htgt).
  - by_computation.
  - by_computation.
  - exists w. split; [exact Hrun|]. split; [exact Hop|exact Htgt].
Defined.

Lemma patch_jump_retargets_witness :
  exists code' w,
    duk__patch_jump (sample_ctx_with_code jump_chain_code) 2 0
      = Ok (upd_func (set_h_code code') (sample_ctx_with_code jump_chain_code)) /\
    length code' = 3%nat /\
    buf_get code' 2 = Some (mk_instr w 1) /\
    DUK_DEC_OP w = DUK_OP_JUMP /\ jump_target 2 w = 0 /\
    forall pc, pc <> 2 -> buf_get code' pc = buf_get jump_chain_code pc.
Proof.
  assert (Hop : is_opcode DUK_OP_JUMP) by (by_computation).
  destruct (proj2 (patch_jump_retargets (sample_ctx_with_code jump_chain_code) 2 0 Hop)
              (mk_instr (wrap32 (DUK_ENC_OP_ABC DUK_OP_RETURN 0)) 1))
    as (code' & w & Hrun & Hlen & Hat & Hdop & Htgt & Hother).
  - reflexivity.
  - by_computation.
  - exists code', w. split; [exact Hrun|]. split; [exact Hlen|]. split; [exact Hat|].
    split; [exact Hdop|]. split; [exact Htgt|exact Hother].
Defined.

Lemma jump_empty_patched_here_witness :
  exists code' w,
    duk__patch_jump_here (duk__emit_invalid (snd (duk__emit_jump_empty sample_ctx))) 0
      = Ok (upd_func (set_h_code code')
              (duk__emit_invalid (snd (duk__emit_jump_empty sample_ctx)))) /\
    length code' = 2%nat /\
    buf_get code' 0 = Some (mk_instr w 1) /\
    DUK_DEC_OP w = DUK_OP_JUMP /\ jump_target 0 w = 2 /\
    forall pc, pc <> 0 ->
      buf_get code' pc
      = buf_get (h_code (curr_func
                   (duk__emit_invalid (snd (duk__emit_jump_empty sample_ctx))))) pc.
Proof.
  destruct (jump_empty_patched_here sample_ctx
              (duk__emit_invalid (snd (duk__emit_jump_empty sample_ctx))))
    as (code' & w & Hrun & Hlen & Hat & Hdop & Htgt & Hother).
  - by_computation.
  - apply only_emits_emit.
  - by_computation.
  - exists code', w. split; [exact Hrun|]. split; [exact Hlen|]. split; [exact Hat|].
    split; [exact Hdop|]. split; [exact Htgt|exact Hother].
Defined.

Lemma insert_jump_entry_shifts_witness :
  exists code' w,
    duk__insert_jump_entry (sample_ctx_with_code jump_chain_code) 1
      = Ok (upd_func (set_h_code code') (sample_ctx_with_code jump_chain_code)) /\
    length code' = 4%nat /\
    buf_get code' 1 = Some (mk_instr w 1) /\
    DUK_DEC_OP w = DUK_OP_JUMP /\ DUK_DEC_ABC w = 0 /\
    (forall pc, pc < 1 -> buf_get code' pc = buf_get jump_chain_code pc) /\
    (forall pc, 1 <= pc -> buf_get code' (pc + 1) = buf_get jump_chain_code pc).
Proof.
  destruct (insert_jump_entry_shifts (sample_ctx_with_code jump_chain_code) 1)
    as (code' & w & Hrun & Hlen & Hat & Hdop & Habc & Hbefore & Hafter).
  - by_computation.
  - by_computation.
  - exists code', w. split; [exact Hrun|]. split; [exact Hlen|]. split; [exact Hat|].
    split; [exact Hdop|]. split; [exact Habc|]. split; [exact Hbefore|exact Hafter].
Defined.

Lemma temp_max_is_high_water_mark_witness :
  exists r comp_ctx',
    duk__alloctemps sample_ctx 2 = Ok (r, comp_ctx') /\
    r = 0 /\ temp_next (curr_func comp_ctx') = 2 /\
    (forall reg, 0 <= reg < 0 + 2 -> reg < temp_max (curr_func comp_ctx')).
Proof.
  eexists _, _. split; [reflexivity|].
  destruct (proj1 (temp_max_is_high_water_mark sample_ctx) 2 _ _ eq_refl)
    as (Hr & Hnext & Hbelow & _).
  split; [exact Hr|]. split; [exact Hnext|exact Hbelow].
Defined.

Lemma getconst_returns_index_of_value_witness :
  exists (i : nat) tv2,
    has_flag DUK__CONST_MARKER DUK__CONST_MARKER = true /\
    Z.land DUK__CONST_MARKER (Z.lnot DUK__CONST_MARKER) = Z.of_nat i /\
    Z.of_nat i < DUK__MAX_CONSTS /\
    [DUK_TAG_STRING "x"] !! i = Some tv2 /\
    duk_js_samevalue (DUK_TAG_STRING "x") tv2 = true.
Proof.
  destruct (getconst_returns_index_of_value sample_ctx (DUK_TAG_STRING "x")
              DUK__CONST_MARKER
              (upd_func (fun f => set_h_consts (h_consts f ++ [DUK_TAG_STRING "x"]) f)
                 sample_ctx) eq_refl)
    as (i & tv2 & Hflag & Hidx & Hmax & Hl & Hsame & _).
  exists i, tv2. split; [exact Hflag|]. split; [exact Hidx|]. split; [exact Hmax|].
  split; [exact Hl|exact Hsame].
Defined.


Lemma update_label_flags_topmost_run_witness :
  exists infos',
    duk__update_label_flags ctx_on_break 0 1
      = Ok (upd_func (set_h_labelinfos infos') ctx_on_break) /\
    length infos' = 1%nat /\
    infos' !! 0%nat = Some (set_li_flags 1 (mk_labelinfo 3 0 EmptyString 0 0)).
Proof.
  destruct (update_label_flags_topmost_run ctx_on_break 0 1) as (infos' & Hrun & Hlen & Hall).
  exists infos'. split; [exact Hrun|]. split; [exact Hlen|].
  apply (proj1 (Hall 0%nat (mk_labelinfo 3 0 EmptyString 0 0) eq_refl)).
  intros j y Hj Hy. destruct j as [|j]; [|discriminate Hy].
  injection Hy as <-. reflexivity.
Defined.

Lemma lookup_active_label_innermost_witness :
  exists (li : nat) info,
    h_labelinfos (curr_func ctx_on_break) !! li = Some info /\
    0 = label_id info /\ 0 = li_catch_depth info /\ 0 = pc_label info /\
    h_label info = EmptyString.
Proof.
  destruct (lookup_active_label_innermost ctx_on_break EmptyString true 0 0 0 true eq_refl)
    as (li & info & Hinfo & Hid & Hcd & Hpc & Hlab & _).
  exists li, info. split; [exact Hinfo|]. split; [exact Hid|]. split; [exact Hcd|].
  split; [exact Hpc|exact Hlab].
Defined.

Lemma lookup_active_label_errors_witness :
  duk__lookup_active_label sample_ctx "a" true
  = DUK_ERROR DUK_ERR_SYNTAX_ERROR "cannot resolve label".
Proof.
  apply (proj1 (proj2 (lookup_active_label_errors sample_ctx "a" true))).
  intros info Hin. apply elem_of_nil in Hin. destruct Hin.
Defined.

Lemma added_label_is_closest_witness :
  duk__add_label sample_ctx "a" 0 0 = Ok ctx_label_added /\
  duk__update_label_flags ctx_label_added 0
    (Z.lor DUK_LABEL_FLAG_ALLOW_BREAK DUK_LABEL_FLAG_ALLOW_CONTINUE)
    = Ok ctx_label_flagged /\
  duk__lookup_active_label ctx_label_flagged "a" false = Ok (0, 0, 0, true).
Proof.
  assert (Hadd : duk__add_label sample_ctx "a" 0 0 = Ok ctx_label_added)
    by (vm_compute; reflexivity).
  assert (Hupd : duk__update_label_flags ctx_label_added 0
                   (Z.lor DUK_LABEL_FLAG_ALLOW_BREAK DUK_LABEL_FLAG_ALLOW_CONTINUE)
                 = Ok ctx_label_flagged)
    by (vm_compute; reflexivity).
  split; [exact Hadd|]. split; [exact Hupd|].
  apply (added_label_is_closest sample_ctx ctx_label_added ctx_label_flagged "a" 0 0
           (Z.lor DUK_LABEL_FLAG_ALLOW_BREAK DUK_LABEL_FLAG_ALLOW_CONTINUE) false
           Hadd Hupd).
  right. reflexivity.
Defined.

Lemma reset_labels_undoes_add_label_witness :
  duk__add_label sample_ctx "a" 0 0 = Ok ctx_label_added /\
  duk__update_label_flags ctx_label_added 0
    (Z.lor DUK_LABEL_FLAG_ALLOW_BREAK DUK_LABEL_FLAG_ALLOW_CONTINUE)
    = Ok ctx_label_flagged /\
  duk__reset_labels_to_length ctx_label_flagged 0 = Ok sample_ctx.
Proof.
  assert (Hadd : duk__add_label sample_ctx "a" 0 0 = Ok ctx_label_added)
    by (vm_compute; reflexivity).
  assert (Hupd : duk__update_label_flags ctx_label_added 0
                   (Z.lor DUK_LABEL_FLAG_ALLOW_BREAK DUK_LABEL_FLAG_ALLOW_CONTINUE)
                 = Ok ctx_label_flagged)
    by (vm_compute; reflexivity).
  split; [exact Hadd|]. split; [exact Hupd|].
  apply (reset_labels_undoes_add_label sample_ctx ctx_label_added ctx_label_flagged
           "a" 0 0 (Z.lor DUK_LABEL_FLAG_ALLOW_BREAK DUK_LABEL_FLAG_ALLOW_CONTINUE)
           Hadd Hupd).
  intros y Hy. discriminate Hy.
Defined.

Lemma recursion_limit_guard_witness :
  exists comp_ctx',
    duk__recursion_increase sample_ctx = Ok comp_ctx' /\
    recursion_depth comp_ctx' = 0 + 1 /\
    duk__recursion_decrease comp_ctx' = sample_ctx.
Proof.
  apply (proj2 (recursion_limit_guard sample_lexer sample_parse_stmt sample_reserved_word
                  sample_ctx)).
  reflexivity.
Defined.


Lemma prologue_formals_bind_registers_witness :
  exists varmap',
    duk__prologue_formals ctx_duplicate_formals ["a"; "a"] 0
      = Ok (upd_func (set_h_varmap varmap') ctx_duplicate_formals) /\
    varmap' !! "a" = Some (VarReg 1).
Proof.
  destruct (prologue_formals_bind_registers ctx_duplicate_formals eq_refl
              (or_introl eq_refl)) as (varmap' & Hrun & Hlast & _).
  exists varmap'. split; [exact Hrun|].
  apply (Hlast 1%nat "a" eq_refl).
  intros j Hj. destruct j as [|[|j]]; [lia|lia|discriminate].
Defined.

Lemma peephole_preserves_landing_witness :
  exists code',
    duk__peephole_optimize_bytecode (sample_ctx_with_code jump_chain_code)
      = Ok (upd_func (set_h_code code') (sample_ctx_with_code jump_chain_code)) /\
    lands_at code' 0 2.
Proof.
  assert (Hb : jumps_in_bounds (h_code (curr_func (sample_ctx_with_code jump_chain_code))))
    by (apply jumps_in_boundsb_ok; vm_compute; reflexivity).
  assert (Hn : Z.of_nat (length (h_code (curr_func
                 (sample_ctx_with_code jump_chain_code)))) <= 2 ^ 25)
    by (vm_compute; discriminate).
  destruct (peephole_preserves_landing (sample_ctx_with_code jump_chain_code)
              duk_bytecode_sample_wf Hb Hn) as (code' & Hrun & Hland).
  exists code'. split; [exact Hrun|].
  apply (proj1 (Hland 0 2)).
  apply (follow_jumps_lands 2). vm_compute. reflexivity.
Defined.

Lemma peephole_fixpoint_is_stable_witness :
  exists bc',
    duk__peephole_outer 3 jump_chain_code = Ok (bc', true) /\
    duk__peephole_pass bc' = Ok (bc', 0) /\
    duk__peephole_outer 1 bc' = Ok (bc', true).
Proof.
  destruct (duk__peephole_outer 3 jump_chain_code) as [[bc' [|]]| | |] eqn:Hrun;
    try (vm_compute in Hrun; discriminate).
  exists bc'. split; [reflexivity|].
  apply (peephole_fixpoint_is_stable 3 jump_chain_code bc' Hrun 1%nat). lia.
Defined.

Lemma token_lbp_round_trip_witness :
  DUK__TOKEN_LBP_GET_BP
    (DUK__MK_LBP_FLAGS DUK__BP_CLOSING (Z.lor DUK__TOKEN_LBP_FLAG_NO_REGEXP 0))
  = DUK__BP_CLOSING.
Proof.
  apply (proj1 (token_lbp_round_trip sample_ctx DUK__BP_CLOSING true false)).
  - by_computation.
  - reflexivity.
Defined.

Lemma parse_func_formals_appends_names_witness :
  duk__parse_func_formals sample_lexer 1 (sample_ctx_at ";" sample_func)
  = DUK_ERROR DUK_ERR_SYNTAX_ERROR "expected identifier".
Proof.
  apply (proj2 (parse_func_formals_appends_names sample_lexer 1
                  (sample_ctx_at ";" sample_func))).
  - by_computation.
  - by_computation.
  - lia.
Defined.

Lemma stmt_label_site_allocates_witness :
  exists w0 w1 w2,
    duk__stmt_label_site sample_ctx (-1)
    = (0, upd_func
            (fun f => set_h_code (h_code f ++ [mk_instr w0 1; mk_instr w1 1; mk_instr w2 1])
                        (set_label_next (label_next f + 1) f)) sample_ctx) /\
    DUK_DEC_OP w0 = DUK_OP_LABEL /\ DUK_DEC_ABC w0 = 0 /\
    DUK_DEC_OP w1 = DUK_OP_INVALID /\ DUK_DEC_OP w2 = DUK_OP_INVALID.
Proof.
  apply (proj2 (stmt_label_site_allocates sample_ctx (-1)
                  ltac:(by_computation)
                  ltac:(by_computation))).
  - reflexivity.
  - by_computation.
Defined.


Lemma emit_extraop_fields_witness :
  exists w,
    duk__emit_extraop_b_c sample_ctx DUK_EXTRAOP_LDUNDEF 1 (DUK__CONST_MARKER + 2)
      = Ok (upd_func (fun f => set_h_code (h_code f ++ [mk_instr w 1]) f) sample_ctx) /\
    DUK_DEC_OP w = DUK_OP_EXTRA /\ DUK_DEC_A w = DUK_EXTRAOP_LDUNDEF /\
    DUK_DEC_B w = 1 /\ DUK_DEC_C w = 0x100 + 2.
Proof.
  destruct (emit_extraop_fields sample_ctx DUK_EXTRAOP_LDUNDEF 1 (DUK__CONST_MARKER + 2))
    as [(w & Hrun & [Hop Ha] & Hb & Hc) _].
  - by_computation.
  - left. by_computation.
  - right. by_computation.
  - exists w. split; [exact Hrun|]. split; [exact Hop|]. split; [exact Ha|].
    split; [exact Hb|exact Hc].
Defined.


End HelperChecks.
